(** * The payment-channel server of [two1.bitserv.payment_server]

    A shallow embedding of [PaymentServer] (open, receive_payment, status,
    close, redeem, sync) together with the properties of its channel state
    machine.  The server methods are embedded as computations in a
    state-and-exception monad over the persistent store and the trace of
    effects; the bitcoin library, the wallet and the blockchain provider are
    interfaces the server consumes. *)

From Stdlib Require Import ZArith QArith List String Ascii Bool Lia.
From Stdlib Require Import DecimalString.
Import ListNotations.
Local Open Scope string_scope.
Local Open Scope Z_scope.

(* ===================================================================== *)
(** ** Python values, exceptions and the standard-library functions used  *)
(* ===================================================================== *)

(** A Python [bytes] object. *)
Definition bytes := list Byte.byte.

(** The exception classes of the module (all derived from
    [PaymentServerError]) and the Python built-in ones that the functions
    called by the server raise.  [binascii_Error] is a subclass of
    [ValueError]; [Exception] stands for any other class. *)
Inductive exn : Type :=
| PaymentServerError (msg : string)
| RedeemPaymentError (msg : string)
| ChannelClosedError (msg : string)
| PaymentChannelNotFoundError (msg : string)
| BadTransactionError (msg : string)
| TransactionVerificationError (msg : string)
| TypeError (msg : string)
| ValueError (msg : string)
| binascii_Error (msg : string)
| IndexError (msg : string)
| Exception (msg : string).

(** [isinstance(e, TypeError)], the test of an [except TypeError:] clause. *)
Definition isinstance_TypeError (e : exn) : bool :=
  match e with TypeError _ => true | _ => false end.

(** [isinstance(e, ValueError)]. *)
Definition isinstance_ValueError (e : exn) : bool :=
  match e with ValueError _ | binascii_Error _ => true | _ => false end.

(** Is the exception one of the server's validation errors naming a bad
    transaction? *)
Definition is_BadTransactionError (e : exn) : bool :=
  match e with BadTransactionError _ => true | _ => false end.

Definition is_TransactionVerificationError (e : exn) : bool :=
  match e with TransactionVerificationError _ => true | _ => false end.

(** The outcome of a call: a value, or a raised exception. *)
Inductive result (A : Type) : Type :=
| Ok (a : A)
| Raise (e : exn).
Arguments Ok {A} a.
Arguments Raise {A} e.


(** Sequencing of calls that may raise. *)
Definition result_bind {A B} (r : result A) (k : A -> result B) : result B :=
  match r with
  | Ok a => k a
  | Raise e => Raise e
  end.

Notation "x <-- r ;; k" := (result_bind r (fun x => k))
  (at level 61, r at next level, right associativity).

(** [try: r  except TypeError: raise e']. *)
Definition try_except_TypeError {A} (r : result A) (e' : exn) : result A :=
  match r with
  | Ok a => Ok a
  | Raise e => if isinstance_TypeError e then Raise e' else Raise e
  end.

(** [l[i]] for a non-negative index. *)
Definition getitem {A} (l : list A) (i : nat) : result A :=
  match nth_error l i with
  | Some a => Ok a
  | None => Raise (IndexError "list index out of range")
  end.

(** [l[-1]]. *)
Definition getitem_last {A} (l : list A) : result A :=
  match rev l with
  | a :: _ => Ok a
  | [] => Raise (IndexError "list index out of range")
  end.

(** [str(n)] and ['{}'.format(n)] for an integer. *)
Definition str_of_int (n : Z) : string :=
  NilZero.string_of_int (Z.to_int n).

(** *** [codecs.decode(s, 'hex_codec')] and [codecs.encode(b, 'hex_codec')] *)

Definition hex_digit_value (c : ascii) : option N :=
  let n := N_of_ascii c in
  if ((48 <=? n) && (n <=? 57))%N then Some (n - 48)%N
  else if ((97 <=? n) && (n <=? 102))%N then Some (n - 87)%N
  else if ((65 <=? n) && (n <=? 70))%N then Some (n - 55)%N
  else None.

Definition byte_of_N (n : N) : Byte.byte :=
  match Byte.of_N n with Some b => b | None => Byte.x00 end.

Fixpoint is_ascii_only (s : string) : bool :=
  match s with
  | EmptyString => true
  | String c rest => (N_of_ascii c <? 128)%N && is_ascii_only rest
  end.

(** [binascii.a2b_hex] on the characters, two by two. *)
Fixpoint a2b_hex (s : string) : option bytes :=
  match s with
  | EmptyString => Some []
  | String _ EmptyString => None
  | String c1 (String c2 rest) =>
      match hex_digit_value c1, hex_digit_value c2, a2b_hex rest with
      | Some h, Some l, Some bs => Some (byte_of_N (16 * h + l)%N :: bs)
      | _, _, _ => None
      end
  end.

(** [codecs.decode(s, 'hex_codec')] for a [str] argument (Python 3): a
    non-ASCII string raises [ValueError]; an odd length or a character that
    is no hexadecimal digit raises [binascii.Error].  No [str] argument
    raises [TypeError]. *)
Definition codecs_decode_hex (s : string) : result bytes :=
  if negb (is_ascii_only s) then
    Raise (ValueError "decoding with 'hex_codec' codec failed (ValueError: string argument should contain only ASCII characters)")
  else if Nat.odd (String.length s) then
    Raise (binascii_Error "decoding with 'hex_codec' codec failed (Error: Odd-length string)")
  else match a2b_hex s with
       | Some bs => Ok bs
       | None => Raise (binascii_Error "decoding with 'hex_codec' codec failed (Error: Non-hexadecimal digit found)")
       end.

Definition hex_digit_char (n : N) : ascii :=
  if (n <? 10)%N then ascii_of_N (48 + n) else ascii_of_N (87 + n).

(** [codecs.encode(b, 'hex_codec').decode()]. *)
Fixpoint codecs_encode_hex (b : bytes) : string :=
  match b with
  | [] => EmptyString
  | x :: rest =>
      let n := Byte.to_N x in
      String (hex_digit_char (n / 16)) (String (hex_digit_char (n mod 16)) (codecs_encode_hex rest))
  end.

(** [s.encode()]. *)
Definition str_encode (s : string) : bytes := list_byte_of_string s.

(* ===================================================================== *)
(** ** The bitcoin data the server handles                                *)
(* ===================================================================== *)

(** An element of a parsed [Script]: a data push (a [bytes] object) or an
    opcode (a [str] such as ['OP_1']). *)
Inductive ScriptItem : Type :=
| Bytes (b : bytes)
| Str (s : string).

Definition Script := list ScriptItem.

(** [item[:-1]] on a [bytes] or a [str]. *)
Definition slice_but_last (item : ScriptItem) : ScriptItem :=
  match item with
  | Bytes b => Bytes (removelast b)
  | Str s => Str (string_of_list_ascii (removelast (list_ascii_of_string s)))
  end.

Record TransactionInput : Type := mkTransactionInput {
  outpoint : string;
  outpoint_index : Z;
  script : Script;
  sequence_num : Z
}.

Record TransactionOutput : Type := mkTransactionOutput {
  value : Z;
  out_script : Script
}.

Record Transaction : Type := mkTransaction {
  version : Z;
  inputs : list TransactionInput;
  outputs : list TransactionOutput;
  lock_time : Z
}.

Definition SIG_HASH_ALL : Z := 1.

Record PublicKey : Type := mkPublicKey { compressed_bytes : bytes }.

Record Signature : Type := mkSignature { sig_r : Z; sig_s : Z }.

(** [PaymentChannelRedeemScript(merchant_public_key, customer_public_key,
    expiration_time)]. *)
Module PaymentChannelRedeemScript.
Record t : Type := mk {
  merchant_public_key : PublicKey;
  customer_public_key : PublicKey;
  expiration_time : Z
}.
End PaymentChannelRedeemScript.

(** Elements of a script template: the type [bytes], or an opcode name. *)
Inductive TemplateItem : Type :=
| T_bytes
| T_op (name : string).

(** The interface of [two1.bitcoin] and [two1.channels.statemachine] that
    the server consumes: parsers (which raise on malformed input),
    serialisers, hashes and signature verification. *)
Class BitcoinLib : Type := {
  Transaction_from_hex : string -> result Transaction;
  Transaction_to_hex : Transaction -> string;
  Transaction_hash : Transaction -> string;
  Transaction_bytes : Transaction -> bytes;
  Transaction_copy_for_sig :
    Transaction -> nat -> Z -> PaymentChannelRedeemScript.t -> Transaction;
  Hash_dhash : bytes -> bytes;
  pack_u32 : Z -> bytes;
  pack_compact_int : Z -> bytes;
  PublicKey_from_hex : string -> result PublicKey;
  PublicKey_to_hex : PublicKey -> string;
  PublicKey_hash160 : PublicKey -> bytes;
  PublicKey_verify : PublicKey -> bytes -> Signature -> bool -> bool;
  Signature_from_der : ScriptItem -> result Signature;
  Signature_to_der : Signature -> bytes;
  RedeemScript_from_bytes : ScriptItem -> result PaymentChannelRedeemScript.t;
  RedeemScript_to_hex : PaymentChannelRedeemScript.t -> string;
  RedeemScript_bytes : PaymentChannelRedeemScript.t -> bytes;
  RedeemScript_hash160 : PaymentChannelRedeemScript.t -> bytes;
  Script_pays_to : Script -> bytes -> bool
}.

(** The interface of [Two1WalletWrapper].  [sign_half_signed_payment]
    signs the transaction object in place: the embedding returns the signed
    transaction. *)
Class Wallet : Type := {
  get_payout_public_key : PublicKey;
  validate_public_key : PublicKey -> bool;
  create_unsigned_payment_tx :
    Transaction -> PaymentChannelRedeemScript.t -> Z -> Z -> result Transaction;
  sign_half_signed_payment :
    Transaction -> PaymentChannelRedeemScript.t -> result Transaction
}.

(** The constants imported from [two1] and the server's [zeroconf] flag. *)
Class Config : Type := {
  MIN_TX_FEE : Z;
  MIN_EXP_TIME : Z;
  zeroconf : bool
}.

(** What the outside world answers during one call of a server method: the
    clock [time.time()] and the blockchain provider. *)
Record Env : Type := mkEnv {
  time_time : Q;
  check_confirmed : string -> result bool;
  lookup_spend_txid : string -> option nat -> result (option string);
  broadcast_tx : string -> result unit
}.

(** [int(x)] of a float: truncation toward zero. *)
Definition int_of_float (x : Q) : Z := Z.quot (Qnum x) (Z.pos (Qden x)).

(** [x > y] on floats. *)
Definition float_gt (x y : Q) : bool := negb (Qle_bool x y).

Definition DUST_LIMIT : Z := 3000.
Definition EXP_TIME_BUFFER : Z := 3 * 24 * 3600.
Definition PROTOCOL_VERSION : Z := 2.

(* ===================================================================== *)
(** ** The channel store ([.models])                                      *)
(* ===================================================================== *)

(** [ChannelSQLite3.CONFIRMING], [READY] and [CLOSED]. *)
Inductive ChannelState : Type := CONFIRMING | READY | CLOSED.

Definition ChannelState_eqb (a b : ChannelState) : bool :=
  match a, b with
  | CONFIRMING, CONFIRMING | READY, READY | CLOSED, CLOSED => true
  | _, _ => false
  end.

(** The position of a state on the line CONFIRMING, READY, CLOSED. *)
Definition state_rank (s : ChannelState) : nat :=
  match s with CONFIRMING => 0 | READY => 1 | CLOSED => 2 end.

Module Channel.
Record t : Type := mk {
  deposit_txid : string;
  state : ChannelState;
  deposit_tx : Transaction;
  payment_tx : option Transaction;
  merchant_pubkey : string;
  expires_at : Z;
  amount : Z;
  last_payment_amount : Z
}.
Definition set_state (s : ChannelState) (c : t) : t :=
  mk (deposit_txid c) s (deposit_tx c) (payment_tx c) (merchant_pubkey c)
     (expires_at c) (amount c) (last_payment_amount c).
Definition set_payment (ptx : Transaction) (amt : Z) (c : t) : t :=
  mk (deposit_txid c) (state c) (deposit_tx c) (Some ptx) (merchant_pubkey c)
     (expires_at c) (amount c) amt.
End Channel.

Module Payment.
Record t : Type := mk {
  payment_txid : string;
  deposit_txid : string;
  payment_tx : Transaction;
  amount : Z;
  redeemed : bool
}.
Definition set_redeemed (p : t) : t :=
  mk (payment_txid p) (deposit_txid p) (payment_tx p) (amount p) true.
End Payment.

(** The two tables of the store, as lists of rows in insertion order. *)
Record Database : Type := mkDatabase {
  pc : list Channel.t;
  pmt : list Payment.t
}.

(** The effects a call leaves behind besides its result: the writes to the
    store and the calls that sign and broadcast. *)
Inductive Event : Type :=
| ev_pc_create (deposit_txid : string)
| ev_pc_update_state (deposit_txid : string) (new_state : ChannelState)
| ev_pc_update_payment (deposit_txid : string) (payment_tx : Transaction) (amt : Z)
| ev_pmt_create (deposit_txid : string) (payment_tx : Transaction) (amt : Z)
| ev_pmt_redeem (payment_txid : string)
| ev_sign_half_signed_payment (payment_tx : Transaction)
| ev_broadcast_tx (tx_hex : string).

Definition is_broadcast (e : Event) : bool :=
  match e with ev_broadcast_tx _ => true | _ => false end.

Record World : Type := mkWorld {
  db : Database;
  trace : list Event
}.

Definition initial_world : World := mkWorld (mkDatabase [] []) [].

(** *** The monad of server methods

    A method reads and writes the store and may raise; what was written
    before an exception stays written. *)
Definition M (A : Type) : Type := World -> result A * World.

Definition ret {A} (a : A) : M A := fun w => (Ok a, w).

Definition bind {A B} (m : M A) (k : A -> M B) : M B :=
  fun w => match m w with
           | (Ok a, w') => k a w'
           | (Raise e, w') => (Raise e, w')
           end.

Definition raise {A} (e : exn) : M A := fun w => (Raise e, w).

Definition lift {A} (r : result A) : M A := fun w => (r, w).

Notation "x <- m ;; k" := (bind m (fun x => k))
  (at level 61, m at next level, right associativity).
Notation "m ;; k" := (bind m (fun _ => k))
  (at level 61, right associativity).

(** [if cond: raise e]. *)
Definition raise_if (cond : bool) (e : exn) : M unit :=
  if cond then raise e else ret tt.

(** [if cond: body]. *)
Definition when (cond : bool) (body : M unit) : M unit :=
  if cond then body else ret tt.

(** [for x in l: body(x)]; an exception leaves the loop. *)
Fixpoint for_each {A} (l : list A) (body : A -> M unit) : M unit :=
  match l with
  | [] => ret tt
  | x :: rest => body x ;; for_each rest body
  end.

Definition emit (e : Event) : M unit :=
  fun w => (Ok tt, mkWorld (db w) (trace w ++ [e])).

Definition modify_db (f : Database -> Database) : M unit :=
  fun w => (Ok tt, mkWorld (f (db w)) (trace w)).

Definition read_db {A} (f : Database -> A) : M A :=
  fun w => (Ok (f (db w)), w).

(** *** The operations of the two tables *)

Section Store.
Context {L : BitcoinLib}.

(** Modelled from the spec: [Channel.lookup(deposit_txid)] of [.models],
    which is not among the sources; the row with that primary key, if
    any.  The [Channel] object returned is a copy of the row as stored at
    the time of the lookup. *)
Definition lookup_channel (deposit_txid : string) (rows : list Channel.t) : option Channel.t :=
  find (fun c => String.eqb (Channel.deposit_txid c) deposit_txid) rows.

Definition pc_lookup (deposit_txid : string) : M (option Channel.t) :=
  read_db (fun d => lookup_channel deposit_txid (pc d)).

(** Modelled from the spec: [Channel.lookup()] without argument, all
    channels. *)
Definition pc_lookup_all : M (list Channel.t) :=
  read_db (fun d => pc d).

(** Modelled from the spec: [Channel.create(deposit_tx, merchant_pubkey,
    amount, expires_at)]; it fails if the deposit_txid is already present,
    and otherwise stores a channel in state CONFIRMING with no payment and
    a last payment amount of 0. *)
Definition pc_create (deposit_tx : Transaction) (merchant_pubkey : string)
    (amount expires_at : Z) : M unit :=
  let deposit_txid := Transaction_hash deposit_tx in
  existing <- pc_lookup deposit_txid ;;
  match existing with
  | Some _ => raise (Exception "UNIQUE constraint failed: payment_channel.deposit_txid")
  | None =>
      modify_db (fun d =>
        mkDatabase
          (pc d ++ [Channel.mk deposit_txid CONFIRMING deposit_tx None
                               merchant_pubkey expires_at amount 0])
          (pmt d)) ;;
      emit (ev_pc_create deposit_txid)
  end.

(** Modelled from the spec: the rewriting of the row with a given key,
    shared by [update_state] and [update_payment]. *)
Definition update_rows (deposit_txid : string) (f : Channel.t -> Channel.t)
    (rows : list Channel.t) : list Channel.t :=
  map (fun c => if String.eqb (Channel.deposit_txid c) deposit_txid then f c else c) rows.

(** Modelled from the spec: [Channel.update_state(deposit_txid,
    new_state)]; the stored row is rewritten, addressed by its key. *)
Definition pc_update_state (deposit_txid : string) (new_state : ChannelState) : M unit :=
  modify_db (fun d =>
    mkDatabase (update_rows deposit_txid (Channel.set_state new_state) (pc d)) (pmt d)) ;;
  emit (ev_pc_update_state deposit_txid new_state).

(** Modelled from the spec: [Channel.update_payment(deposit_txid,
    payment_tx, last_payment_amount)]. *)
Definition pc_update_payment (deposit_txid : string) (payment_tx : Transaction)
    (last_payment_amount : Z) : M unit :=
  modify_db (fun d =>
    mkDatabase (update_rows deposit_txid (Channel.set_payment payment_tx last_payment_amount) (pc d))
               (pmt d)) ;;
  emit (ev_pc_update_payment deposit_txid payment_tx last_payment_amount).

(** Modelled from the spec: [Payment.create(deposit_txid, payment_tx,
    delta_amount)]; one more row, not yet redeemed, whose key is the hash of
    the payment transaction. *)
Definition pmt_create (deposit_txid : string) (payment_tx : Transaction) (amount : Z) : M unit :=
  modify_db (fun d =>
    mkDatabase (pc d)
               (pmt d ++ [Payment.mk (Transaction_hash payment_tx) deposit_txid
                                     payment_tx amount false])) ;;
  emit (ev_pmt_create deposit_txid payment_tx amount).

(** Modelled from the spec: [Payment.lookup(payment_txid)]. *)
Definition lookup_payment (payment_txid : string) (rows : list Payment.t) : option Payment.t :=
  find (fun p => String.eqb (Payment.payment_txid p) payment_txid) rows.

Definition pmt_lookup (payment_txid : string) : M (option Payment.t) :=
  read_db (fun d => lookup_payment payment_txid (pmt d)).

(** Modelled from the spec: the flip of [redeemed] on the row that
    [lookup_payment] finds. *)
Fixpoint mark_redeemed (payment_txid : string) (rows : list Payment.t) : list Payment.t :=
  match rows with
  | [] => []
  | p :: rest =>
      if String.eqb (Payment.payment_txid p) payment_txid
      then Payment.set_redeemed p :: rest
      else p :: mark_redeemed payment_txid rest
  end.

(** Modelled from the spec: [Payment.redeem(payment_txid)], the atomic
    test-and-set; true iff this call flipped [redeemed] from false to true,
    false if the payment is already redeemed or missing. *)
Definition pmt_redeem (payment_txid : string) : M bool :=
  found <- pmt_lookup payment_txid ;;
  match found with
  | None => ret false
  | Some p =>
      if Payment.redeemed p then ret false
      else
        modify_db (fun d => mkDatabase (pc d) (mark_redeemed payment_txid (pmt d))) ;;
        emit (ev_pmt_redeem payment_txid) ;;
        ret true
  end.

End Store.

(* ===================================================================== *)
(** ** The payment server                                                 *)
(* ===================================================================== *)

Section PaymentServer.
Context {L : BitcoinLib} {Wl : Wallet} {C : Config}.

(** Modelled from the spec: [Transaction.output_index_for_address] of
    [two1.bitcoin], which is not among the sources; the output is located by
    address, the first one whose script pays the given hash160. *)
Fixpoint output_index_from (outs : list TransactionOutput) (address : bytes) (i : nat)
    : option nat :=
  match outs with
  | [] => None
  | o :: rest =>
      if Script_pays_to (out_script o) address then Some i
      else output_index_from rest address (S i)
  end.

Definition output_index_for_address (tx : Transaction) (address : bytes) : option nat :=
  output_index_from (outputs tx) address 0.

(** Modelled from the spec: [Script.validate_template] of [two1.bitcoin],
    which is not among the sources; the script is matched against the
    template literally and positionally. *)
Definition template_item_matches (t : TemplateItem) (item : ScriptItem) : bool :=
  match t, item with
  | T_bytes, Bytes _ => true
  | T_op name, Str s => String.eqb s name
  | _, _ => false
  end.

Fixpoint Script_validate_template (script : Script) (template : list TemplateItem) : bool :=
  match script, template with
  | [], [] => true
  | item :: script', t :: template' =>
      template_item_matches t item && Script_validate_template script' template'
  | _, _ => false
  end.

(** Truth value of an object that is [None] or not. *)
Definition truthy {A} (o : option A) : bool :=
  match o with Some _ => true | None => false end.

(** Truth value of a [str] or [None]: the empty string is false. *)
Definition truthy_str (o : option string) : bool :=
  match o with
  | Some s => negb (String.eqb s "")
  | None => false
  end.

(** [PaymentServer.identify]. *)
Definition identify : string * Z * bool :=
  let public_key := compressed_bytes get_payout_public_key in
  (codecs_encode_hex public_key, PROTOCOL_VERSION, zeroconf).

(** [PaymentServer.open]. *)
Definition open (E : Env) (deposit_tx redeem_script : string) : M string :=
  (* Parse payment channel `open` parameters *)
  deposit_tx <- lift (Transaction_from_hex deposit_tx) ;;
  redeem_script <- lift (codecs_decode_hex redeem_script) ;;
  redeem_script <- lift (RedeemScript_from_bytes (Bytes redeem_script)) ;;
  (* Verify that the deposit pays to the redeem script *)
  match output_index_for_address deposit_tx (RedeemScript_hash160 redeem_script) with
  | None => raise (BadTransactionError "Deposit does not pay to the provided script hash.")
  | Some output_index =>
      (* Parse payment channel data for open *)
      let deposit_txid := Transaction_hash deposit_tx in
      let merchant_public_key :=
        codecs_encode_hex
          (compressed_bytes (PaymentChannelRedeemScript.merchant_public_key redeem_script)) in
      output <- lift (getitem (outputs deposit_tx) output_index) ;;
      let amount := value output in
      (* Verify that one of the public keys belongs to the merchant *)
      let valid_merchant_public_key :=
        validate_public_key (PaymentChannelRedeemScript.merchant_public_key redeem_script) in
      raise_if (negb valid_merchant_public_key)
        (BadTransactionError "Public key does not belong to the merchant.") ;;
      (* Verify that the deposit is not already part of a payment channel *)
      existing <- pc_lookup deposit_txid ;;
      raise_if (truthy existing)
        (BadTransactionError "That deposit has already been used to create a channel.") ;;
      (* Verify that the lock time is an allowable amount in the future *)
      let minimum_locktime := int_of_float (time_time E) + MIN_EXP_TIME - 1 in
      raise_if (PaymentChannelRedeemScript.expiration_time redeem_script <? minimum_locktime)
        (TransactionVerificationError "Transaction locktime must be further in the future.") ;;
      (* Open and save the payment channel *)
      pc_create deposit_tx merchant_public_key amount
                (PaymentChannelRedeemScript.expiration_time redeem_script) ;;
      (* Set the channel to `ready` if zeroconf is enabled *)
      when zeroconf (pc_update_state deposit_txid READY) ;;
      ret (Transaction_hash deposit_tx)
  end.

(** The loop of [receive_payment] over [enumerate(payment_tx.outputs)]:
    the first output below the dust limit raises, with a message that tells
    the merchant output (at [index]) from the other one. *)
Fixpoint check_dust_limit (outs : list TransactionOutput) (output_index index : nat)
    : result unit :=
  match outs with
  | [] => Ok tt
  | output :: rest =>
      if value output <? DUST_LIMIT then
        (* Payment to merchant is less than dust limit *)
        if Nat.eqb output_index index then
          Raise (BadTransactionError
                   ("Initial payment must be greater than " ++ str_of_int DUST_LIMIT ++ "."))
        (* Payment to customer is less than dust limit *)
        else
          Raise (BadTransactionError
                   "Payment channel balance is not large enough to make payment.")
      else check_dust_limit rest (S output_index) index
  end.

(** [sum([d.value for d in outs])]. *)
Definition sum_values (outs : list TransactionOutput) : Z :=
  fold_left Z.add (map value outs) 0.

(** [payment_tx_copy.inputs[0].script = signed_input_script]. *)
Definition set_input0_script (tx : Transaction) (s : Script) : result Transaction :=
  match inputs tx with
  | [] => Raise (IndexError "list index out of range")
  | i0 :: rest =>
      Ok (mkTransaction (version tx)
            (mkTransactionInput (outpoint i0) (outpoint_index i0) s (sequence_num i0) :: rest)
            (outputs tx) (lock_time tx))
  end.

(** The first part of [receive_payment] ("Get merchant public key
    information" to "Verify the script template"): the checks on the script
    of input 0; they read the channel row and touch nothing.  The result is
    the merchant key, the redeem script and the customer's signature. *)
Definition check_payment_script (channel : Channel.t) (payment_tx : Transaction)
    : result (PublicKey * PaymentChannelRedeemScript.t * Signature) :=
  (* Get merchant public key information from payment channel *)
  merchant_public_key <-- PublicKey_from_hex (Channel.merchant_pubkey channel) ;;
  (* Verify that redeem script contains the merchant public key *)
  input0 <-- getitem (inputs payment_tx) 0 ;;
  script_last <-- getitem_last (script input0) ;;
  redeem_script <-- RedeemScript_from_bytes script_last ;;
  if negb (String.eqb
             (PublicKey_to_hex (PaymentChannelRedeemScript.merchant_public_key redeem_script))
             (PublicKey_to_hex merchant_public_key))
  then Raise (BadTransactionError "Invalid merchant pubkey.")
  else
  (* Verify that the payment has a valid signature from the customer *)
  let txn_copy := Transaction_copy_for_sig payment_tx 0 SIG_HASH_ALL redeem_script in
  let msg_to_sign := Hash_dhash (Transaction_bytes txn_copy ++ pack_u32 SIG_HASH_ALL)%list in
  script_first <-- getitem (script input0) 0 ;;
  sig <-- Signature_from_der (slice_but_last script_first) ;;
  if negb (PublicKey_verify (PaymentChannelRedeemScript.customer_public_key redeem_script)
                            msg_to_sign sig false)
  then Raise (BadTransactionError "Invalid payment signature.")
  else
  (* Verify the length of the script is what we expect *)
  if negb (Nat.eqb (List.length (script input0)) 3)
  then Raise (BadTransactionError "Invalid payment channel transaction structure.")
  else
  (* Verify the script template is valid for accepting a merchant signature *)
  if negb (Script_validate_template (script input0) [T_bytes; T_op "OP_1"; T_bytes])
     && negb (Script_validate_template (script input0) [T_bytes; T_op "OP_TRUE"; T_bytes])
  then Raise (BadTransactionError "Invalid payment channel transaction structure.")
  else Ok (merchant_public_key, redeem_script, sig).

(** The part of [receive_payment] between the state check and the writes
    ("Verify that payment is made to the merchant public key" to the
    comparison with the recreated payment): the checks on the outputs.  The
    result is the recreated payment transaction and the new merchant
    amount. *)
Definition check_payment_outputs (channel : Channel.t) (payment_tx : Transaction)
    (merchant_public_key : PublicKey) (redeem_script : PaymentChannelRedeemScript.t)
    (sig : Signature) : result (Transaction * Z) :=
  (* Verify that payment is made to the merchant public key *)
  match output_index_for_address payment_tx (PublicKey_hash160 merchant_public_key) with
  | None => Raise (BadTransactionError "Payment must pay to merchant pubkey.")
  | Some index =>
      (* Verify that both payments are not below the dust limit *)
      _ <-- check_dust_limit (outputs payment_tx) 0 index ;;
      (* Validate that the payment is more than the last one *)
      output <-- getitem (outputs payment_tx) index ;;
      let new_pmt_amt := value output in
      if new_pmt_amt <=? Channel.last_payment_amount channel
      then Raise (BadTransactionError "Payment must be greater than 0.")
      else
      (* Verify that the transaction has adequate fees *)
      let net_pmt_amount := sum_values (outputs payment_tx) in
      let deposit_amount := Channel.amount channel in
      let fee := deposit_amount - net_pmt_amount in
      if fee <? MIN_TX_FEE
      then Raise (BadTransactionError "Payment must have adequate fees.")
      else
      (* Recreate redeem script from merchant side *)
      let redeem_script_copy :=
        PaymentChannelRedeemScript.mk merchant_public_key
          (PaymentChannelRedeemScript.customer_public_key redeem_script)
          (Channel.expires_at channel) in
      if negb (String.eqb (RedeemScript_to_hex redeem_script)
                          (RedeemScript_to_hex redeem_script_copy))
      then Raise (BadTransactionError "Invalid redeem script.")
      else
      (* Recreate customer payment from merchant side *)
      payment_tx_copy <-- create_unsigned_payment_tx
                            (Channel.deposit_tx channel) redeem_script new_pmt_amt fee ;;
      (* Recreate signed input script using signature from customer *)
      let hash_type := pack_compact_int SIG_HASH_ALL in
      let signed_input_script :=
        [Bytes (Signature_to_der sig ++ hash_type)%list; Str "OP_1";
         Bytes (RedeemScript_bytes redeem_script)] in
      payment_tx_copy <-- set_input0_script payment_tx_copy signed_input_script ;;
      if negb (String.eqb (Transaction_to_hex payment_tx)
                          (Transaction_to_hex payment_tx_copy))
      then Raise (BadTransactionError "Invalid payment channel transaction structure.")
      else Ok (payment_tx_copy, new_pmt_amt)
  end.

(** The state check in the middle of [receive_payment] ("Verify that the
    payment channel is ready"): a CONFIRMING channel whose deposit is now
    confirmed is written READY in the store, then and there. *)
Definition check_channel_ready (E : Env) (channel : Channel.t) : M unit :=
  match Channel.state channel with
  | CONFIRMING =>
      confirmed <- lift (check_confirmed E (Channel.deposit_txid channel)) ;;
      if confirmed : bool
      then pc_update_state (Channel.deposit_txid channel) READY
      else raise (ChannelClosedError "Payment channel not ready.")
  | CLOSED => raise (ChannelClosedError "Payment channel closed.")
  | READY => ret tt
  end.

(** [PaymentServer.receive_payment]: the body of the method, in the order
    of the source. *)
Definition receive_payment (E : Env) (deposit_txid payment_tx : string) : M string :=
  (* Parse payment channel `payment` parameters *)
  payment_tx <- lift (Transaction_from_hex payment_tx) ;;
  (* Get channel and addresses related to the deposit *)
  channel <- pc_lookup deposit_txid ;;
  match channel with
  | None => raise (PaymentChannelNotFoundError "Related channel not found.")
  | Some channel =>
      checked <- lift (check_payment_script channel payment_tx) ;;
      let '(merchant_public_key, redeem_script, sig) := checked in
      (* Verify that the payment channel is ready *)
      check_channel_ready E channel ;;
      checked <- lift (check_payment_outputs channel payment_tx
                                              merchant_public_key redeem_script sig) ;;
      let '(payment_tx_copy, new_pmt_amt) := checked in
      (* Update the current payment transaction *)
      pc_update_payment deposit_txid payment_tx_copy new_pmt_amt ;;
      pmt_create deposit_txid payment_tx_copy
                 (new_pmt_amt - Channel.last_payment_amount channel) ;;
      ret (Transaction_hash payment_tx_copy)
  end.

(** [PaymentServer.status]: the state, the balance and the expiry. *)
Definition status (deposit_txid : string) : M (ChannelState * Z * Z) :=
  channel <- pc_lookup deposit_txid ;;
  match channel with
  | None => raise (PaymentChannelNotFoundError "Related channel not found.")
  | Some channel =>
      ret (Channel.state channel, Channel.last_payment_amount channel,
           Channel.expires_at channel)
  end.

(** The redeem script carried by a stored payment transaction:
    [PaymentChannelRedeemScript.from_bytes(payment_tx.inputs[0].script[-1])]. *)
Definition redeem_script_of (payment_tx : Transaction) : result PaymentChannelRedeemScript.t :=
  input0 <-- getitem (inputs payment_tx) 0 ;;
  script_last <-- getitem_last (script input0) ;;
  RedeemScript_from_bytes script_last.

(** [PaymentServer.close]. *)
Definition close (E : Env) (deposit_txid deposit_txid_signature : string) : M string :=
  channel <- pc_lookup deposit_txid ;;
  (* Verify that the requested channel exists *)
  match channel with
  | None => raise (PaymentChannelNotFoundError "Related channel not found.")
  | Some channel =>
      (* Parse payment channel `close` parameters *)
      deposit_txid_signature <-
        lift (try_except_TypeError
                (signature_der <-- codecs_decode_hex deposit_txid_signature ;;
                 Signature_from_der (Bytes signature_der))
                (TransactionVerificationError "Invalid signature provided.")) ;;
      (* Verify that there is a valid payment to close *)
      match Channel.payment_tx channel with
      | None => raise (BadTransactionError "No payments made in channel.")
      | Some payment_tx =>
          (* Verify that the user is authorized to close the channel *)
          redeem_script <- lift (redeem_script_of payment_tx) ;;
          let sig_valid :=
            PublicKey_verify (PaymentChannelRedeemScript.customer_public_key redeem_script)
                             (str_encode deposit_txid) deposit_txid_signature true in
          raise_if (negb sig_valid) (TransactionVerificationError "Invalid signature.") ;;
          (* Sign the final transaction *)
          payment_tx <- lift (sign_half_signed_payment payment_tx redeem_script) ;;
          emit (ev_sign_half_signed_payment payment_tx) ;;
          (* Broadcast payment transaction to the blockchain *)
          lift (broadcast_tx E (Transaction_to_hex payment_tx)) ;;
          emit (ev_broadcast_tx (Transaction_to_hex payment_tx)) ;;
          (* Record the broadcast in the database *)
          pc_update_state deposit_txid CLOSED ;;
          ret (Transaction_hash payment_tx)
      end
  end.

(** [PaymentServer.redeem]. *)
Definition redeem (payment_txid : string) : M Z :=
  (* Verify that we have this payment transaction saved *)
  payment <- pmt_lookup payment_txid ;;
  match payment with
  | None => raise (PaymentChannelNotFoundError "Payment not found.")
  | Some payment =>
      (* Verify that this payment exists within a channel *)
      channel <- pc_lookup (Payment.deposit_txid payment) ;;
      match channel with
      | None => raise (PaymentChannelNotFoundError "Channel not found.")
      | Some channel =>
          (* Verify that the payment channel is ready *)
          match Channel.state channel with
          | CONFIRMING => raise (ChannelClosedError "Payment channel not ready.")
          | CLOSED => raise (ChannelClosedError "Payment channel closed.")
          | READY => ret tt
          end ;;
          (* Calculate and redeem the current payment *)
          redeem_success <- pmt_redeem payment_txid ;;
          (* Verify that the payment has not already been redeemed *)
          raise_if (negb redeem_success) (RedeemPaymentError "Payment already redeemed.") ;;
          ret (Payment.amount payment)
      end
  end.

(** The body of the loop of [PaymentServer.sync] for one channel [pc], the
    row as it was read by [lookup()] at the start of the pass. *)
Definition sync_channel (E : Env) (pc : Channel.t) : M unit :=
  (* Skip sync if channel is closed *)
  if ChannelState_eqb (Channel.state pc) CLOSED then ret tt
  else
    (* Check for deposit confirmation *)
    (if ChannelState_eqb (Channel.state pc) CONFIRMING then
       confirmed <- lift (check_confirmed E (Channel.deposit_txid pc)) ;;
       when confirmed (pc_update_state (Channel.deposit_txid pc) READY)
     else ret tt) ;;
    (* Check if channel got closed *)
    (if ChannelState_eqb (Channel.state pc) CONFIRMING
        || ChannelState_eqb (Channel.state pc) READY
     then
       match Channel.payment_tx pc with
       | Some payment_tx =>
           redeem_script <- lift (redeem_script_of payment_tx) ;;
           let deposit_tx_utxo_index :=
             output_index_for_address (Channel.deposit_tx pc)
                                      (RedeemScript_hash160 redeem_script) in
           spend_txid <- lift (lookup_spend_txid E (Channel.deposit_txid pc)
                                                 deposit_tx_utxo_index) ;;
           when (truthy_str spend_txid) (pc_update_state (Channel.deposit_txid pc) CLOSED)
       | None => ret tt
       end
     else ret tt) ;;
    (* Check for channel expiration *)
    (if negb (ChannelState_eqb (Channel.state pc) CLOSED) then
       if float_gt (Qplus (time_time E) (inject_Z EXP_TIME_BUFFER))
                   (inject_Z (Channel.expires_at pc))
       then
         match Channel.payment_tx pc with
         | Some payment_tx =>
             redeem_script <- lift (redeem_script_of payment_tx) ;;
             payment_tx <- lift (sign_half_signed_payment payment_tx redeem_script) ;;
             emit (ev_sign_half_signed_payment payment_tx) ;;
             lift (broadcast_tx E (Transaction_to_hex payment_tx)) ;;
             emit (ev_broadcast_tx (Transaction_to_hex payment_tx)) ;;
             pc_update_payment (Channel.deposit_txid pc) payment_tx
                               (Channel.last_payment_amount pc) ;;
             pc_update_state (Channel.deposit_txid pc) CLOSED
         | None => ret tt
         end
       else ret tt
     else ret tt).

(** [PaymentServer.sync]: the rows are read once, by [lookup()], and the
    loop runs over that list (a single [Channel] is wrapped in a list, an
    empty result returns at once). *)
Definition sync (E : Env) : M unit :=
  (* Look up all channels *)
  payment_channels <- pc_lookup_all ;;
  for_each payment_channels (sync_channel E).

(** *** Calls and executions of the server *)

Inductive Call : Type :=
| call_open (deposit_tx redeem_script : string)
| call_receive_payment (deposit_txid payment_tx : string)
| call_status (deposit_txid : string)
| call_close (deposit_txid deposit_txid_signature : string)
| call_redeem (payment_txid : string)
| call_sync.

Inductive Value : Type :=
| v_str (s : string)
| v_int (n : Z)
| v_status (st : ChannelState) (balance time_left : Z)
| v_none.

Definition map_result {A B} (f : A -> B) (r : result A * World) : result B * World :=
  match r with
  | (Ok a, w) => (Ok (f a), w)
  | (Raise e, w) => (Raise e, w)
  end.

(** One call of a server method, under the lock, with the answers [E] of
    the outside world during the call. *)
Definition exec (E : Env) (c : Call) (w : World) : result Value * World :=
  match c with
  | call_open deposit_tx redeem_script =>
      map_result v_str (open E deposit_tx redeem_script w)
  | call_receive_payment deposit_txid payment_tx =>
      map_result v_str (receive_payment E deposit_txid payment_tx w)
  | call_status deposit_txid =>
      map_result (fun r => match r with (st, b, t) => v_status st b t end)
                 (status deposit_txid w)
  | call_close deposit_txid deposit_txid_signature =>
      map_result v_str (close E deposit_txid deposit_txid_signature w)
  | call_redeem payment_txid =>
      map_result v_int (redeem payment_txid w)
  | call_sync =>
      map_result (fun _ => v_none) (sync E w)
  end.

(** The worlds a server reaches from the empty store by any calls. *)
Inductive reachable : World -> Prop :=
| reachable_init : reachable initial_world
| reachable_exec : forall w E c, reachable w -> reachable (snd (exec E c w)).

(** A run of calls, each with its environment: the outcomes in order and
    the final world. *)
Fixpoint run (calls : list (Env * Call)) (w : World) : list (result Value) * World :=
  match calls with
  | [] => ([], w)
  | (E, c) :: rest =>
      let (r, w') := exec E c w in
      let (rs, w'') := run rest w' in
      (r :: rs, w'')
  end.

End PaymentServer.

(* ===================================================================== *)
(** ** Notions used to state the properties                               *)
(* ===================================================================== *)

(** The sum of the amounts of the payment rows of one channel. *)
Fixpoint payments_total (deposit_txid : string) (rows : list Payment.t) : Z :=
  match rows with
  | [] => 0
  | p :: rest =>
      (if String.eqb (Payment.deposit_txid p) deposit_txid then Payment.amount p else 0)
      + payments_total deposit_txid rest
  end.

(** What a channel row records about payments. *)
Definition payment_record (c : Channel.t) : string * option Transaction * Z :=
  (Channel.deposit_txid c, Channel.payment_tx c, Channel.last_payment_amount c).

(** The primary key of the channel table: no two rows with one
    deposit_txid. *)
Definition unique_keys (rows : list Channel.t) : Prop :=
  NoDup (map Channel.deposit_txid rows).

(** The position of the first output below the dust limit, if any. *)
Fixpoint first_below_dust (outs : list TransactionOutput) (i : nat) : option nat :=
  match outs with
  | [] => None
  | o :: rest => if value o <? DUST_LIMIT then Some i else first_below_dust rest (S i)
  end.

(** The two messages of the dust check. *)
Definition dust_message_merchant : string :=
  "Initial payment must be greater than 3000.".
Definition dust_message_customer : string :=
  "Payment channel balance is not large enough to make payment.".

(** The state check of [receive_payment] lets the call through: the channel
    is READY, or CONFIRMING with a deposit that the blockchain confirms. *)
Definition passes_ready_check (E : Env) (c : Channel.t) : Prop :=
  Channel.state c = READY \/
  (Channel.state c = CONFIRMING /\ check_confirmed E (Channel.deposit_txid c) = Ok true).


(** One row of the channel table before and after a call that is not an
    accepted payment: the key and the balance stay, the state does not go
    back. *)
Definition channel_advances (c c' : Channel.t) : Prop :=
  Channel.deposit_txid c' = Channel.deposit_txid c /\
  (state_rank (Channel.state c) <= state_rank (Channel.state c'))%nat /\
  Channel.last_payment_amount c' = Channel.last_payment_amount c.

(** The balance that the store records for a deposit_txid: the last
    payment amount of its channel, 0 without a channel. *)
Definition balance_of (deposit_txid : string) (rows : list Channel.t) : Z :=
  match lookup_channel deposit_txid rows with
  | Some c => Channel.last_payment_amount c
  | None => 0
  end.

(** The world after the write [update_state(deposit_txid, READY)]. *)
Definition promoted (deposit_txid : string) (w : World) : World :=
  mkWorld (mkDatabase (update_rows deposit_txid (Channel.set_state READY) (pc (db w)))
                      (pmt (db w)))
          (trace w ++ [ev_pc_update_state deposit_txid READY]).

(** The world after the write [update_state(deposit_txid, CLOSED)]. *)
Definition closed (deposit_txid : string) (w : World) : World :=
  mkWorld (mkDatabase (update_rows deposit_txid (Channel.set_state CLOSED) (pc (db w)))
                      (pmt (db w)))
          (trace w ++ [ev_pc_update_state deposit_txid CLOSED]).

(** The state of a row does not go back; the key stays. *)
Definition state_advances (c c' : Channel.t) : Prop :=
  Channel.deposit_txid c' = Channel.deposit_txid c /\
  (state_rank (Channel.state c) <= state_rank (Channel.state c'))%nat.

(** What the writes of [sync] for the channel read as [snap] do to a row
    of that key: the key stays; the state stays or is one that [snap] may
    go to; the last payment amount stays or is the one read in [snap]. *)
Definition tame (snap : Channel.t) (g : Channel.t -> Channel.t) : Prop :=
  forall c,
    Channel.deposit_txid (g c) = Channel.deposit_txid c /\
    (Channel.state (g c) = Channel.state c \/
     (state_rank (Channel.state snap) <= state_rank (Channel.state (g c)))%nat) /\
    (Channel.last_payment_amount (g c) = Channel.last_payment_amount c \/
     Channel.last_payment_amount (g c) = Channel.last_payment_amount snap).

(** A world after writes that only rewrite the rows of the key of [snap],
    tamely. *)
Definition sync_effect (snap : Channel.t) (w w' : World) : Prop :=
  exists g, tame snap g /\
            pmt (db w') = pmt (db w) /\
            pc (db w') = update_rows (Channel.deposit_txid snap) g (pc (db w)).

(** A computation all of whose outcomes are such worlds. *)
Definition sync_effectM {A} (snap : Channel.t) (m : M A) : Prop :=
  forall w r w', m w = (r, w') -> sync_effect snap w w'.


(** The sum invariant: for every deposit_txid, the amounts of its payment
    rows add up to the balance of its channel. *)
Definition sum_invariant (w : World) : Prop :=
  forall d, payments_total d (pmt (db w)) = balance_of d (pc (db w)).

Section Parsing.
Context {L : BitcoinLib}.



(** The world after the two writes that end an accepted payment. *)
Definition with_payment (deposit_txid : string) (payment_tx : Transaction)
    (new_pmt_amt delta : Z) (w : World) : World :=
  mkWorld
    (mkDatabase
       (update_rows deposit_txid (Channel.set_payment payment_tx new_pmt_amt) (pc (db w)))
       (pmt (db w) ++ [Payment.mk (Transaction_hash payment_tx) deposit_txid payment_tx
                                  delta false]))
    ((trace w ++ [ev_pc_update_payment deposit_txid payment_tx new_pmt_amt])
       ++ [ev_pmt_create deposit_txid payment_tx delta]).

End Parsing.

(* ===================================================================== *)
(** ** A small instance of the interfaces, for concrete runs              *)
(* ===================================================================== *)

(** Keys are one byte long, a redeem script is the two keys followed by
    the expiry on four bytes, a signature names the key that made it, and
    hash160 is the identity. *)
Module Toy.

Definition merchant_key : PublicKey := mkPublicKey [Byte.x01].
Definition customer_key : PublicKey := mkPublicKey [Byte.x02].

Definition pack_be32 (n : Z) : bytes :=
  map (fun k => byte_of_N (Z.to_N ((n / 2 ^ k) mod 256))) [24; 16; 8; 0].

Definition unpack_be (b : bytes) : Z :=
  fold_left (fun acc x => acc * 256 + Z.of_N (Byte.to_N x)) b 0.

Definition redeem_script_bytes (rs : PaymentChannelRedeemScript.t) : bytes :=
  (compressed_bytes (PaymentChannelRedeemScript.merchant_public_key rs)
   ++ compressed_bytes (PaymentChannelRedeemScript.customer_public_key rs)
   ++ pack_be32 (PaymentChannelRedeemScript.expiration_time rs))%list.

Definition redeem_script_from_bytes (item : ScriptItem)
    : result PaymentChannelRedeemScript.t :=
  match item with
  | Bytes [m; c; e3; e2; e1; e0] =>
      Ok (PaymentChannelRedeemScript.mk (mkPublicKey [m]) (mkPublicKey [c])
                                        (unpack_be [e3; e2; e1; e0]))
  | _ => Raise (ValueError "Invalid redeem script.")
  end.

Definition signature_from_der (item : ScriptItem) : result Signature :=
  match item with
  | Bytes [r; s] => Ok (mkSignature (Z.of_N (Byte.to_N r)) (Z.of_N (Byte.to_N s)))
  | _ => Raise (ValueError "DER signature string is too short.")
  end.

Definition signature_to_der (sig : Signature) : bytes :=
  [byte_of_N (Z.to_N (sig_r sig)); byte_of_N (Z.to_N (sig_s sig))].

Definition bytes_eqb (a b : bytes) : bool :=
  String.eqb (codecs_encode_hex a) (codecs_encode_hex b).

Definition verify (pk : PublicKey) (msg : bytes) (sig : Signature) (do_hash : bool) : bool :=
  bytes_eqb (compressed_bytes pk) [byte_of_N (Z.to_N (sig_r sig))].

Definition pays_to (s : Script) (address : bytes) : bool :=
  match s with
  | [Bytes b] => bytes_eqb b address
  | _ => false
  end.

Definition item_hex (item : ScriptItem) : string :=
  match item with
  | Bytes b => codecs_encode_hex b
  | Str s => s
  end.

Definition to_hex (tx : Transaction) : string :=
  String.concat ","
    (map (fun i => outpoint i ++ ":" ++ String.concat "." (map item_hex (script i)))
         (inputs tx))
  ++ "/" ++
  String.concat ","
    (map (fun o => str_of_int (value o) ++ ":" ++ String.concat "." (map item_hex (out_script o)))
         (outputs tx)).

(** The toy transaction id: the outpoint spent and the output values. *)
Definition hash (tx : Transaction) : string :=
  String.concat "-"
    (map outpoint (inputs tx) ++ map (fun o => str_of_int (value o)) (outputs tx)).

Definition redeem_script (expiry : Z) : PaymentChannelRedeemScript.t :=
  PaymentChannelRedeemScript.mk merchant_key customer_key expiry.

(** A deposit of 100000 satoshis to the script hash of the redeem script. *)
Definition deposit (funding : string) (expiry : Z) : Transaction :=
  mkTransaction 1 [mkTransactionInput funding 0 [] 4294967295]
    [mkTransactionOutput 100000 [Bytes (redeem_script_bytes (redeem_script expiry))]] 0.

Definition unsigned_payment (deposit_tx : Transaction) (rs : PaymentChannelRedeemScript.t)
    (merchant_amount fee : Z) : Transaction :=
  mkTransaction 1 [mkTransactionInput (hash deposit_tx) 0 [] 4294967295]
    [mkTransactionOutput merchant_amount
       [Bytes (compressed_bytes (PaymentChannelRedeemScript.merchant_public_key rs))];
     mkTransactionOutput (sum_values (outputs deposit_tx) - merchant_amount - fee)
       [Bytes (compressed_bytes (PaymentChannelRedeemScript.customer_public_key rs))]] 0.

(** The payment as the customer sends it: the customer's signature, the
    placeholder and the redeem script in the script of input 0. *)
Definition half_signed_payment (funding : string) (expiry merchant_amount fee : Z)
    : Transaction :=
  let tx := unsigned_payment (deposit funding expiry) (redeem_script expiry)
                             merchant_amount fee in
  mkTransaction (version tx)
    [mkTransactionInput (hash (deposit funding expiry)) 0
       [Bytes [Byte.x02; Byte.x09; Byte.x01]; Str "OP_1";
        Bytes (redeem_script_bytes (redeem_script expiry))] 4294967295]
    (outputs tx) (lock_time tx).

(** A payment whose two outputs both return to the customer. *)
Definition payment_without_merchant_output : Transaction :=
  mkTransaction 1
    [mkTransactionInput (hash (deposit "f0" 2000000)) 0
       [Bytes [Byte.x02; Byte.x09; Byte.x01]; Str "OP_1";
        Bytes (redeem_script_bytes (redeem_script 2000000))] 4294967295]
    [mkTransactionOutput 5000 [Bytes [Byte.x02]];
     mkTransactionOutput 94000 [Bytes [Byte.x02]]] 0.

(** The merchant's signature replaces the placeholder. *)
Definition sign (tx : Transaction) (rs : PaymentChannelRedeemScript.t) : result Transaction :=
  match inputs tx with
  | i0 :: _ =>
      set_input0_script tx
        (map (fun item => match item with
                          | Str _ => Bytes [Byte.x01; Byte.x07; Byte.x01]
                          | Bytes b => Bytes b
                          end) (script i0))
  | [] => Raise (IndexError "list index out of range")
  end.

(** The serialised transactions that the parser knows, by name. *)
Definition from_hex (s : string) : result Transaction :=
  if String.eqb s "d0" then Ok (deposit "f0" 2000000)
  else if String.eqb s "d1" then Ok (deposit "f1" 1003599)
  else if String.eqb s "d2" then Ok (deposit "f2" 1003598)
  else if String.eqb s "d3" then Ok (deposit "f3" 1003600)
  else if String.eqb s "a1" then Ok (half_signed_payment "f0" 2000000 5000 1000)
  else if String.eqb s "a2" then Ok (half_signed_payment "f0" 2000000 7500 1000)
  else if String.eqb s "a3" then Ok (half_signed_payment "f0" 2000000 2999 1000)
  else if String.eqb s "a4" then Ok (half_signed_payment "f0" 2000000 98000 1000)
  else if String.eqb s "a5" then Ok (half_signed_payment "f0" 2000000 3000 1000)
  else if String.eqb s "a6" then Ok payment_without_merchant_output
  else if String.eqb s "b1" then Ok (half_signed_payment "f1" 1003599 5000 1000)
  else Raise (ValueError "Invalid transaction.").

Definition lib : BitcoinLib := {|
  Transaction_from_hex := from_hex;
  Transaction_to_hex := to_hex;
  Transaction_hash := hash;
  Transaction_bytes := fun tx => str_encode (to_hex tx);
  Transaction_copy_for_sig := fun tx _ _ _ => tx;
  Hash_dhash := fun b => b;
  pack_u32 := pack_be32;
  pack_compact_int := fun n => [byte_of_N (Z.to_N n)];
  PublicKey_from_hex := fun s => b <-- codecs_decode_hex s ;; Ok (mkPublicKey b);
  PublicKey_to_hex := fun pk => codecs_encode_hex (compressed_bytes pk);
  PublicKey_hash160 := compressed_bytes;
  PublicKey_verify := verify;
  Signature_from_der := signature_from_der;
  Signature_to_der := signature_to_der;
  RedeemScript_from_bytes := redeem_script_from_bytes;
  RedeemScript_to_hex := fun rs => codecs_encode_hex (redeem_script_bytes rs);
  RedeemScript_bytes := redeem_script_bytes;
  RedeemScript_hash160 := redeem_script_bytes;
  Script_pays_to := pays_to
|}.

Definition wallet : Wallet := {|
  get_payout_public_key := merchant_key;
  validate_public_key := fun pk => bytes_eqb (compressed_bytes pk) (compressed_bytes merchant_key);
  create_unsigned_payment_tx := fun d rs amt fee => Ok (unsigned_payment d rs amt fee);
  sign_half_signed_payment := sign
|}.

Definition config (zc : bool) : Config := {|
  MIN_TX_FEE := 1000;
  MIN_EXP_TIME := 3600;
  zeroconf := zc
|}.

(** The outside world at time 1000000.5: every deposit is confirmed or
    not according to [confirmed], and the deposit output is spent by
    [spend] or unspent. *)
Definition env (confirmed : bool) (spend : option string) : Env :=
  mkEnv (Qmake 2000001 2) (fun _ => Ok confirmed) (fun _ _ => Ok spend) (fun _ => Ok tt).

Definition exec (zc : bool) (E : Env) (c : Call) (w : World) : result Value * World :=
  @exec lib wallet (config zc) E c w.

(** The methods of the server over this instance. *)
Definition open (zc : bool) : Env -> string -> string -> M string :=
  @open lib wallet (config zc).
Definition receive_payment : Env -> string -> string -> M string :=
  @receive_payment lib wallet (config true).
Definition close : Env -> string -> string -> M string := @close lib wallet.
Definition redeem : string -> M Z := @redeem.
Definition sync : Env -> M unit := @sync lib wallet.

(** The runs used below.  A zeroconf server opens channel [f0-100000] (far
    expiry), accepts 5000 then 7500, and closes it. *)
Definition w_open : World :=
  snd (exec true (env false None) (call_open "d0" "0102001e8480") initial_world).
Definition w_paid1 : World :=
  snd (exec true (env false None) (call_receive_payment "f0-100000" "a1") w_open).
Definition w_paid2 : World :=
  snd (exec true (env false None) (call_receive_payment "f0-100000" "a2") w_paid1).
Definition w_redeemed : World :=
  snd (exec true (env false None) (call_redeem "f0-100000-5000-94000") w_paid2).
Definition w_closed : World :=
  snd (exec true (env false None) (call_close "f0-100000" "0203") w_paid2).

(** A server without zeroconf opens the same channel: it is CONFIRMING. *)
Definition w_confirming : World :=
  snd (exec false (env false None) (call_open "d0" "0102001e8480") initial_world).

(** A zeroconf server opens channel [f1-100000], whose expiry 1003599 is
    within the three days' buffer of the clock, and accepts 5000. *)
Definition w_expiring : World :=
  snd (exec true (env false None) (call_receive_payment "f1-100000" "b1")
         (snd (exec true (env false None) (call_open "d1" "0102000f504f") initial_world))).

(** The row of channel [f0-100000] after [open], and after the first
    payment. *)
Definition row_open : Channel.t :=
  Channel.mk "f0-100000" READY (deposit "f0" 2000000) None "01" 2000000 100000 0.
Definition row_paid1 : Channel.t :=
  Channel.mk "f0-100000" READY (deposit "f0" 2000000)
             (Some (half_signed_payment "f0" 2000000 5000 1000)) "01" 2000000 100000 5000.
Definition row_closed : Channel.t :=
  Channel.mk "f0-100000" CLOSED (deposit "f0" 2000000)
             (Some (half_signed_payment "f0" 2000000 7500 1000)) "01" 2000000 100000 7500.

Definition row_paid2 : Channel.t :=
  Channel.mk "f0-100000" READY (deposit "f0" 2000000)
             (Some (half_signed_payment "f0" 2000000 7500 1000)) "01" 2000000 100000 7500.

(** The row of channel [f1-100000] after its payment, and that payment
    with the merchant's signature. *)
Definition row_expiring : Channel.t :=
  Channel.mk "f1-100000" READY (deposit "f1" 1003599)
             (Some (half_signed_payment "f1" 1003599 5000 1000)) "01" 1003599 100000 5000.
Definition signed_payment_f1 : Transaction :=
  mkTransaction 1
    [mkTransactionInput "f1-100000" 0
       [Bytes [Byte.x02; Byte.x09; Byte.x01]; Bytes [Byte.x01; Byte.x07; Byte.x01];
        Bytes [Byte.x01; Byte.x02; Byte.x00; Byte.x0f; Byte.x50; Byte.x4f]] 4294967295]
    [mkTransactionOutput 5000 [Bytes [Byte.x01]];
     mkTransactionOutput 94000 [Bytes [Byte.x02]]] 0.

(** The first payment of channel [f0-100000], as stored. *)
Definition payment_row1 : Payment.t :=
  Payment.mk "f0-100000-5000-94000" "f0-100000"
             (half_signed_payment "f0" 2000000 5000 1000) 5000 false.

End Toy.

(* ===================================================================== *)
(** ** Further notions and code                                            *)
(* ===================================================================== *)

(** The write of a promotion to READY, the only kind that [sync] makes for
    channels without a payment. *)
Definition is_promotion (e : Event) : bool :=
  match e with
  | ev_pc_update_state _ READY => true
  | _ => false
  end.

(** A payment row before and after a call: nothing of it changes, except
    that it may become redeemed. *)
Definition payment_kept (p p' : Payment.t) : Prop :=
  Payment.payment_txid p' = Payment.payment_txid p /\
  Payment.deposit_txid p' = Payment.deposit_txid p /\
  Payment.payment_tx p' = Payment.payment_tx p /\
  Payment.amount p' = Payment.amount p /\
  (Payment.redeemed p = true -> Payment.redeemed p' = true).

Section FurtherNotions.
Context {L : BitcoinLib} {Wl : Wallet}.

(** The payment rows are keyed by the hash of their transaction, carry a
    positive amount and belong to a stored channel. *)
Definition payments_wf (w : World) : Prop :=
  forall p, In p (pmt (db w)) ->
            Payment.payment_txid p = Transaction_hash (Payment.payment_tx p) /\
            0 < Payment.amount p /\
            lookup_channel (Payment.deposit_txid p) (pc (db w)) <> None.

(** What one turn of the loop of [sync] may do, for the channel read as
    [snap]: the rewriting of the rows of its key and the events, in order.
    READY is written for a channel read as CONFIRMING; CLOSED is written
    for a channel read with a payment, alone (the deposit is spent) or
    after the signing and the broadcast of that payment and the storing of
    the signed transaction; a signing stays alone if the broadcast is
    refused. *)
Inductive sync_writes (snap : Channel.t) : (Channel.t -> Channel.t) -> list Event -> Prop :=
| sw_nothing : sync_writes snap (fun c => c) []
| sw_ready g evs :
    Channel.state snap = CONFIRMING ->
    sync_writes snap g evs ->
    sync_writes snap (fun c => Channel.set_state READY (g c))
                (evs ++ [ev_pc_update_state (Channel.deposit_txid snap) READY])
| sw_closed g evs ptx :
    Channel.payment_tx snap = Some ptx ->
    sync_writes snap g evs ->
    sync_writes snap (fun c => Channel.set_state CLOSED (g c))
                (evs ++ [ev_pc_update_state (Channel.deposit_txid snap) CLOSED])
| sw_signed g evs ptx rs signed :
    Channel.payment_tx snap = Some ptx ->
    sign_half_signed_payment ptx rs = Ok signed ->
    sync_writes snap g evs ->
    sync_writes snap g (evs ++ [ev_sign_half_signed_payment signed])
| sw_expired g evs ptx rs signed :
    Channel.payment_tx snap = Some ptx ->
    sign_half_signed_payment ptx rs = Ok signed ->
    sync_writes snap g evs ->
    sync_writes snap
      (fun c => Channel.set_state CLOSED
                  (Channel.set_payment signed (Channel.last_payment_amount snap) (g c)))
      (evs ++ [ev_sign_half_signed_payment signed;
               ev_broadcast_tx (Transaction_to_hex signed);
               ev_pc_update_payment (Channel.deposit_txid snap) signed
                                    (Channel.last_payment_amount snap);
               ev_pc_update_state (Channel.deposit_txid snap) CLOSED]).

(** A world after one turn of the loop for [snap]. *)
Definition sync_step (snap : Channel.t) (w w' : World) : Prop :=
  exists g evs,
    sync_writes snap g evs /\
    pmt (db w') = pmt (db w) /\
    pc (db w') = update_rows (Channel.deposit_txid snap) g (pc (db w)) /\
    trace w' = (trace w ++ evs)%list.

Definition sync_stepM {A} (snap : Channel.t) (m : M A) : Prop :=
  forall w r w', m w = (r, w') -> sync_step snap w w'.

(** Every broadcast of a list of events comes right after the signing of
    the transaction that it sends; [prev] is the event before the list. *)
Fixpoint broadcasts_signed (prev : option Event) (evs : list Event) : bool :=
  match evs with
  | [] => true
  | e :: rest =>
      match e with
      | ev_broadcast_tx tx_hex =>
          match prev with
          | Some (ev_sign_half_signed_payment tx) =>
              String.eqb tx_hex (Transaction_to_hex tx)
          | _ => false
          end
      | _ => true
      end && broadcasts_signed (Some e) rest
  end.

Context {C : Config}.

(** What holds of each channel row of a store that the server reaches. *)
Definition channel_wf (c : Channel.t) : Prop :=
  Channel.deposit_txid c = Transaction_hash (Channel.deposit_tx c) /\
  (Channel.payment_tx c = None ->
   Channel.last_payment_amount c = 0 /\ Channel.state c <> CLOSED) /\
  (Channel.state c = CONFIRMING -> Channel.payment_tx c = None) /\
  (Channel.payment_tx c <> None ->
   DUST_LIMIT <= Channel.last_payment_amount c <= Channel.amount c - MIN_TX_FEE).

End FurtherNotions.

(** *** The provider chosen by [PaymentServer.__init__] *)

(** [os.environ.get("TWO1_PROVIDER_HOST", "https://blockchain.21.co")],
    for the value of the environment variable, if it is set. *)
Definition provider_host (TWO1_PROVIDER_HOST : option string) : string :=
  match TWO1_PROVIDER_HOST with
  | Some host => host
  | None => "https://blockchain.21.co"
  end.

Definition DEFAULT_TWENTYONE_BLOCKCHAIN_URL (TWO1_PROVIDER_HOST : option string) : string :=
  provider_host TWO1_PROVIDER_HOST ++ "/blockchain/bitcoin".

Definition DEFAULT_TWENTYONE_TESTNET_BLOCKCHAIN_URL (TWO1_PROVIDER_HOST : option string)
    : string :=
  provider_host TWO1_PROVIDER_HOST ++ "/blockchain/testnet3".

(** The blockchain provider that the server ends up with: the one given,
    or [TwentyOneBlockchain(url)]. *)
Inductive Provider (B : Type) : Type :=
| given_blockchain (b : B)
| TwentyOneBlockchain (url : string).
Arguments given_blockchain {B} b.
Arguments TwentyOneBlockchain {B} url.

(** The first lines of [PaymentServer.__init__]: without a blockchain
    argument the provider is built on the default URL, that of the testnet
    if the wallet is a testnet wallet. *)
Definition init_blockchain {B : Type} (TWO1_PROVIDER_HOST : option string)
    (wallet_testnet : bool) (blockchain : option B) : Provider B :=
  match blockchain with
  | None =>
      let url := DEFAULT_TWENTYONE_BLOCKCHAIN_URL TWO1_PROVIDER_HOST in
      let url := if wallet_testnet
                 then DEFAULT_TWENTYONE_TESTNET_BLOCKCHAIN_URL TWO1_PROVIDER_HOST
                 else url in
      TwentyOneBlockchain url
  | Some b => given_blockchain b
  end.

(** *** [ServerRequestError] of [two1.commands.util.exceptions] *)

Module ServerRequestError.

(** A value decoded from JSON (a float is a finite one). *)
#[warnings="-register-all"]
Inductive json : Type :=
| J_None
| J_bool (b : bool)
| J_int (n : Z)
| J_float (x : Q)
| J_str (s : string)
| J_list (l : list json)
| J_dict (d : list (string * json)).

(** [bool(v)]. *)
Definition truth (v : json) : bool :=
  match v with
  | J_None => false
  | J_bool b => b
  | J_int n => negb (n =? 0)
  | J_float x => negb (Qeq_bool x 0)
  | J_str s => negb (String.eqb s "")
  | J_list l => match l with [] => false | _ => true end
  | J_dict d => match d with [] => false | _ => true end
  end.

Definition is_dict (v : json) : bool :=
  match v with J_dict _ => true | _ => false end.

(** [d.get(key)] on a dict: the value under the key, or [None]. *)
Fixpoint dict_get (d : list (string * json)) (key : string) : json :=
  match d with
  | [] => J_None
  | (k, v) :: rest => if String.eqb k key then v else dict_get rest key
  end.

(** How the construction of the exception ends: the object is built, or
    an [AttributeError] is raised (a value without [get]), or [json()]
    raised something that is not a [ValueError]. *)
Inductive outcome (A : Type) : Type :=
| Built (a : A)
| AttributeError_raised
| Raised (e : exn).
Arguments Built {A} a.
Arguments AttributeError_raised {A}.
Arguments Raised {A} e.

(** [v.get(key)]: any value but a dict has no attribute [get]. *)
Definition get (v : json) (key : string) : outcome json :=
  match v with
  | J_dict d => Built (dict_get d key)
  | _ => AttributeError_raised
  end.

(** A response: its status code and what [response.json()] does. *)
Record Response : Type := mkResponse {
  response_status_code : Z;
  response_json : result json
}.

(** The attributes of the exception object; [json_attr] is the attribute
    [json] that [Two1Error.__init__] sets. *)
Record t : Type := mk {
  response : Response;
  status_code : Z;
  data : json;
  json_attr : json;
  message : json
}.

(** [a or b], where [b] is evaluated only if [a] is false. *)
Definition py_or (a : outcome json) (b : outcome json) : outcome json :=
  match a with
  | Built v => if truth v then Built v else b
  | AttributeError_raised => AttributeError_raised
  | Raised e => Raised e
  end.

(** [ServerRequestError.__init__(response, message='')], down to
    [Two1Error.__init__(message)], which is called without [json] and so
    sets the attribute [json] to the empty dict. *)
Definition init (response : Response) (message : string) : outcome t :=
  let status_code := response_status_code response in
  let data :=
    match response_json response with
    | Ok v => Built v
    | Raise e => if isinstance_ValueError e then Built (J_dict []) else Raised e
    end in
  match data with
  | Built data =>
      let message :=
        py_or (Built (J_str message))
          (py_or (get data "message")
             (py_or (get data "error")
                (Built (J_str ("Unspecified HTTP error ("
                               ++ str_of_int status_code ++ ")."))))) in
      match message with
      | Built message => Built (mk response status_code data (J_dict []) message)
      | AttributeError_raised => AttributeError_raised
      | Raised e => Raised e
      end
  | AttributeError_raised => AttributeError_raised
  | Raised e => Raised e
  end.

End ServerRequestError.

(** *** More of the small instance *)

Module ToyMore.

(** The outside world at time [t], with the answer [spend] to the spend
    lookup and the outcome [sent] of a broadcast. *)
Definition env_at (t : Q) (spend : option string) (sent : result unit) : Env :=
  mkEnv t (fun _ => Ok false) (fun _ _ => Ok spend) (fun _ => sent).

Definition later : Q := Qmake 1488799 2.

(** The outside world of [Toy.env], with a provider that refuses every
    broadcast. *)
Definition refusing : Env :=
  env_at (Qmake 2000001 2) None (Raise (Exception "broadcast refused")).

(** A 400 response in the format of the server, and the exception built
    from it without a message. *)
Definition bad_login : ServerRequestError.Response :=
  ServerRequestError.mkResponse 400
    (Ok (ServerRequestError.J_dict
           [("error", ServerRequestError.J_str "invalid_login");
            ("message", ServerRequestError.J_str "Incorrect username or password")])).
Definition bad_login_error : ServerRequestError.t :=
  ServerRequestError.mk bad_login 400
    (ServerRequestError.J_dict
       [("error", ServerRequestError.J_str "invalid_login");
        ("message", ServerRequestError.J_str "Incorrect username or password")])
    (ServerRequestError.J_dict [])
    (ServerRequestError.J_str "Incorrect username or password").

(** The row of channel [f0-100000] as a server without zeroconf opens
    it. *)
Definition row_confirming : Channel.t :=
  Channel.mk "f0-100000" CONFIRMING (Toy.deposit "f0" 2000000) None "01" 2000000 100000 0.

End ToyMore.

(* ===================================================================== *)
(** ** Properties                                                         *)
(* ===================================================================== *)

Ltac inv H := inversion H; subst; clear H.

(** Unfolding of the monad's combinators. *)
Ltac unfold_monad :=
  unfold bind, lift, ret, raise, raise_if, when, pc_lookup, pmt_lookup, pc_lookup_all,
    read_db, modify_db, emit, pc_update_state, pc_update_payment, pmt_create in *.

(** *** The channel table *)

Lemma lookup_channel_key (d : string) (rows : list Channel.t) (c : Channel.t) :
  lookup_channel d rows = Some c -> Channel.deposit_txid c = d.
Proof.
  unfold lookup_channel. intros H. apply find_some in H.
  destruct H as [_ H]. now apply String.eqb_eq.
Qed.

Lemma lookup_channel_In (d : string) (rows : list Channel.t) (c : Channel.t) :
  lookup_channel d rows = Some c -> In c rows.
Proof.
  unfold lookup_channel. intros H. now apply find_some in H.
Qed.

Lemma lookup_channel_absent (d : string) (rows : list Channel.t) :
  lookup_channel d rows = None ->
  forall c, In c rows -> Channel.deposit_txid c <> d.
Proof.
  unfold lookup_channel. intros H c Hin Hk.
  apply (find_none _ _ H) in Hin. apply String.eqb_neq in Hin. contradiction.
Qed.

Lemma update_rows_absent (d : string) (f : Channel.t -> Channel.t) (rows : list Channel.t) :
  lookup_channel d rows = None -> update_rows d f rows = rows.
Proof.
  intros H. unfold update_rows.
  rewrite <- (map_id rows) at 2. apply map_ext_in. intros c Hin.
  apply (lookup_channel_absent _ _ H) in Hin.
  apply String.eqb_neq in Hin. now rewrite Hin.
Qed.

Lemma update_rows_keys (d : string) (f : Channel.t -> Channel.t) (rows : list Channel.t) :
  (forall c, Channel.deposit_txid (f c) = Channel.deposit_txid c) ->
  map Channel.deposit_txid (update_rows d f rows) = map Channel.deposit_txid rows.
Proof.
  intros Hf. unfold update_rows. rewrite map_map. apply map_ext. intros c.
  destruct (String.eqb (Channel.deposit_txid c) d); auto.
Qed.

Lemma lookup_update_rows (d d' : string) (f : Channel.t -> Channel.t)
    (rows : list Channel.t) :
  (forall c, Channel.deposit_txid (f c) = Channel.deposit_txid c) ->
  lookup_channel d (update_rows d' f rows) =
  option_map (fun c => if String.eqb (Channel.deposit_txid c) d' then f c else c)
             (lookup_channel d rows).
Proof.
  intros Hf. unfold lookup_channel, update_rows.
  induction rows as [|c rows IH]; simpl; [reflexivity|].
  assert (Hk : Channel.deposit_txid
                 (if String.eqb (Channel.deposit_txid c) d' then f c else c)
               = Channel.deposit_txid c).
  { destruct (String.eqb (Channel.deposit_txid c) d'); auto. }
  rewrite Hk. destruct (String.eqb (Channel.deposit_txid c) d); [reflexivity|exact IH].
Qed.

Lemma lookup_channel_app (d : string) (rows extra : list Channel.t) :
  lookup_channel d (rows ++ extra) =
  match lookup_channel d rows with
  | Some c => Some c
  | None => lookup_channel d extra
  end.
Proof.
  unfold lookup_channel. induction rows as [|c rows IH]; simpl; [reflexivity|].
  destruct (String.eqb (Channel.deposit_txid c) d); [reflexivity|exact IH].
Qed.

Lemma unique_keys_lookup (rows : list Channel.t) (c : Channel.t) :
  unique_keys rows -> In c rows -> lookup_channel (Channel.deposit_txid c) rows = Some c.
Proof.
  unfold unique_keys, lookup_channel.
  induction rows as [|x rows IH]; simpl; intros Hnd Hin; [contradiction|].
  inv Hnd. destruct Hin as [->|Hin].
  - now rewrite String.eqb_refl.
  - destruct (String.eqb (Channel.deposit_txid x) (Channel.deposit_txid c)) eqn:Hk.
    + apply String.eqb_eq in Hk. exfalso. apply H1. rewrite Hk. now apply in_map.
    + now apply IH.
Qed.

Lemma set_state_key (s : ChannelState) (c : Channel.t) :
  Channel.deposit_txid (Channel.set_state s c) = Channel.deposit_txid c.
Proof. reflexivity. Qed.

Lemma set_payment_key (ptx : Transaction) (amt : Z) (c : Channel.t) :
  Channel.deposit_txid (Channel.set_payment ptx amt c) = Channel.deposit_txid c.
Proof. reflexivity. Qed.

(** *** The checks of [receive_payment] *)

Section ReceivePayment.
Context {L : BitcoinLib} {Wl : Wallet} {C : Config}.

Lemma check_dust_limit_first (outs : list TransactionOutput) (i index : nat) :
  check_dust_limit outs i index =
  match first_below_dust outs i with
  | None => Ok tt
  | Some j =>
      Raise (BadTransactionError
               (if Nat.eqb j index then dust_message_merchant else dust_message_customer))
  end.
Proof.
  revert i. induction outs as [|o outs IH]; intros i; simpl; [reflexivity|].
  destruct (value o <? DUST_LIMIT); [|apply IH].
  destruct (Nat.eqb i index); reflexivity.
Qed.



(** What an accepted set of outputs tells: the merchant output exists, is
    above the last payment amount, and is the amount returned. *)
Lemma check_payment_outputs_Ok (channel : Channel.t) (tx : Transaction) (mpk : PublicKey)
    (rs : PaymentChannelRedeemScript.t) (sig : Signature) (ptx : Transaction) (amt : Z) :
  check_payment_outputs channel tx mpk rs sig = Ok (ptx, amt) ->
  exists index output,
    output_index_for_address tx (PublicKey_hash160 mpk) = Some index /\
    nth_error (outputs tx) index = Some output /\
    amt = value output /\
    Channel.last_payment_amount channel < amt /\
    first_below_dust (outputs tx) 0 = None /\
    MIN_TX_FEE <= Channel.amount channel - sum_values (outputs tx) /\
    Transaction_to_hex tx = Transaction_to_hex ptx.
Proof.
  unfold check_payment_outputs, result_bind, getitem.
  destruct (output_index_for_address tx (PublicKey_hash160 mpk)) as [index|]; [|discriminate].
  rewrite check_dust_limit_first.
  destruct (first_below_dust (outputs tx) 0) as [j|] eqn:Hd; [discriminate|].
  destruct (nth_error (outputs tx) index) as [output|] eqn:Hn; [|discriminate].
  destruct (value output <=? Channel.last_payment_amount channel) eqn:Hm; [discriminate|].
  destruct (Channel.amount channel - sum_values (outputs tx) <? MIN_TX_FEE) eqn:Hf;
    [discriminate|].
  destruct (negb _); [discriminate|].
  destruct (create_unsigned_payment_tx _ _ _ _) as [ptx0|]; [|discriminate].
  destruct (set_input0_script ptx0 _) as [ptx1|]; [|discriminate].
  destruct (negb (String.eqb _ _)) eqn:Hh; [discriminate|].
  intros H. inv H. exists index, output.
  apply Z.leb_gt in Hm. apply Z.ltb_ge in Hf. apply negb_false_iff in Hh.
  apply String.eqb_eq in Hh. repeat split; auto.
Qed.

(** The three ways a call of [receive_payment] ends: an exception before
    any write; an exception after the only write that precedes the checks
    of the outputs, the promotion of a CONFIRMING channel whose deposit is
    confirmed; or a result, after the two writes of the payment. *)
Lemma receive_payment_cases (E : Env) (d hex : string) (w : World) :
  (exists e, receive_payment E d hex w = (Raise e, w)) \/
  (exists e tx ch,
      Transaction_from_hex hex = Ok tx /\
      lookup_channel d (pc (db w)) = Some ch /\
      Channel.state ch = CONFIRMING /\
      check_confirmed E d = Ok true /\
      receive_payment E d hex w = (Raise e, promoted d w)) \/
  (exists tx ch mpk rs sig ptx amt w1,
      Transaction_from_hex hex = Ok tx /\
      lookup_channel d (pc (db w)) = Some ch /\
      check_payment_script ch tx = Ok (mpk, rs, sig) /\
      passes_ready_check E ch /\
      (w1 = w /\ Channel.state ch = READY \/
       w1 = promoted d w /\ Channel.state ch = CONFIRMING) /\
      check_payment_outputs ch tx mpk rs sig = Ok (ptx, amt) /\
      receive_payment E d hex w =
        (Ok (Transaction_hash ptx),
         with_payment d ptx amt (amt - Channel.last_payment_amount ch) w1)).
Proof.
  unfold receive_payment. unfold_monad.
  destruct (Transaction_from_hex hex) as [tx|e]; [|left; eauto].
  destruct (lookup_channel d (pc (db w))) as [ch|] eqn:Hl; [|left; eauto].
  pose proof (lookup_channel_key _ _ _ Hl) as Hk.
  destruct (check_payment_script ch tx) as [[[mpk rs] sig]|e] eqn:Hs; [|left; eauto].
  unfold check_channel_ready. unfold_monad. rewrite Hk.
  destruct (Channel.state ch) eqn:Hst.
  - destruct (check_confirmed E d) as [[|]|e] eqn:Hc; [| left; eauto | left; eauto].
    destruct (check_payment_outputs ch tx mpk rs sig) as [[ptx amt]|e] eqn:Ho.
    + right. right. exists tx, ch, mpk, rs, sig, ptx, amt, (promoted d w).
      repeat split; auto.
      right. split; [auto|]. now rewrite Hk.
    + right. left. exists e, tx, ch. repeat split; auto.
  - destruct (check_payment_outputs ch tx mpk rs sig) as [[ptx amt]|e] eqn:Ho.
    + right. right. exists tx, ch, mpk, rs, sig, ptx, amt, w.
      repeat split; auto. now left.
    + left. exists e. reflexivity.
  - left. eauto.
Qed.





Lemma promoted_payment_records (d : string) (w : World) :
  map payment_record (pc (db (promoted d w))) = map payment_record (pc (db w)).
Proof.
  simpl. unfold update_rows. rewrite map_map. apply map_ext. intros c.
  destruct (String.eqb (Channel.deposit_txid c) d); reflexivity.
Qed.

End ReceivePayment.

(** *** Errors and the dust limit *)

Section PaymentClaims.
Context {L : BitcoinLib} {Wl : Wallet} {C : Config}.

(** C3 (as amended).  If [receive_payment] raises, the payment table and
    the payment transaction and last payment amount of every channel are
    exactly as before the call; the writes of the payment happen only at
    the end of a successful validation.  The one write that can precede an
    exception is the promotion of the channel from CONFIRMING to READY,
    made in the middle of the validation when the deposit is found
    confirmed: for a channel that is not CONFIRMING, or not yet confirmed,
    nothing at all is written. *)
Theorem receive_payment_error_writes (E : Env) (d hex : string) (w w' : World) (e : exn) :
  receive_payment E d hex w = (Raise e, w') ->
  pmt (db w') = pmt (db w) /\
  map payment_record (pc (db w')) = map payment_record (pc (db w)) /\
  (w' = w \/
   exists ch, lookup_channel d (pc (db w)) = Some ch /\
              Channel.state ch = CONFIRMING /\
              check_confirmed E d = Ok true /\
              w' = promoted d w).
Proof.
  intros H.
  destruct (receive_payment_cases E d hex w) as [[e' He]|[Hpr|Hok]].
  - rewrite He in H. inv H. auto.
  - destruct Hpr as (e' & tx & ch & _ & Hl & Hst & Hc & He).
    rewrite He in H. inv H. repeat split; auto.
    + apply promoted_payment_records.
    + right. exists ch. auto.
  - destruct Hok as (tx & ch & mpk & rs & sig & ptx & amt & w1 & _ & _ & _ & _ & _ & _ & Hr).
    rewrite Hr in H. discriminate.
Qed.


End PaymentClaims.

(** C3, witness: on a CONFIRMING channel whose deposit is confirmed, a
    payment without merchant output raises after the promotion, and the
    payment records are as before. *)
Lemma receive_payment_error_writes_witness :
  Toy.receive_payment (Toy.env true None) "f0-100000" "a6" Toy.w_confirming
    = (Raise (BadTransactionError "Payment must pay to merchant pubkey."),
       promoted "f0-100000" Toy.w_confirming) /\
  pmt (db (promoted "f0-100000" Toy.w_confirming)) = pmt (db Toy.w_confirming) /\
  map payment_record (pc (db (promoted "f0-100000" Toy.w_confirming)))
    = map payment_record (pc (db Toy.w_confirming)).
Proof.
  assert (H : Toy.receive_payment (Toy.env true None) "f0-100000" "a6" Toy.w_confirming
              = (Raise (BadTransactionError "Payment must pay to merchant pubkey."),
                 promoted "f0-100000" Toy.w_confirming)) by reflexivity.
  split; [exact H|].
  destruct (@receive_payment_error_writes Toy.lib Toy.wallet (Toy.config true)
              (Toy.env true None) "f0-100000" "a6" Toy.w_confirming _ _ H)
    as (Hp & Hr & _).
  split; [exact Hp | exact Hr].
Defined.

(** C3, counterexample to the claim as stated: the call raises
    [BadTransactionError], a validation error, and yet the state field of
    the channel row has been written: CONFIRMING before, READY after. *)
Lemma receive_payment_error_writes_counterexample :
  fst (Toy.receive_payment (Toy.env true None) "f0-100000" "a6" Toy.w_confirming)
    = Raise (BadTransactionError "Payment must pay to merchant pubkey.") /\
  option_map Channel.state (lookup_channel "f0-100000" (pc (db Toy.w_confirming)))
    = Some CONFIRMING /\
  option_map Channel.state
    (lookup_channel "f0-100000"
       (pc (db (snd (Toy.receive_payment (Toy.env true None) "f0-100000" "a6"
                       Toy.w_confirming)))))
    = Some READY /\
  trace (snd (Toy.receive_payment (Toy.env true None) "f0-100000" "a6" Toy.w_confirming))
    = (trace Toy.w_confirming ++ [ev_pc_update_state "f0-100000" READY])%list /\
  db (snd (Toy.receive_payment (Toy.env true None) "f0-100000" "a6" Toy.w_confirming))
    <> db Toy.w_confirming.
Proof.
  repeat split; try reflexivity.
  intros H.
  assert (X := f_equal (fun d => option_map Channel.state
                                   (lookup_channel "f0-100000" (pc d))) H).
  vm_compute in X. discriminate.
Qed.


(** *** [open] and [close] *)

Section OpenClose.
Context {L : BitcoinLib} {Wl : Wallet} {C : Config}.

Lemma output_index_from_in_range (outs : list TransactionOutput) (address : bytes)
    (i j : nat) :
  output_index_from outs address i = Some j ->
  (i <= j)%nat /\ exists o, nth_error outs (j - i) = Some o.
Proof.
  revert i. induction outs as [|o outs IH]; intros i; simpl; [discriminate|].
  destruct (Script_pays_to (out_script o) address).
  - intros H. inv H. split; [lia|]. rewrite Nat.sub_diag. simpl. eauto.
  - intros H. apply IH in H. destruct H as [Hle [o' Ho']]. split; [lia|].
    replace (j - i)%nat with (S (j - S i)) by lia. simpl. eauto.
Qed.

Lemma output_index_for_address_in_range (tx : Transaction) (address : bytes) (j : nat) :
  output_index_for_address tx address = Some j ->
  exists o, nth_error (outputs tx) j = Some o.
Proof.
  unfold output_index_for_address. intros H.
  apply output_index_from_in_range in H. destruct H as [_ [o Ho]].
  rewrite Nat.sub_0_r in Ho. eauto.
Qed.

(** C6 (as amended).  Once the deposit and the redeem script have passed
    the earlier checks of [open], the call raises
    [TransactionVerificationError] exactly when expiration_time is below
    now + MIN_EXP_TIME - 1, where now is [int(time.time())]: a script
    expiring at now + MIN_EXP_TIME - 2 is rejected, and one expiring at
    now + MIN_EXP_TIME - 1, or at now + MIN_EXP_TIME, is accepted and its
    channel stored. *)
Theorem open_locktime_boundary (E : Env) (deposit_tx redeem_script : string) (w : World)
    (dtx : Transaction) (rsb : bytes) (rs : PaymentChannelRedeemScript.t) (index : nat) :
  Transaction_from_hex deposit_tx = Ok dtx ->
  codecs_decode_hex redeem_script = Ok rsb ->
  RedeemScript_from_bytes (Bytes rsb) = Ok rs ->
  output_index_for_address dtx (RedeemScript_hash160 rs) = Some index ->
  validate_public_key (PaymentChannelRedeemScript.merchant_public_key rs) = true ->
  lookup_channel (Transaction_hash dtx) (pc (db w)) = None ->
  (PaymentChannelRedeemScript.expiration_time rs
     < int_of_float (time_time E) + MIN_EXP_TIME - 1 ->
   open E deposit_tx redeem_script w =
   (Raise (TransactionVerificationError
             "Transaction locktime must be further in the future."), w)) /\
  (int_of_float (time_time E) + MIN_EXP_TIME - 1
     <= PaymentChannelRedeemScript.expiration_time rs ->
   exists w' ch,
     open E deposit_tx redeem_script w = (Ok (Transaction_hash dtx), w') /\
     lookup_channel (Transaction_hash dtx) (pc (db w')) = Some ch /\
     Channel.expires_at ch = PaymentChannelRedeemScript.expiration_time rs /\
     Channel.state ch = (if zeroconf then READY else CONFIRMING)).
Proof.
  intros Hp Hd Hr Hi Hv Hl.
  destruct (output_index_for_address_in_range _ _ _ Hi) as [o Ho].
  split; intros Hexp.
  - unfold open. unfold_monad. rewrite Hp, Hd, Hr, Hi. unfold getitem. rewrite Ho, Hv.
    simpl. rewrite Hl. simpl.
    apply Z.ltb_lt in Hexp. rewrite Hexp. reflexivity.
  - apply Z.ltb_ge in Hexp.
    unfold open, pc_create. unfold_monad. rewrite Hp, Hd, Hr, Hi. unfold getitem.
    rewrite Ho, Hv. simpl. rewrite Hl. simpl. rewrite Hexp. simpl.
    destruct zeroconf; simpl; rewrite ?Hl; simpl.
    + eexists. eexists. split; [reflexivity|]. simpl.
      rewrite lookup_update_rows by apply set_state_key.
      rewrite lookup_channel_app, Hl. unfold lookup_channel. simpl.
      rewrite String.eqb_refl. simpl. rewrite String.eqb_refl. auto.
    + eexists. eexists. split; [reflexivity|]. simpl.
      rewrite lookup_channel_app, Hl. unfold lookup_channel. simpl.
      rewrite String.eqb_refl. auto.
Qed.

Lemma codecs_decode_hex_not_TypeError (s : string) (e : exn) :
  codecs_decode_hex s = Raise e ->
  isinstance_TypeError e = false /\ isinstance_ValueError e = true.
Proof.
  unfold codecs_decode_hex.
  destruct (negb (is_ascii_only s)); [intros H; inv H; auto|].
  destruct (Nat.odd (String.length s)); [intros H; inv H; auto|].
  destruct (a2b_hex s); [discriminate|]. intros H; inv H; auto.
Qed.

(** In [close], a signature string that is not hexadecimal leaves the
    method with the exception of [codecs.decode], a [ValueError] that the
    clause [except TypeError] does not catch. *)
Lemma close_hex_error (E : Env) (d s : string) (w : World) (ch : Channel.t) (e : exn) :
  lookup_channel d (pc (db w)) = Some ch ->
  codecs_decode_hex s = Raise e ->
  close E d s w = (Raise e, w) /\ is_TransactionVerificationError e = false.
Proof.
  intros Hl Hd. destruct (codecs_decode_hex_not_TypeError _ _ Hd) as [Ht Hv].
  unfold close. unfold_monad. rewrite Hl, Hd. simpl. rewrite Ht. split; [reflexivity|].
  destruct e; try reflexivity; discriminate.
Qed.

(** In [close], an exception of [Signature.from_der] is turned into
    [TransactionVerificationError] only if it is a [TypeError]. *)
Lemma close_der_error (E : Env) (d s : string) (w : World) (ch : Channel.t)
    (der : bytes) (e : exn) :
  lookup_channel d (pc (db w)) = Some ch ->
  codecs_decode_hex s = Ok der ->
  Signature_from_der (Bytes der) = Raise e ->
  close E d s w =
  (Raise (if isinstance_TypeError e
          then TransactionVerificationError "Invalid signature provided."
          else e), w).
Proof.
  intros Hl Hd Hs. unfold close. unfold_monad. rewrite Hl, Hd. simpl. rewrite Hs. simpl.
  destruct (isinstance_TypeError e); reflexivity.
Qed.

(** C10.  [close] never looks at the state of the channel.  On a channel
    that is already CLOSED, with a stored payment transaction and a
    signature valid over the ASCII deposit_txid, it does not raise: it
    signs the stored payment again, calls [broadcast_tx] again, writes the
    state CLOSED again and returns the hash of the payment transaction. *)
Theorem close_on_closed_channel (E : Env) (d sighex : string) (w : World) (ch : Channel.t)
    (ptx signed : Transaction) (der : bytes) (sig : Signature)
    (rs : PaymentChannelRedeemScript.t) :
  lookup_channel d (pc (db w)) = Some ch ->
  Channel.state ch = CLOSED ->
  Channel.payment_tx ch = Some ptx ->
  codecs_decode_hex sighex = Ok der ->
  Signature_from_der (Bytes der) = Ok sig ->
  redeem_script_of ptx = Ok rs ->
  PublicKey_verify (PaymentChannelRedeemScript.customer_public_key rs)
                   (str_encode d) sig true = true ->
  sign_half_signed_payment ptx rs = Ok signed ->
  broadcast_tx E (Transaction_to_hex signed) = Ok tt ->
  close E d sighex w =
  (Ok (Transaction_hash signed),
   closed d (mkWorld (db w)
                     ((trace w ++ [ev_sign_half_signed_payment signed])
                        ++ [ev_broadcast_tx (Transaction_to_hex signed)]))) /\
  lookup_channel d (pc (db (snd (close E d sighex w)))) = Some ch.
Proof.
  intros Hl Hst Hp Hd Hs Hr Hv Hsg Hb.
  assert (Hc : close E d sighex w =
               (Ok (Transaction_hash signed),
                closed d (mkWorld (db w)
                            ((trace w ++ [ev_sign_half_signed_payment signed])
                               ++ [ev_broadcast_tx (Transaction_to_hex signed)])))).
  { unfold close. unfold_monad. rewrite Hl, Hd. simpl. rewrite Hs. simpl.
    rewrite Hp, Hr, Hv. simpl. rewrite Hsg, Hb. reflexivity. }
  split; [exact Hc|]. rewrite Hc. simpl.
  rewrite lookup_update_rows by apply set_state_key. rewrite Hl. simpl.
  rewrite (lookup_channel_key _ _ _ Hl), String.eqb_refl.
  destruct ch. simpl in *. subst. reflexivity.
Qed.

End OpenClose.

(** C6, witness: with the clock at 1000000.5 and MIN_EXP_TIME = 3600, the
    script expiring at 1003598 is rejected and those expiring at 1003599
    and 1003600 are accepted. *)
Lemma open_locktime_boundary_witness :
  Toy.open true (Toy.env false None) "d2" "0102000f504e" initial_world
    = (Raise (TransactionVerificationError
                "Transaction locktime must be further in the future."), initial_world) /\
  (exists w' ch,
      Toy.open true (Toy.env false None) "d1" "0102000f504f" initial_world
        = (Ok "f1-100000", w') /\
      lookup_channel "f1-100000" (pc (db w')) = Some ch /\
      Channel.expires_at ch = 1003599 /\ Channel.state ch = READY) /\
  (exists w' ch,
      Toy.open true (Toy.env false None) "d3" "0102000f5050" initial_world
        = (Ok "f3-100000", w') /\
      lookup_channel "f3-100000" (pc (db w')) = Some ch /\
      Channel.expires_at ch = 1003600 /\ Channel.state ch = READY).
Proof.
  split; [|split].
  - apply (proj1 (@open_locktime_boundary Toy.lib Toy.wallet (Toy.config true)
                    (Toy.env false None) "d2" "0102000f504e" initial_world
                    (Toy.deposit "f2" 1003598)
                    [Byte.x01; Byte.x02; Byte.x00; Byte.x0f; Byte.x50; Byte.x4e]
                    (Toy.redeem_script 1003598) 0%nat
                    eq_refl eq_refl eq_refl eq_refl eq_refl eq_refl)).
    vm_compute. reflexivity.
  - apply (proj2 (@open_locktime_boundary Toy.lib Toy.wallet (Toy.config true)
                    (Toy.env false None) "d1" "0102000f504f" initial_world
                    (Toy.deposit "f1" 1003599)
                    [Byte.x01; Byte.x02; Byte.x00; Byte.x0f; Byte.x50; Byte.x4f]
                    (Toy.redeem_script 1003599) 0%nat
                    eq_refl eq_refl eq_refl eq_refl eq_refl eq_refl)).
    vm_compute. discriminate.
  - apply (proj2 (@open_locktime_boundary Toy.lib Toy.wallet (Toy.config true)
                    (Toy.env false None) "d3" "0102000f5050" initial_world
                    (Toy.deposit "f3" 1003600)
                    [Byte.x01; Byte.x02; Byte.x00; Byte.x0f; Byte.x50; Byte.x50]
                    (Toy.redeem_script 1003600) 0%nat
                    eq_refl eq_refl eq_refl eq_refl eq_refl eq_refl)).
    vm_compute. discriminate.
Defined.

(** C6, counterexample to the claim as stated: the clock reads 1000000.5,
    MIN_EXP_TIME is 3600, the redeem script expires at
    1000000 + 3600 - 1 = 1003599, and [open] accepts it. *)
Lemma open_locktime_boundary_counterexample :
  int_of_float (time_time (Toy.env false None)) = 1000000 /\
  @MIN_EXP_TIME (Toy.config true) = 3600 /\
  (rs <-- codecs_decode_hex "0102000f504f" ;;
   rs <-- Toy.redeem_script_from_bytes (Bytes rs) ;;
   Ok (PaymentChannelRedeemScript.expiration_time rs)) = Ok (1000000 + 3600 - 1) /\
  fst (Toy.open true (Toy.env false None) "d1" "0102000f504f" initial_world)
    = Ok "f1-100000" /\
  is_TransactionVerificationError
    (TransactionVerificationError "Transaction locktime must be further in the future.")
    = true.
Proof.
  repeat split; reflexivity.
Qed.

(** C5, on the code: for an existing channel, [close] with the signature
    string [zz], which is no hexadecimal, ends with the [binascii.Error]
    of [codecs.decode], not with [TransactionVerificationError]. *)
Theorem close_garbled_hex_escapes :
  lookup_channel "f0-100000" (pc (db Toy.w_paid2)) <> None /\
  Toy.close (Toy.env false None) "f0-100000" "zz" Toy.w_paid2
    = (Raise (binascii_Error
                "decoding with 'hex_codec' codec failed (Error: Non-hexadecimal digit found)"),
       Toy.w_paid2) /\
  is_TransactionVerificationError
    (binascii_Error
       "decoding with 'hex_codec' codec failed (Error: Non-hexadecimal digit found)")
    = false.
Proof.
  split; [vm_compute; discriminate|]. split; reflexivity.
Qed.

(** C10, witness: the channel closed once is closed a second time with
    the same signature; the transaction is signed and broadcast again. *)
Lemma close_on_closed_channel_witness :
  Channel.state Toy.row_closed = CLOSED /\
  Toy.close (Toy.env false None) "f0-100000" "0203" Toy.w_closed
    = (Ok "f0-100000-7500-91500",
       closed "f0-100000"
         (mkWorld (db Toy.w_closed)
            ((trace Toy.w_closed
                ++ [ev_sign_half_signed_payment
                      (mkTransaction 1
                         [mkTransactionInput "f0-100000" 0
                            [Bytes [Byte.x02; Byte.x09; Byte.x01];
                             Bytes [Byte.x01; Byte.x07; Byte.x01];
                             Bytes [Byte.x01; Byte.x02; Byte.x00; Byte.x1e; Byte.x84; Byte.x80]]
                            4294967295]
                         [mkTransactionOutput 7500 [Bytes [Byte.x01]];
                          mkTransactionOutput 91500 [Bytes [Byte.x02]]] 0)])
               ++ [ev_broadcast_tx
                     "f0-100000:020901.010701.0102001e8480/7500:01,91500:02"])%list)).
Proof.
  split; [reflexivity|].
  apply (proj1 (@close_on_closed_channel Toy.lib Toy.wallet (Toy.env false None)
                  "f0-100000" "0203" Toy.w_closed Toy.row_closed
                  (Toy.half_signed_payment "f0" 2000000 7500 1000)
                  (mkTransaction 1
                     [mkTransactionInput "f0-100000" 0
                        [Bytes [Byte.x02; Byte.x09; Byte.x01];
                         Bytes [Byte.x01; Byte.x07; Byte.x01];
                         Bytes [Byte.x01; Byte.x02; Byte.x00; Byte.x1e; Byte.x84; Byte.x80]]
                        4294967295]
                     [mkTransactionOutput 7500 [Bytes [Byte.x01]];
                      mkTransactionOutput 91500 [Bytes [Byte.x02]]] 0)
                  [Byte.x02; Byte.x03] (mkSignature 2 3) (Toy.redeem_script 2000000)
                  eq_refl eq_refl eq_refl eq_refl eq_refl eq_refl eq_refl eq_refl eq_refl)).
Defined.

(** *** The effect of [sync] on the store *)

Lemma update_rows_id (d : string) (rows : list Channel.t) :
  update_rows d (fun c => c) rows = rows.
Proof.
  unfold update_rows. rewrite <- (map_id rows) at 2. apply map_ext. intros c.
  destruct (String.eqb (Channel.deposit_txid c) d); reflexivity.
Qed.

Lemma update_rows_compose (d : string) (g1 g2 : Channel.t -> Channel.t)
    (rows : list Channel.t) :
  (forall c, Channel.deposit_txid (g1 c) = Channel.deposit_txid c) ->
  update_rows d g2 (update_rows d g1 rows) = update_rows d (fun c => g2 (g1 c)) rows.
Proof.
  intros Hk. unfold update_rows. rewrite map_map. apply map_ext. intros c.
  destruct (String.eqb (Channel.deposit_txid c) d) eqn:He.
  - rewrite Hk, He. reflexivity.
  - rewrite He. reflexivity.
Qed.

Lemma tame_id (snap : Channel.t) : tame snap (fun c => c).
Proof. intros c. auto. Qed.

Lemma tame_compose (snap : Channel.t) (g1 g2 : Channel.t -> Channel.t) :
  tame snap g1 -> tame snap g2 -> tame snap (fun c => g2 (g1 c)).
Proof.
  intros H1 H2 c. destruct (H1 c) as (K1 & S1 & B1). destruct (H2 (g1 c)) as (K2 & S2 & B2).
  repeat split.
  - congruence.
  - destruct S2 as [S2|S2]; [|now right]. rewrite S2. exact S1.
  - destruct B2 as [B2|B2]; [|now right]. rewrite B2. exact B1.
Qed.

Lemma tame_set_state (snap : Channel.t) (s : ChannelState) :
  (state_rank (Channel.state snap) <= state_rank s)%nat ->
  tame snap (Channel.set_state s).
Proof. intros H c. simpl. auto. Qed.

Lemma tame_set_payment (snap : Channel.t) (ptx : Transaction) :
  tame snap (Channel.set_payment ptx (Channel.last_payment_amount snap)).
Proof. intros c. simpl. auto. Qed.

Lemma sync_effect_refl (snap : Channel.t) (w : World) : sync_effect snap w w.
Proof.
  exists (fun c => c). split; [apply tame_id|]. split; [reflexivity|].
  now rewrite update_rows_id.
Qed.

Lemma sync_effect_trans (snap : Channel.t) (w1 w2 w3 : World) :
  sync_effect snap w1 w2 -> sync_effect snap w2 w3 -> sync_effect snap w1 w3.
Proof.
  intros (g1 & T1 & P1 & R1) (g2 & T2 & P2 & R2).
  exists (fun c => g2 (g1 c)). split; [now apply tame_compose|]. split; [congruence|].
  rewrite R2, R1. apply update_rows_compose. intros c. apply (T1 c).
Qed.

Section SyncEffect.
Context {L : BitcoinLib} {Wl : Wallet}.

Lemma sync_effectM_ret {A} (snap : Channel.t) (a : A) : sync_effectM snap (ret a).
Proof. intros w r w' H. inv H. apply sync_effect_refl. Qed.

Lemma sync_effectM_lift {A} (snap : Channel.t) (x : result A) : sync_effectM snap (lift x).
Proof. intros w r w' H. inv H. apply sync_effect_refl. Qed.

Lemma sync_effectM_emit (snap : Channel.t) (e : Event) : sync_effectM snap (emit e).
Proof.
  intros w r w' H. inv H. exists (fun c => c). split; [apply tame_id|].
  split; [reflexivity|]. simpl. now rewrite update_rows_id.
Qed.

Lemma sync_effectM_bind {A B} (snap : Channel.t) (m : M A) (k : A -> M B) :
  sync_effectM snap m -> (forall a, sync_effectM snap (k a)) ->
  sync_effectM snap (bind m k).
Proof.
  intros Hm Hk w r w' H. unfold bind in H.
  destruct (m w) as [[a|e] w1] eqn:Hmw.
  - eapply sync_effect_trans; [eapply Hm; eauto | eapply Hk; eauto].
  - inv H. eapply Hm; eauto.
Qed.

Lemma sync_effectM_when (snap : Channel.t) (b : bool) (m : M unit) :
  sync_effectM snap m -> sync_effectM snap (when b m).
Proof. intros H. destruct b; simpl; [exact H | apply sync_effectM_ret]. Qed.

Lemma sync_effectM_update_state (snap : Channel.t) (s : ChannelState) :
  (state_rank (Channel.state snap) <= state_rank s)%nat ->
  sync_effectM snap (pc_update_state (Channel.deposit_txid snap) s).
Proof.
  intros Hs w r w' H. unfold pc_update_state in H. unfold_monad. inv H.
  exists (Channel.set_state s). split; [now apply tame_set_state|]. split; reflexivity.
Qed.

Lemma sync_effectM_update_payment (snap : Channel.t) (ptx : Transaction) :
  sync_effectM snap (pc_update_payment (Channel.deposit_txid snap) ptx
                                       (Channel.last_payment_amount snap)).
Proof.
  intros w r w' H. unfold pc_update_payment in H. unfold_monad. inv H.
  exists (Channel.set_payment ptx (Channel.last_payment_amount snap)).
  split; [apply tame_set_payment|]. split; reflexivity.
Qed.

(** The writes of one turn of the loop of [sync] rewrite only the rows of
    the key of the channel read, tamely: READY is written only for a
    channel read as CONFIRMING. *)
Lemma sync_channel_effect (E : Env) (snap : Channel.t) :
  sync_effectM snap (sync_channel E snap).
Proof.
  unfold sync_channel.
  destruct (ChannelState_eqb (Channel.state snap) CLOSED); [apply sync_effectM_ret|].
  apply sync_effectM_bind; [|intros _; apply sync_effectM_bind; [|intros _]].
  - destruct (ChannelState_eqb (Channel.state snap) CONFIRMING) eqn:Hc;
      [|apply sync_effectM_ret].
    apply sync_effectM_bind; [apply sync_effectM_lift|]. intros confirmed.
    apply sync_effectM_when. apply sync_effectM_update_state.
    destruct (Channel.state snap); simpl in *; try discriminate; lia.
  - destruct (_ || _); [|apply sync_effectM_ret].
    destruct (Channel.payment_tx snap); [|apply sync_effectM_ret].
    apply sync_effectM_bind; [apply sync_effectM_lift|]. intros rs.
    apply sync_effectM_bind; [apply sync_effectM_lift|]. intros spend.
    apply sync_effectM_when. apply sync_effectM_update_state.
    destruct (Channel.state snap); simpl; lia.
  - destruct (negb _); [|apply sync_effectM_ret].
    destruct (float_gt _ _); [|apply sync_effectM_ret].
    destruct (Channel.payment_tx snap); [|apply sync_effectM_ret].
    apply sync_effectM_bind; [apply sync_effectM_lift|]. intros rs.
    apply sync_effectM_bind; [apply sync_effectM_lift|]. intros signed.
    apply sync_effectM_bind; [apply sync_effectM_emit|]. intros _.
    apply sync_effectM_bind; [apply sync_effectM_lift|]. intros _.
    apply sync_effectM_bind; [apply sync_effectM_emit|]. intros _.
    apply sync_effectM_bind; [apply sync_effectM_update_payment|]. intros _.
    apply sync_effectM_update_state.
    destruct (Channel.state snap); simpl; lia.
Qed.

End SyncEffect.

(** *** Rows before and after a call *)

Lemma channel_advances_refl (c : Channel.t) : channel_advances c c.
Proof. unfold channel_advances. auto. Qed.

Lemma channel_advances_trans (a b c : Channel.t) :
  channel_advances a b -> channel_advances b c -> channel_advances a c.
Proof.
  unfold channel_advances. intros (K1 & S1 & B1) (K2 & S2 & B2).
  repeat split; [congruence | lia | congruence].
Qed.

Lemma channel_advances_state (c c' : Channel.t) :
  channel_advances c c' -> state_advances c c'.
Proof. unfold channel_advances, state_advances. tauto. Qed.

Lemma state_advances_refl (c : Channel.t) : state_advances c c.
Proof. unfold state_advances. auto. Qed.

Lemma state_advances_trans (a b c : Channel.t) :
  state_advances a b -> state_advances b c -> state_advances a c.
Proof.
  unfold state_advances. intros (K1 & S1) (K2 & S2). split; [congruence | lia].
Qed.

Lemma Forall2_map_right {A} (R : A -> A -> Prop) (h : A -> A) (l : list A) :
  (forall x, In x l -> R x (h x)) -> Forall2 R l (map h l).
Proof.
  induction l as [|x l IH]; intros H; simpl; constructor.
  - apply H. now left.
  - apply IH. intros y Hy. apply H. now right.
Qed.

Lemma Forall2_trans_rel {A} (R : A -> A -> Prop) :
  (forall a b c, R a b -> R b c -> R a c) ->
  forall l1 l2 l3, Forall2 R l1 l2 -> Forall2 R l2 l3 -> Forall2 R l1 l3.
Proof.
  intros HR l1 l2 l3 H12. revert l3.
  induction H12 as [|a b l1 l2 Hab H12 IH]; intros l3 H23; inv H23; constructor; eauto.
Qed.

Lemma Forall2_weaken {A} (R R' : A -> A -> Prop) (l1 l2 : list A) :
  (forall a b, R a b -> R' a b) -> Forall2 R l1 l2 -> Forall2 R' l1 l2.
Proof. intros H F. induction F; constructor; auto. Qed.

Lemma unique_keys_same (rows : list Channel.t) (a b : Channel.t) :
  unique_keys rows -> In a rows -> In b rows ->
  Channel.deposit_txid a = Channel.deposit_txid b -> a = b.
Proof.
  intros Hu Ha Hb Hk.
  pose proof (unique_keys_lookup rows a Hu Ha) as La.
  pose proof (unique_keys_lookup rows b Hu Hb) as Lb.
  rewrite Hk in La. congruence.
Qed.

(** Rewriting the row of a key relates the table to itself, when the row
    found under that key is related to its image. *)
Lemma update_rows_related (R : Channel.t -> Channel.t -> Prop) (d : string)
    (f : Channel.t -> Channel.t) (rows : list Channel.t) :
  (forall c, R c c) ->
  unique_keys rows ->
  (forall c, lookup_channel d rows = Some c -> R c (f c)) ->
  Forall2 R rows (update_rows d f rows).
Proof.
  intros Hrefl Hu Hf. unfold update_rows. apply Forall2_map_right. intros c Hin.
  destruct (String.eqb (Channel.deposit_txid c) d) eqn:Hk; [|apply Hrefl].
  apply String.eqb_eq in Hk. apply Hf. rewrite <- Hk. now apply unique_keys_lookup.
Qed.

Lemma Forall2_state_advances_keys (rows rows' : list Channel.t) :
  Forall2 state_advances rows rows' ->
  map Channel.deposit_txid rows' = map Channel.deposit_txid rows.
Proof.
  intros F. induction F as [|a b l l' Hab F IH]; simpl; [reflexivity|].
  destruct Hab as [Hk _]. now rewrite Hk, IH.
Qed.

Lemma Forall2_lookup (R : Channel.t -> Channel.t -> Prop) (rows rows' : list Channel.t)
    (d : string) :
  (forall c c', R c c' -> Channel.deposit_txid c' = Channel.deposit_txid c) ->
  Forall2 R rows rows' ->
  match lookup_channel d rows with
  | Some c => exists c', lookup_channel d rows' = Some c' /\ R c c'
  | None => lookup_channel d rows' = None
  end.
Proof.
  intros HK F. unfold lookup_channel.
  induction F as [|a b l l' Hab F IH]; simpl; [reflexivity|].
  rewrite (HK _ _ Hab).
  destruct (String.eqb (Channel.deposit_txid a) d); [eauto | exact IH].
Qed.

Lemma Forall2_channel_advances_balance (rows rows' : list Channel.t) (d : string) :
  Forall2 channel_advances rows rows' -> balance_of d rows' = balance_of d rows.
Proof.
  intros F. unfold balance_of.
  pose proof (Forall2_lookup channel_advances rows rows' d
                (fun c c' H => proj1 H) F) as H.
  destruct (lookup_channel d rows) as [c|].
  - destruct H as (c' & -> & _ & _ & Hb). exact Hb.
  - now rewrite H.
Qed.

Section SyncRows.
Context {L : BitcoinLib} {Wl : Wallet}.

Lemma sync_effect_rows (snap : Channel.t) (w w' : World) :
  unique_keys (pc (db w)) -> In snap (pc (db w)) ->
  sync_effect snap w w' ->
  pmt (db w') = pmt (db w) /\
  Forall2 channel_advances (pc (db w)) (pc (db w')) /\
  (forall y, In y (pc (db w)) ->
             Channel.deposit_txid y <> Channel.deposit_txid snap -> In y (pc (db w'))).
Proof.
  intros Hu Hin (g & Hg & Hp & Hr). split; [exact Hp|]. rewrite Hr. split.
  - apply update_rows_related; [apply channel_advances_refl | exact Hu |].
    intros c Hl.
    assert (c = snap).
    { apply (unique_keys_same (pc (db w))); auto.
      - eapply lookup_channel_In; eauto.
      - eapply lookup_channel_key; eauto. }
    subst c. destruct (Hg snap) as (K & S & B). repeat split.
    + exact K.
    + destruct S as [S|S]; [rewrite S; lia | exact S].
    + destruct B as [B|B]; exact B.
  - intros y Hy Hk. unfold update_rows. apply in_map_iff. exists y. split; [|exact Hy].
    apply String.eqb_neq in Hk. now rewrite Hk.
Qed.

Lemma for_each_sync_rows (E : Env) (l : list Channel.t) :
  forall (w : World) (r : result unit) (w' : World),
    unique_keys (pc (db w)) ->
    NoDup (map Channel.deposit_txid l) ->
    (forall x, In x l -> In x (pc (db w))) ->
    for_each l (sync_channel E) w = (r, w') ->
    pmt (db w') = pmt (db w) /\
    Forall2 channel_advances (pc (db w)) (pc (db w')).
Proof.
  induction l as [|x l IH]; intros w r w' Hu Hnd Hin H; simpl in H.
  - inv H. split; [reflexivity|].
    rewrite <- (map_id (pc (db w'))) at 2.
    apply Forall2_map_right. intros; apply channel_advances_refl.
  - unfold bind in H. destruct (sync_channel E x w) as [[[]|e] w1] eqn:Hx.
    + pose proof (sync_channel_effect E x w _ _ Hx) as He.
      destruct (sync_effect_rows x w w1 Hu (Hin x (or_introl eq_refl)) He)
        as (Hp1 & Hf1 & Hk1).
      inv Hnd.
      assert (Hu1 : unique_keys (pc (db w1))).
      { unfold unique_keys.
        rewrite (Forall2_state_advances_keys _ _
                   (Forall2_weaken _ _ _ _ channel_advances_state Hf1)).
        exact Hu. }
      destruct (IH w1 r w' Hu1 H3) as (Hp2 & Hf2); auto.
      * intros y Hy. apply Hk1; [apply Hin; now right|].
        intros Hk. apply H2. rewrite <- Hk. now apply in_map.
      * split; [congruence|].
        eapply Forall2_trans_rel; [apply channel_advances_trans | exact Hf1 | exact Hf2].
    + inv H. pose proof (sync_channel_effect E x w _ _ Hx) as He.
      destruct (sync_effect_rows x w w' Hu (Hin x (or_introl eq_refl)) He)
        as (Hp1 & Hf1 & _).
      auto.
Qed.

(** [sync] leaves the payment table alone and, row by row, keeps the key
    and the balance and moves the state forward, if at all. *)
Lemma sync_rows (E : Env) (w : World) (r : result unit) (w' : World) :
  unique_keys (pc (db w)) ->
  sync E w = (r, w') ->
  pmt (db w') = pmt (db w) /\ Forall2 channel_advances (pc (db w)) (pc (db w')).
Proof.
  intros Hu H. unfold sync in H. unfold_monad.
  eapply for_each_sync_rows; eauto.
Qed.

End SyncRows.

(** *** The effect of each method on the two tables *)

Section Effects.
Context {L : BitcoinLib} {Wl : Wallet} {C : Config}.

Lemma open_effect (E : Env) (a b : string) (w : World) (r : result string) (w' : World) :
  open E a b w = (r, w') ->
  pmt (db w') = pmt (db w) /\
  (pc (db w') = pc (db w) \/
   exists c0,
     lookup_channel (Channel.deposit_txid c0) (pc (db w)) = None /\
     Channel.last_payment_amount c0 = 0 /\
     Channel.state c0 = (if zeroconf then READY else CONFIRMING) /\
     pc (db w') = (pc (db w) ++ [c0])%list).
Proof.
  unfold open, pc_create. unfold_monad.
  destruct (Transaction_from_hex a) as [dtx|]; [|intros H; inv H; auto].
  destruct (codecs_decode_hex b) as [rsb|]; [|intros H; inv H; auto].
  destruct (RedeemScript_from_bytes (Bytes rsb)) as [rs|]; [|intros H; inv H; auto].
  destruct (output_index_for_address dtx (RedeemScript_hash160 rs)) as [i|];
    [|intros H; inv H; auto].
  destruct (getitem (outputs dtx) i) as [o|]; [|intros H; inv H; auto].
  destruct (negb (validate_public_key _)); [intros H; inv H; auto|]. simpl.
  destruct (lookup_channel (Transaction_hash dtx) (pc (db w))) eqn:Hl; simpl;
    [intros H; inv H; auto|].
  destruct (_ <? _); [intros H; inv H; auto|]. simpl. rewrite Hl. simpl.
  destruct zeroconf; simpl; intros H; inv H; simpl; (split; [reflexivity|]); right.
  - exists (Channel.mk (Transaction_hash dtx) READY dtx None
                       (codecs_encode_hex
                          (compressed_bytes
                             (PaymentChannelRedeemScript.merchant_public_key rs)))
                       (PaymentChannelRedeemScript.expiration_time rs) (value o) 0).
    simpl. repeat split; auto.
    unfold update_rows. rewrite map_app. simpl. rewrite String.eqb_refl.
    fold (update_rows (Transaction_hash dtx) (Channel.set_state READY) (pc (db w))).
    now rewrite update_rows_absent.
  - exists (Channel.mk (Transaction_hash dtx) CONFIRMING dtx None
                       (codecs_encode_hex
                          (compressed_bytes
                             (PaymentChannelRedeemScript.merchant_public_key rs)))
                       (PaymentChannelRedeemScript.expiration_time rs) (value o) 0).
    simpl. repeat split; auto.
Qed.

Lemma close_effect (E : Env) (d s : string) (w : World) (r : result string) (w' : World) :
  close E d s w = (r, w') ->
  pmt (db w') = pmt (db w) /\
  (pc (db w') = pc (db w) \/
   pc (db w') = update_rows d (Channel.set_state CLOSED) (pc (db w))).
Proof.
  unfold close. unfold_monad.
  destruct (lookup_channel d (pc (db w))) as [ch|]; [|intros H; inv H; auto].
  destruct (try_except_TypeError _ _) as [sig|]; [|intros H; inv H; auto].
  destruct (Channel.payment_tx ch) as [ptx|]; [|intros H; inv H; auto].
  destruct (redeem_script_of ptx) as [rs|]; [|intros H; inv H; auto].
  destruct (negb _); simpl; [intros H; inv H; auto|].
  destruct (sign_half_signed_payment ptx rs) as [signed|]; [|intros H; inv H; auto].
  simpl. destruct (broadcast_tx E _) as [[]|]; simpl; intros H; inv H; auto.
Qed.

Lemma redeem_effect (t : string) (w : World) (r : result Z) (w' : World) :
  redeem t w = (r, w') ->
  pc (db w') = pc (db w) /\
  ((exists e, r = Raise e /\ w' = w) \/
   (exists p ch,
       lookup_payment t (pmt (db w)) = Some p /\
       Payment.redeemed p = false /\
       lookup_channel (Payment.deposit_txid p) (pc (db w)) = Some ch /\
       Channel.state ch = READY /\
       r = Ok (Payment.amount p) /\
       pmt (db w') = mark_redeemed t (pmt (db w)))).
Proof.
  unfold redeem, pmt_redeem. unfold_monad.
  destruct (lookup_payment t (pmt (db w))) as [p|] eqn:Hp; [|intros H; inv H; eauto].
  destruct (lookup_channel (Payment.deposit_txid p) (pc (db w))) as [ch|] eqn:Hc;
    [|intros H; inv H; eauto].
  destruct (Channel.state ch) eqn:Hs; simpl; try (intros H; inv H; eauto; fail).
  rewrite Hp. destruct (Payment.redeemed p) eqn:Hr; simpl; intros H; inv H; simpl.
  - eauto.
  - split; [reflexivity|]. right. exists p, ch. auto 10.
Qed.

(** What one call does to the channel table: the rows keep their key and
    do not go back in state; [open], and only [open], may add one row,
    under a key that was absent, in state CONFIRMING, or READY with
    zeroconf. *)
Lemma exec_channels (E : Env) (c : Call) (w : World) :
  unique_keys (pc (db w)) ->
  exists rows1 extra,
    pc (db (snd (exec E c w))) = (rows1 ++ extra)%list /\
    Forall2 state_advances (pc (db w)) rows1 /\
    (extra = [] \/
     exists c0 a b,
       extra = [c0] /\ c = call_open a b /\
       lookup_channel (Channel.deposit_txid c0) (pc (db w)) = None /\
       Channel.state c0 = (if zeroconf then READY else CONFIRMING)).
Proof.
  intros Hu.
  assert (Hrefl : Forall2 state_advances (pc (db w)) (pc (db w))).
  { rewrite <- (map_id (pc (db w))) at 2. apply Forall2_map_right.
    intros; apply state_advances_refl. }
  destruct c as [a b|d hex|d|d s|t|]; simpl.
  - destruct (open E a b w) as [r w'] eqn:H.
    destruct (open_effect _ _ _ _ _ _ H) as (_ & [Hr|(c0 & Hl & _ & Hs & Hr)]).
    + exists (pc (db w)), []. destruct r; simpl; rewrite Hr, app_nil_r; auto.
    + exists (pc (db w)), [c0]. destruct r; simpl; rewrite Hr; repeat split; auto;
        right; exists c0, a, b; auto.
  - destruct (receive_payment_cases E d hex w) as [[e He]|[Hpr|Hok]].
    + rewrite He. simpl. exists (pc (db w)), []. rewrite app_nil_r. auto.
    + destruct Hpr as (e & tx & ch & _ & Hl & Hst & _ & He). rewrite He. simpl.
      exists (update_rows d (Channel.set_state READY) (pc (db w))), [].
      rewrite app_nil_r. repeat split; auto.
      apply update_rows_related; [apply state_advances_refl | exact Hu |].
      intros c' Hc'. rewrite Hl in Hc'. inv Hc'. split; [reflexivity|].
      rewrite Hst. simpl. lia.
    + destruct Hok as (tx & ch & mpk & rs & sig & ptx & amt & w1 & _ & Hl & _ & _ & Hw1 & _ & Hr).
      rewrite Hr. simpl.
      exists (update_rows d (Channel.set_payment ptx amt) (pc (db w1))), [].
      rewrite app_nil_r. repeat split; auto.
      assert (H1 : Forall2 state_advances (pc (db w)) (pc (db w1))).
      { destruct Hw1 as [[-> _]|[-> Hst]]; [exact Hrefl|]. simpl.
        apply update_rows_related; [apply state_advances_refl | exact Hu |].
        intros c' Hc'. rewrite Hl in Hc'. inv Hc'. split; [reflexivity|].
        rewrite Hst. simpl. lia. }
      eapply Forall2_trans_rel; [apply state_advances_trans | exact H1 |].
      unfold update_rows. apply Forall2_map_right. intros x _.
      destruct (String.eqb (Channel.deposit_txid x) d);
        [split; reflexivity | apply state_advances_refl].
  - unfold status. unfold_monad.
    destruct (lookup_channel d (pc (db w))); simpl;
      exists (pc (db w)), []; rewrite app_nil_r; auto.
  - destruct (close E d s w) as [r w'] eqn:H.
    destruct (close_effect _ _ _ _ _ _ H) as (_ & [Hr|Hr]).
    + exists (pc (db w)), []. destruct r; simpl; rewrite Hr, app_nil_r; auto.
    + exists (update_rows d (Channel.set_state CLOSED) (pc (db w))), [].
      destruct r; simpl; rewrite Hr, app_nil_r; repeat split; auto;
        (apply update_rows_related; [apply state_advances_refl | exact Hu |];
         intros c' _; split; [reflexivity|]; destruct (Channel.state c'); simpl; lia).
  - destruct (redeem t w) as [r w'] eqn:H.
    destruct (redeem_effect _ _ _ _ H) as (Hr & _).
    exists (pc (db w)), []. destruct r; simpl; rewrite Hr, app_nil_r; auto.
  - destruct (sync E w) as [r w'] eqn:H.
    destruct (sync_rows E w r w' Hu H) as (_ & Hf).
    exists (pc (db w')), []. destruct r; simpl; rewrite app_nil_r; repeat split; auto;
      eapply Forall2_weaken; try exact Hf; apply channel_advances_state.
Qed.

Lemma exec_unique_keys (E : Env) (c : Call) (w : World) :
  unique_keys (pc (db w)) -> unique_keys (pc (db (snd (exec E c w)))).
Proof.
  intros Hu. destruct (exec_channels E c w Hu) as (rows1 & extra & Hr & Hf & Hx).
  unfold unique_keys in *. rewrite Hr, map_app.
  rewrite (Forall2_state_advances_keys _ _ Hf).
  destruct Hx as [->|(c0 & a & b & -> & _ & Hl & _)].
  - simpl. now rewrite app_nil_r.
  - simpl. apply NoDup_app; [exact Hu | constructor; [intros [] | constructor] |].
    intros k Hin [<-|[]].
    apply in_map_iff in Hin. destruct Hin as (x & Hk & Hin).
    exact (lookup_channel_absent _ _ Hl x Hin Hk).
Qed.

(** The primary key of the channel table holds in every reachable world. *)
Lemma reachable_unique_keys (w : World) : reachable w -> unique_keys (pc (db w)).
Proof.
  induction 1 as [|w E c Hr IH].
  - constructor.
  - now apply exec_unique_keys.
Qed.

End Effects.

(** *** State monotonicity *)

Section StateMonotone.
Context {L : BitcoinLib} {Wl : Wallet} {C : Config}.

(** C9.  Across every operation of the server (open, receive_payment,
    status, close, redeem, sync), from any reachable world, the state of
    every channel moves along CONFIRMING, READY, CLOSED and never back: a
    READY channel does not become CONFIRMING, a CLOSED channel stays
    CLOSED, no channel disappears; and a channel that appears is created by
    [open], in state CONFIRMING, or directly READY with zeroconf. *)
Theorem state_transitions_monotone (E : Env) (c : Call) (w : World) :
  reachable w ->
  (forall d ch,
      lookup_channel d (pc (db w)) = Some ch ->
      exists ch',
        lookup_channel d (pc (db (snd (exec E c w)))) = Some ch' /\
        (state_rank (Channel.state ch) <= state_rank (Channel.state ch'))%nat /\
        (Channel.state ch = READY -> Channel.state ch' <> CONFIRMING) /\
        (Channel.state ch = CLOSED -> Channel.state ch' = CLOSED)) /\
  (forall d ch',
      lookup_channel d (pc (db w)) = None ->
      lookup_channel d (pc (db (snd (exec E c w)))) = Some ch' ->
      (exists a b, c = call_open a b) /\
      Channel.state ch' = (if zeroconf then READY else CONFIRMING)).
Proof.
  intros Hr. pose proof (reachable_unique_keys w Hr) as Hu.
  destruct (exec_channels E c w Hu) as (rows1 & extra & Hrows & Hf & Hx).
  rewrite Hrows. split.
  - intros d ch Hl.
    pose proof (Forall2_lookup state_advances _ _ d (fun a b H => proj1 H) Hf) as H.
    rewrite Hl in H. destruct H as (ch' & Hl' & _ & Hrank).
    exists ch'. rewrite lookup_channel_app, Hl'. repeat split; auto.
    + intros Hs Hs'. rewrite Hs, Hs' in Hrank. simpl in Hrank. lia.
    + intros Hs. rewrite Hs in Hrank. destruct (Channel.state ch'); simpl in Hrank; auto; lia.
  - intros d ch' Hl Hl'.
    pose proof (Forall2_lookup state_advances _ _ d (fun a b H => proj1 H) Hf) as H.
    rewrite Hl in H. rewrite lookup_channel_app, H in Hl'.
    destruct Hx as [->|(c0 & a & b & -> & -> & _ & Hs)]; [discriminate|].
    unfold lookup_channel in Hl'. simpl in Hl'.
    destruct (String.eqb (Channel.deposit_txid c0) d); [|discriminate].
    inv Hl'. eauto.
Qed.

End StateMonotone.

(** *** The sum invariant *)

Lemma payments_total_app (d : string) (rows extra : list Payment.t) :
  payments_total d (rows ++ extra) = payments_total d rows + payments_total d extra.
Proof.
  induction rows as [|p rows IH]; simpl; [reflexivity|]. rewrite IH. lia.
Qed.

Lemma payments_total_mark_redeemed (d t : string) (rows : list Payment.t) :
  payments_total d (mark_redeemed t rows) = payments_total d rows.
Proof.
  induction rows as [|p rows IH]; simpl; [reflexivity|].
  destruct (String.eqb (Payment.payment_txid p) t); simpl; [reflexivity|].
  now rewrite IH.
Qed.

Lemma balance_of_update_state (d d' : string) (s : ChannelState) (rows : list Channel.t) :
  balance_of d (update_rows d' (Channel.set_state s) rows) = balance_of d rows.
Proof.
  unfold balance_of. rewrite lookup_update_rows by apply set_state_key.
  destruct (lookup_channel d rows) as [c|]; simpl; [|reflexivity].
  destruct (String.eqb (Channel.deposit_txid c) d'); reflexivity.
Qed.

Lemma balance_of_app_fresh (d : string) (rows : list Channel.t) (c0 : Channel.t) :
  lookup_channel (Channel.deposit_txid c0) rows = None ->
  Channel.last_payment_amount c0 = 0 ->
  balance_of d (rows ++ [c0]) = balance_of d rows.
Proof.
  intros Hl H0. unfold balance_of. rewrite lookup_channel_app.
  destruct (lookup_channel d rows) as [c|] eqn:Hd; [reflexivity|].
  unfold lookup_channel. simpl.
  destruct (String.eqb (Channel.deposit_txid c0) d); [exact H0 | reflexivity].
Qed.

Section SumInvariant.
Context {L : BitcoinLib} {Wl : Wallet} {C : Config}.

Lemma promoted_sum_invariant (d : string) (w : World) :
  sum_invariant w -> sum_invariant (promoted d w).
Proof.
  intros H d'. simpl. rewrite balance_of_update_state. apply H.
Qed.

(** An accepted payment adds one row, whose amount is the difference
    between the new and the old last payment amount of the channel. *)
Lemma with_payment_sum_invariant (d : string) (ptx : Transaction) (amt : Z)
    (ch : Channel.t) (w : World) :
  lookup_channel d (pc (db w)) = Some ch ->
  sum_invariant w ->
  sum_invariant (with_payment d ptx amt (amt - Channel.last_payment_amount ch) w).
Proof.
  intros Hl H d'. simpl. rewrite payments_total_app, (H d'). simpl.
  unfold balance_of. rewrite lookup_update_rows by apply set_payment_key.
  destruct (String.eqb d d') eqn:Hd.
  - apply String.eqb_eq in Hd. subst d'. rewrite Hl. simpl.
    rewrite (lookup_channel_key _ _ _ Hl), String.eqb_refl. simpl. lia.
  - destruct (lookup_channel d' (pc (db w))) as [c|] eqn:Hc; simpl; [|lia].
    rewrite (lookup_channel_key _ _ _ Hc).
    rewrite String.eqb_sym, Hd. lia.
Qed.

Lemma exec_sum_invariant (E : Env) (c : Call) (w : World) :
  unique_keys (pc (db w)) -> sum_invariant w -> sum_invariant (snd (exec E c w)).
Proof.
  intros Hu Hs. destruct c as [a b|d hex|d|d s|t|]; simpl.
  - destruct (open E a b w) as [r w'] eqn:H.
    destruct (open_effect _ _ _ _ _ _ H) as (Hp & [Hr|(c0 & Hl & H0 & _ & Hr)]);
      intros d'; destruct r; simpl; rewrite Hp, Hr, ?balance_of_app_fresh; auto.
  - destruct (receive_payment_cases E d hex w) as [[e He]|[Hpr|Hok]].
    + rewrite He. exact Hs.
    + destruct Hpr as (e & tx & ch & _ & _ & _ & _ & He). rewrite He. simpl.
      now apply promoted_sum_invariant.
    + destruct Hok as (tx & ch & mpk & rs & sig & ptx & amt & w1 & _ & Hl & _ & _ & Hw1 & _ & Hr).
      rewrite Hr. simpl.
      destruct Hw1 as [[-> _]|[-> _]].
      * now apply with_payment_sum_invariant.
      * assert (Hl1 : lookup_channel d (pc (db (promoted d w)))
                      = Some (Channel.set_state READY ch)).
        { simpl. rewrite lookup_update_rows by apply set_state_key. rewrite Hl. simpl.
          now rewrite (lookup_channel_key _ _ _ Hl), String.eqb_refl. }
        apply (with_payment_sum_invariant d ptx amt _ _ Hl1).
        now apply promoted_sum_invariant.
  - unfold status. unfold_monad. destruct (lookup_channel d (pc (db w))); exact Hs.
  - destruct (close E d s w) as [r w'] eqn:H.
    destruct (close_effect _ _ _ _ _ _ H) as (Hp & [Hr|Hr]);
      intros d'; destruct r; simpl; rewrite Hp, Hr, ?balance_of_update_state; auto.
  - destruct (redeem t w) as [r w'] eqn:H.
    destruct (redeem_effect _ _ _ _ H) as (Hr & [(e & -> & ->)|(p & ch & _ & _ & _ & _ & -> & Hp)]).
    + exact Hs.
    + intros d'. simpl. rewrite Hp, Hr, payments_total_mark_redeemed. apply Hs.
  - destruct (sync E w) as [r w'] eqn:H.
    destruct (sync_rows E w r w' Hu H) as (Hp & Hf).
    intros d'. destruct r; simpl; rewrite Hp, (Forall2_channel_advances_balance _ _ d' Hf);
      apply Hs.
Qed.

Lemma reachable_sum_invariant (w : World) : reachable w -> sum_invariant w.
Proof.
  induction 1 as [|w E c Hr IH].
  - intros d. reflexivity.
  - apply exec_sum_invariant; [now apply reachable_unique_keys | exact IH].
Qed.


End SumInvariant.

(** *** Monotone payments *)


Section MonotonePayments.
Context {L : BitcoinLib} {Wl : Wallet} {C : Config}.



Lemma run_reachable (calls : list (Env * Call)) :
  forall w, reachable w -> reachable (snd (run calls w)).
Proof.
  induction calls as [|[E c] calls IH]; intros w Hr; simpl; [exact Hr|].
  pose proof (reachable_exec w E c Hr) as H1.
  destruct (exec E c w) as [r w1]. simpl in H1.
  pose proof (IH w1 H1) as H2.
  destruct (run calls w1) as [rs w2]. exact H2.
Qed.




End MonotonePayments.

(** *** Redeeming a payment *)


Lemma lookup_payment_mark_redeemed (t t' : string) (rows : list Payment.t) :
  lookup_payment t (mark_redeemed t' rows) =
  if String.eqb t' t then option_map Payment.set_redeemed (lookup_payment t rows)
  else lookup_payment t rows.
Proof.
  unfold lookup_payment. induction rows as [|p rows IH]; simpl.
  - destruct (String.eqb t' t); reflexivity.
  - destruct (String.eqb (Payment.payment_txid p) t') eqn:Hp; simpl.
    + apply String.eqb_eq in Hp. subst t'.
      destruct (String.eqb (Payment.payment_txid p) t); reflexivity.
    + destruct (String.eqb (Payment.payment_txid p) t) eqn:Ht.
      * apply String.eqb_eq in Ht. subst t. rewrite String.eqb_sym, Hp. reflexivity.
      * exact IH.
Qed.



Section Redeem.
Context {L : BitcoinLib} {Wl : Wallet} {C : Config}.

Lemma for_each_sync_pmt (E : Env) (l : list Channel.t) :
  forall w r w', for_each l (sync_channel E) w = (r, w') -> pmt (db w') = pmt (db w).
Proof.
  induction l as [|x l IH]; intros w r w' H; simpl in H.
  - now inv H.
  - unfold bind in H. destruct (sync_channel E x w) as [[[]|e] w1] eqn:Hx.
    + destruct (sync_channel_effect E x w _ _ Hx) as (g & _ & Hp & _).
      rewrite (IH _ _ _ H). exact Hp.
    + inv H. destruct (sync_channel_effect E x w _ _ Hx) as (g & _ & Hp & _). exact Hp.
Qed.







End Redeem.

(** *** Concrete runs *)


Lemma toy_reachable_paid2 : @reachable Toy.lib Toy.wallet (Toy.config true) Toy.w_paid2.
Proof.
  unfold Toy.w_paid2, Toy.w_paid1, Toy.w_open, Toy.exec.
  repeat apply reachable_exec. apply reachable_init.
Qed.



(** C9, witness: the READY channel that has accepted two payments is
    closed by [close], and READY comes before CLOSED. *)
Lemma state_transitions_monotone_witness :
  lookup_channel "f0-100000" (pc (db Toy.w_paid2)) = Some Toy.row_paid2 /\
  exists ch',
    lookup_channel "f0-100000" (pc (db Toy.w_closed)) = Some ch' /\
    (state_rank (Channel.state Toy.row_paid2) <= state_rank (Channel.state ch'))%nat /\
    (Channel.state Toy.row_paid2 = READY -> Channel.state ch' <> CONFIRMING) /\
    (Channel.state Toy.row_paid2 = CLOSED -> Channel.state ch' = CLOSED).
Proof.
  split; [reflexivity|].
  exact (proj1 (@state_transitions_monotone Toy.lib Toy.wallet (Toy.config true)
                  (Toy.env false None) (call_close "f0-100000" "0203") Toy.w_paid2
                  toy_reachable_paid2)
               "f0-100000" Toy.row_paid2 eq_refl).
Defined.



(** *** Foreign spend and expiry in one pass of [sync] *)

Section SyncForeignSpend.
Context {L : BitcoinLib} {Wl : Wallet}.

(** In one turn of the loop of [sync], the test [pc.state != CLOSED] that
    guards the broadcast reads the row as it was at the start of the pass:
    when a spend of the deposit is found and the expiry is near, the channel
    is written CLOSED and its payment is signed and broadcast all the
    same. *)
Lemma sync_channel_foreign_spend (E : Env) (snap : Channel.t) (w : World)
    (ptx signed : Transaction) (rs : PaymentChannelRedeemScript.t) (t : string) :
  Channel.state snap = READY ->
  Channel.payment_tx snap = Some ptx ->
  redeem_script_of ptx = Ok rs ->
  lookup_spend_txid E (Channel.deposit_txid snap)
    (output_index_for_address (Channel.deposit_tx snap) (RedeemScript_hash160 rs))
    = Ok (Some t) ->
  t <> "" ->
  float_gt (Qplus (time_time E) (inject_Z EXP_TIME_BUFFER))
           (inject_Z (Channel.expires_at snap)) = true ->
  sign_half_signed_payment ptx rs = Ok signed ->
  broadcast_tx E (Transaction_to_hex signed) = Ok tt ->
  exists w',
    sync_channel E snap w = (Ok tt, w') /\
    trace w' =
    (trace w ++ [ev_pc_update_state (Channel.deposit_txid snap) CLOSED;
                 ev_sign_half_signed_payment signed;
                 ev_broadcast_tx (Transaction_to_hex signed);
                 ev_pc_update_payment (Channel.deposit_txid snap) signed
                                      (Channel.last_payment_amount snap);
                 ev_pc_update_state (Channel.deposit_txid snap) CLOSED])%list.
Proof.
  intros Hs Hp Hr Hl Ht Hf Hsg Hb.
  apply String.eqb_neq in Ht.
  unfold sync_channel. rewrite Hs, Hp. simpl. unfold_monad. simpl.
  rewrite Hr, Hl. simpl. rewrite Ht. simpl. rewrite Hf, Hsg, Hb. simpl.
  eexists. split; [reflexivity|]. simpl. rewrite <- !app_assoc. reflexivity.
Qed.

End SyncForeignSpend.

(** C2, on the code: a READY channel with a stored payment whose deposit
    is reported spent by [lookup_spend_txid], while the expiry 1003599 is
    within EXP_TIME_BUFFER of the clock 1000000.5.  The pass of [sync]
    writes CLOSED and then, in the same pass, signs the payment and calls
    [broadcast_tx] for that channel. *)
Theorem sync_foreign_spend_still_broadcasts :
  lookup_channel "f1-100000" (pc (db Toy.w_expiring)) = Some Toy.row_expiring /\
  Channel.state Toy.row_expiring = READY /\
  Channel.payment_tx Toy.row_expiring <> None /\
  lookup_spend_txid (Toy.env false (Some "foreign")) "f1-100000" (Some 0%nat)
    = Ok (Some "foreign") /\
  float_gt (Qplus (time_time (Toy.env false (Some "foreign"))) (inject_Z EXP_TIME_BUFFER))
           (inject_Z (Channel.expires_at Toy.row_expiring)) = true /\
  fst (Toy.sync (Toy.env false (Some "foreign")) Toy.w_expiring) = Ok tt /\
  trace (snd (Toy.sync (Toy.env false (Some "foreign")) Toy.w_expiring)) =
    (trace Toy.w_expiring
       ++ [ev_pc_update_state "f1-100000" CLOSED;
           ev_sign_half_signed_payment Toy.signed_payment_f1;
           ev_broadcast_tx "f1-100000:020901.010701.0102000f504f/5000:01,94000:02";
           ev_pc_update_payment "f1-100000" Toy.signed_payment_f1 5000;
           ev_pc_update_state "f1-100000" CLOSED])%list /\
  filter is_broadcast (trace Toy.w_expiring) = [] /\
  filter is_broadcast (trace (snd (Toy.sync (Toy.env false (Some "foreign")) Toy.w_expiring)))
    = [ev_broadcast_tx "f1-100000:020901.010701.0102000f504f/5000:01,94000:02"].
Proof.
  repeat split; try reflexivity. discriminate.
Qed.

(* ===================================================================== *)
(** ** Further properties of the server                                    *)
(* ===================================================================== *)

(** *** Hexadecimal round trip *)

Lemma hex_byte_round_trip (x : Byte.byte) :
  hex_digit_value (hex_digit_char (Byte.to_N x / 16)) = Some (Byte.to_N x / 16)%N /\
  hex_digit_value (hex_digit_char (Byte.to_N x mod 16)) = Some (Byte.to_N x mod 16)%N /\
  byte_of_N (16 * (Byte.to_N x / 16) + Byte.to_N x mod 16) = x /\
  (N_of_ascii (hex_digit_char (Byte.to_N x / 16)) <? 128)%N = true /\
  (N_of_ascii (hex_digit_char (Byte.to_N x mod 16)) <? 128)%N = true.
Proof. destruct x; vm_compute; repeat split; reflexivity. Qed.

Lemma a2b_hex_encode (b : bytes) : a2b_hex (codecs_encode_hex b) = Some b.
Proof.
  induction b as [|x b IH]; [reflexivity|].
  destruct (hex_byte_round_trip x) as (H1 & H2 & H3 & _).
  cbn [codecs_encode_hex a2b_hex]. rewrite H1, H2, IH, H3. reflexivity.
Qed.

Lemma is_ascii_only_encode (b : bytes) : is_ascii_only (codecs_encode_hex b) = true.
Proof.
  induction b as [|x b IH]; [reflexivity|].
  destruct (hex_byte_round_trip x) as (_ & _ & _ & H4 & H5).
  cbn [codecs_encode_hex is_ascii_only]. rewrite H4, H5, IH. reflexivity.
Qed.

Lemma length_encode_even (b : bytes) : Nat.odd (String.length (codecs_encode_hex b)) = false.
Proof.
  induction b as [|x b IH]; [reflexivity|].
  cbn [codecs_encode_hex String.length]. rewrite Nat.odd_succ, Nat.even_succ. exact IH.
Qed.

(** What [codecs.encode(b, 'hex_codec')] writes, [codecs.decode] reads
    back. *)
Lemma codecs_decode_encode_hex (b : bytes) :
  codecs_decode_hex (codecs_encode_hex b) = Ok b.
Proof.
  unfold codecs_decode_hex.
  rewrite is_ascii_only_encode, length_encode_even, a2b_hex_encode. reflexivity.
Qed.

(** *** [identify], [open] and [status] *)

Section OpenExtras.
Context {L : BitcoinLib} {Wl : Wallet} {C : Config}.

(** X1.  The public key that [identify] publishes is the hexadecimal of
    the wallet's payout key: decoded, it gives back the compressed bytes of
    that key; the version is 2 and the flag is the server's. *)
Theorem identify_public_key_decodes :
  codecs_decode_hex (fst (fst identify)) = Ok (compressed_bytes get_payout_public_key) /\
  snd (fst identify) = 2 /\
  snd identify = zeroconf.
Proof.
  unfold identify. simpl. split; [apply codecs_decode_encode_hex | split; reflexivity].
Qed.

(** All that a successful [open] has checked and done. *)
Lemma open_Ok_inv (E : Env) (a b : string) (w : World) (txid : string) (w' : World) :
  open E a b w = (Ok txid, w') ->
  exists dtx rsb rs index output,
    Transaction_from_hex a = Ok dtx /\
    codecs_decode_hex b = Ok rsb /\
    RedeemScript_from_bytes (Bytes rsb) = Ok rs /\
    output_index_for_address dtx (RedeemScript_hash160 rs) = Some index /\
    nth_error (outputs dtx) index = Some output /\
    validate_public_key (PaymentChannelRedeemScript.merchant_public_key rs) = true /\
    lookup_channel (Transaction_hash dtx) (pc (db w)) = None /\
    int_of_float (time_time E) + MIN_EXP_TIME - 1
      <= PaymentChannelRedeemScript.expiration_time rs /\
    txid = Transaction_hash dtx /\
    pmt (db w') = pmt (db w) /\
    pc (db w') =
      (pc (db w)
         ++ [Channel.mk (Transaction_hash dtx) (if zeroconf then READY else CONFIRMING)
               dtx None
               (codecs_encode_hex
                  (compressed_bytes (PaymentChannelRedeemScript.merchant_public_key rs)))
               (PaymentChannelRedeemScript.expiration_time rs) (value output) 0])%list /\
    trace w' =
      (trace w ++ ev_pc_create (Transaction_hash dtx)
         :: (if zeroconf then [ev_pc_update_state (Transaction_hash dtx) READY] else []))%list.
Proof.
  unfold open, pc_create. unfold_monad.
  destruct (Transaction_from_hex a) as [dtx|] eqn:Hp; [|discriminate].
  destruct (codecs_decode_hex b) as [rsb|] eqn:Hd; [|discriminate].
  destruct (RedeemScript_from_bytes (Bytes rsb)) as [rs|] eqn:Hr; [|discriminate].
  destruct (output_index_for_address dtx (RedeemScript_hash160 rs)) as [i|] eqn:Hi;
    [|discriminate].
  unfold getitem.
  destruct (nth_error (outputs dtx) i) as [o|] eqn:Ho; [|discriminate].
  destruct (validate_public_key _) eqn:Hv; simpl; [|discriminate].
  destruct (lookup_channel (Transaction_hash dtx) (pc (db w))) eqn:Hl; simpl; [discriminate|].
  destruct (_ <? _) eqn:Ht; simpl; [discriminate|]. rewrite Hl. simpl.
  apply Z.ltb_ge in Ht.
  destruct zeroconf; simpl; intros H; inv H; simpl;
    exists dtx, rsb, rs, i, o; repeat split; auto.
  - unfold update_rows. rewrite map_app. simpl. rewrite String.eqb_refl.
    fold (update_rows (Transaction_hash dtx) (Channel.set_state READY) (pc (db w))).
    now rewrite update_rows_absent.
  - now rewrite <- app_assoc.
Qed.

(** X2.  [open] writes nothing unless it returns: when it raises, the
    store and the trace are as before.  And when the three parsers have
    returned, what it raises is a [BadTransactionError] or a
    [TransactionVerificationError]. *)
Theorem open_raises_without_writing (E : Env) (a b : string) (w w' : World) (e : exn) :
  open E a b w = (Raise e, w') ->
  w' = w /\
  (forall dtx rsb rs,
      Transaction_from_hex a = Ok dtx ->
      codecs_decode_hex b = Ok rsb ->
      RedeemScript_from_bytes (Bytes rsb) = Ok rs ->
      is_BadTransactionError e = true \/ is_TransactionVerificationError e = true).
Proof.
  intros H. split.
  - revert H. unfold open, pc_create. unfold_monad.
    destruct (Transaction_from_hex a) as [dtx|]; [|intros H; now inv H].
    destruct (codecs_decode_hex b) as [rsb|]; [|intros H; now inv H].
    destruct (RedeemScript_from_bytes (Bytes rsb)) as [rs|]; [|intros H; now inv H].
    destruct (output_index_for_address dtx (RedeemScript_hash160 rs)) as [i|] eqn:Hi;
      [|intros H; now inv H].
    destruct (getitem (outputs dtx) i); [|intros H; now inv H].
    destruct (validate_public_key _); simpl; [|intros H; now inv H].
    destruct (lookup_channel (Transaction_hash dtx) (pc (db w))) eqn:Hl; simpl;
      [intros H; now inv H|].
    destruct (_ <? _); simpl; [intros H; now inv H|]. rewrite Hl. simpl.
    destruct zeroconf; simpl; discriminate.
  - intros dtx rsb rs Hp Hd Hr. revert H. unfold open, pc_create. unfold_monad.
    rewrite Hp, Hd, Hr.
    destruct (output_index_for_address dtx (RedeemScript_hash160 rs)) as [i|] eqn:Hi;
      [|intros H; inv H; auto].
    destruct (output_index_for_address_in_range _ _ _ Hi) as [o Ho].
    unfold getitem. rewrite Ho.
    destruct (validate_public_key _); simpl; [|intros H; inv H; auto].
    destruct (lookup_channel (Transaction_hash dtx) (pc (db w))) eqn:Hl; simpl;
      [intros H; inv H; auto|].
    destruct (_ <? _); simpl; [intros H; inv H; auto|]. rewrite Hl. simpl.
    destruct zeroconf; simpl; discriminate.
Qed.

(** X3.  After a successful [open] the store holds one more channel,
    under the hash of the deposit, which was absent before: it carries the
    deposit, the value of the output that pays the script hash, the expiry
    of the script and the merchant key in hexadecimal (which decodes to the
    key's bytes), no payment and a balance of 0; the other rows and the
    payments are untouched; and [status] of the returned id then gives the
    state (READY with zeroconf, else CONFIRMING), 0 and the expiry. *)
Theorem open_then_status (E : Env) (a b : string) (w : World) (txid : string) (w' : World) :
  open E a b w = (Ok txid, w') ->
  exists dtx rs output ch,
    Transaction_from_hex a = Ok dtx /\
    txid = Transaction_hash dtx /\
    lookup_channel txid (pc (db w)) = None /\
    ch = Channel.mk txid (if zeroconf then READY else CONFIRMING) dtx None
           (codecs_encode_hex
              (compressed_bytes (PaymentChannelRedeemScript.merchant_public_key rs)))
           (PaymentChannelRedeemScript.expiration_time rs) (value output) 0 /\
    In output (outputs dtx) /\
    Script_pays_to (out_script output) (RedeemScript_hash160 rs) = true /\
    codecs_decode_hex (Channel.merchant_pubkey ch)
      = Ok (compressed_bytes (PaymentChannelRedeemScript.merchant_public_key rs)) /\
    pc (db w') = (pc (db w) ++ [ch])%list /\
    pmt (db w') = pmt (db w) /\
    lookup_channel txid (pc (db w')) = Some ch /\
    status txid w' =
      (Ok (if zeroconf then READY else CONFIRMING, 0,
           PaymentChannelRedeemScript.expiration_time rs), w').
Proof.
  intros H.
  destruct (open_Ok_inv _ _ _ _ _ _ H)
    as (dtx & rsb & rs & i & o & Hp & Hd & Hr & Hi & Ho & Hv & Hl & Ht & -> & Hpm & Hpc & Htr).
  assert (Hlk : lookup_channel (Transaction_hash dtx) (pc (db w')) =
                Some (Channel.mk (Transaction_hash dtx)
                        (if zeroconf then READY else CONFIRMING) dtx None
                        (codecs_encode_hex
                           (compressed_bytes
                              (PaymentChannelRedeemScript.merchant_public_key rs)))
                        (PaymentChannelRedeemScript.expiration_time rs) (value o) 0)).
  { rewrite Hpc, lookup_channel_app, Hl. unfold lookup_channel. simpl.
    now rewrite String.eqb_refl. }
  eexists dtx, rs, o, _. repeat split; eauto.
  - eapply nth_error_In; eauto.
  - clear - Hi Ho. unfold output_index_for_address in Hi.
    assert (G : forall outs k j,
               output_index_from outs (RedeemScript_hash160 rs) k = Some j ->
               forall o', nth_error outs (j - k) = Some o' ->
                          Script_pays_to (out_script o') (RedeemScript_hash160 rs) = true).
    { induction outs as [|x outs IH]; intros k j Hk o' Hn; simpl in Hk; [discriminate|].
      destruct (Script_pays_to (out_script x) (RedeemScript_hash160 rs)) eqn:Hx.
      - inv Hk. rewrite Nat.sub_diag in Hn. simpl in Hn. now inv Hn.
      - pose proof (output_index_from_in_range _ _ _ _ Hk) as [Hle _].
        replace (j - k)%nat with (S (j - S k)) in Hn by lia. simpl in Hn. eauto. }
    apply (G _ _ _ Hi). now rewrite Nat.sub_0_r.
  - simpl. apply codecs_decode_encode_hex.
  - unfold status. unfold_monad. rewrite Hlk. reflexivity.
Qed.

(** X4.  A deposit opens one channel only: after a successful [open], a
    second [open] with the same arguments, at any time, raises
    [BadTransactionError] and changes nothing. *)
Theorem open_twice_rejected (E E2 : Env) (a b : string) (w : World) (txid : string)
    (w' : World) :
  open E a b w = (Ok txid, w') ->
  open E2 a b w' =
  (Raise (BadTransactionError "That deposit has already been used to create a channel."),
   w').
Proof.
  intros H.
  destruct (open_Ok_inv _ _ _ _ _ _ H)
    as (dtx & rsb & rs & i & o & Hp & Hd & Hr & Hi & Ho & Hv & Hl & Ht & -> & Hpm & Hpc & Htr).
  unfold open. unfold_monad. rewrite Hp, Hd, Hr, Hi. unfold getitem. rewrite Ho, Hv. simpl.
  rewrite Hpc, lookup_channel_app, Hl. unfold lookup_channel. simpl.
  rewrite String.eqb_refl. reflexivity.
Qed.

End OpenExtras.

(** *** Unknown identifiers *)

Section UnknownIds.
Context {L : BitcoinLib} {Wl : Wallet} {C : Config}.

(** X5.  A deposit_txid that the store does not hold makes [status],
    [close] (whatever the signature string, which is not even decoded) and
    [receive_payment] (once the transaction has parsed) raise
    [PaymentChannelNotFoundError]; so does [redeem] for a payment_txid that
    is not stored, or whose channel is gone.  None of them writes
    anything. *)
Theorem unknown_ids_not_found (E : Env) (d : string) (w : World) :
  lookup_channel d (pc (db w)) = None ->
  status d w = (Raise (PaymentChannelNotFoundError "Related channel not found."), w) /\
  (forall s, close E d s w
             = (Raise (PaymentChannelNotFoundError "Related channel not found."), w)) /\
  (forall hex tx,
      Transaction_from_hex hex = Ok tx ->
      receive_payment E d hex w
      = (Raise (PaymentChannelNotFoundError "Related channel not found."), w)) /\
  (forall t p,
      lookup_payment t (pmt (db w)) = Some p -> Payment.deposit_txid p = d ->
      redeem t w = (Raise (PaymentChannelNotFoundError "Channel not found."), w)) /\
  (forall t,
      lookup_payment t (pmt (db w)) = None ->
      redeem t w = (Raise (PaymentChannelNotFoundError "Payment not found."), w)).
Proof.
  intros Hl. repeat split.
  - unfold status. unfold_monad. now rewrite Hl.
  - intros s. unfold close. unfold_monad. now rewrite Hl.
  - intros hex tx Hp. unfold receive_payment. unfold_monad. now rewrite Hp, Hl.
  - intros t p Hp Hd. unfold redeem. unfold_monad. now rewrite Hp, Hd, Hl.
  - intros t Hp. unfold redeem. unfold_monad. now rewrite Hp.
Qed.

End UnknownIds.

(** *** What an accepted payment has passed *)

Section AcceptedPayment.
Context {L : BitcoinLib} {Wl : Wallet} {C : Config}.

Lemma validate_template_3 (s : Script) (op : string) :
  Script_validate_template s [T_bytes; T_op op; T_bytes] = true ->
  exists a b, s = [Bytes a; Str op; Bytes b].
Proof.
  destruct s as [|[a|?] [|[?|x] [|[b|?] [|? ?]]]]; simpl; intros H;
    try discriminate;
    destruct (String.eqb x op) eqn:Hx; simpl in H; try discriminate.
  apply String.eqb_eq in Hx. subst. eauto.
Qed.

(** All that the checks on the script of input 0 have established when
    they pass. *)
Lemma check_payment_script_Ok_inv (ch : Channel.t) (tx : Transaction) (mpk : PublicKey)
    (rs : PaymentChannelRedeemScript.t) (sig : Signature) :
  check_payment_script ch tx = Ok (mpk, rs, sig) ->
  exists input0 s0 op s2,
    nth_error (inputs tx) 0 = Some input0 /\
    script input0 = [Bytes s0; Str op; Bytes s2] /\
    (op = "OP_1" \/ op = "OP_TRUE") /\
    PublicKey_from_hex (Channel.merchant_pubkey ch) = Ok mpk /\
    RedeemScript_from_bytes (Bytes s2) = Ok rs /\
    PublicKey_to_hex (PaymentChannelRedeemScript.merchant_public_key rs)
      = PublicKey_to_hex mpk /\
    Signature_from_der (Bytes (removelast s0)) = Ok sig /\
    PublicKey_verify (PaymentChannelRedeemScript.customer_public_key rs)
      (Hash_dhash (Transaction_bytes (Transaction_copy_for_sig tx 0 SIG_HASH_ALL rs)
                     ++ pack_u32 SIG_HASH_ALL)%list)
      sig false = true.
Proof.
  unfold check_payment_script, result_bind, getitem.
  destruct (PublicKey_from_hex (Channel.merchant_pubkey ch)) as [k|] eqn:Hk; [|discriminate].
  destruct (nth_error (inputs tx) 0) as [i0|] eqn:Hi; [|discriminate].
  destruct (getitem_last (script i0)) as [sl|] eqn:Hsl; [|discriminate].
  destruct (RedeemScript_from_bytes sl) as [r|] eqn:Hr; [|discriminate].
  destruct (negb (String.eqb _ _)) eqn:Hm; [discriminate|].
  destruct (nth_error (script i0) 0) as [sf|] eqn:Hsf; [|discriminate].
  destruct (Signature_from_der (slice_but_last sf)) as [sg|] eqn:Hsg; [|discriminate].
  destruct (negb (PublicKey_verify _ _ _ _)) eqn:Hv; [discriminate|].
  destruct (negb (Nat.eqb _ _)); [discriminate|].
  destruct (negb (Script_validate_template (script i0) [T_bytes; T_op "OP_1"; T_bytes])
            && negb (Script_validate_template (script i0) [T_bytes; T_op "OP_TRUE"; T_bytes]))
    eqn:Ht; [discriminate|].
  intros H. inv H.
  apply negb_false_iff in Hm, Hv. apply String.eqb_eq in Hm.
  apply andb_false_iff in Ht.
  assert (Hshape : exists a op b, script i0 = [Bytes a; Str op; Bytes b] /\
                                  (op = "OP_1" \/ op = "OP_TRUE")).
  { destruct Ht as [Ht|Ht]; apply negb_false_iff in Ht;
      apply validate_template_3 in Ht; destruct Ht as (a & b & Hs); eauto 10. }
  destruct Hshape as (a & op & b & Hs & Hop).
  rewrite Hs in Hsl, Hsf. unfold getitem_last in Hsl. simpl in Hsl, Hsf. inv Hsl. inv Hsf.
  exists i0, a, op, b. repeat split; auto.
Qed.

Lemma first_below_dust_none_inv (outs : list TransactionOutput) (i : nat) :
  first_below_dust outs i = None -> forall o, In o outs -> DUST_LIMIT <= value o.
Proof.
  revert i. induction outs as [|x outs IH]; intros i H o Hin; [contradiction|].
  simpl in H. destruct (value x <? DUST_LIMIT) eqn:Hx; [discriminate|].
  destruct Hin as [<-|Hin]; [now apply Z.ltb_ge | eauto].
Qed.

(** All that the checks on the outputs have established when they pass. *)
Lemma check_payment_outputs_Ok_inv (ch : Channel.t) (tx : Transaction) (mpk : PublicKey)
    (rs : PaymentChannelRedeemScript.t) (sig : Signature) (ptx : Transaction) (amt : Z) :
  check_payment_outputs ch tx mpk rs sig = Ok (ptx, amt) ->
  exists index output unsigned,
    output_index_for_address tx (PublicKey_hash160 mpk) = Some index /\
    nth_error (outputs tx) index = Some output /\
    amt = value output /\
    Channel.last_payment_amount ch < amt /\
    (forall o, In o (outputs tx) -> DUST_LIMIT <= value o) /\
    MIN_TX_FEE <= Channel.amount ch - sum_values (outputs tx) /\
    RedeemScript_to_hex rs
      = RedeemScript_to_hex
          (PaymentChannelRedeemScript.mk mpk
             (PaymentChannelRedeemScript.customer_public_key rs) (Channel.expires_at ch)) /\
    create_unsigned_payment_tx (Channel.deposit_tx ch) rs amt
      (Channel.amount ch - sum_values (outputs tx)) = Ok unsigned /\
    set_input0_script unsigned
      [Bytes (Signature_to_der sig ++ pack_compact_int SIG_HASH_ALL)%list; Str "OP_1";
       Bytes (RedeemScript_bytes rs)] = Ok ptx /\
    Transaction_to_hex tx = Transaction_to_hex ptx.
Proof.
  unfold check_payment_outputs, result_bind, getitem.
  destruct (output_index_for_address tx (PublicKey_hash160 mpk)) as [index|]; [|discriminate].
  rewrite check_dust_limit_first.
  destruct (first_below_dust (outputs tx) 0) as [j|] eqn:Hd; [discriminate|].
  destruct (nth_error (outputs tx) index) as [output|] eqn:Hn; [|discriminate].
  destruct (value output <=? Channel.last_payment_amount ch) eqn:Hm; [discriminate|].
  destruct (Channel.amount ch - sum_values (outputs tx) <? MIN_TX_FEE) eqn:Hf;
    [discriminate|].
  destruct (negb (String.eqb (RedeemScript_to_hex rs) _)) eqn:Hrs; [discriminate|].
  destruct (create_unsigned_payment_tx _ _ _ _) as [ptx0|] eqn:Hc; [|discriminate].
  destruct (set_input0_script ptx0 _) as [ptx1|] eqn:Hset; [|discriminate].
  destruct (negb (String.eqb (Transaction_to_hex tx) _)) eqn:Hh; [discriminate|].
  intros H. inv H. exists index, output, ptx0.
  apply Z.leb_gt in Hm. apply Z.ltb_ge in Hf.
  apply negb_false_iff in Hh, Hrs. apply String.eqb_eq in Hh, Hrs.
  repeat split; auto. now apply (first_below_dust_none_inv _ 0).
Qed.

(** X6.  [receive_payment] accepts no payment whose script of input 0 is
    not of the expected shape: an accepted payment has exactly three items
    there, a signature, the opcode OP_1 or OP_TRUE, and a redeem script
    that parses and carries the merchant key stored with the channel; and
    the customer key of that script has verified the signature (less its
    last byte) over the SIGHASH_ALL digest of the transaction. *)
Theorem accepted_payment_script (E : Env) (d hex : string) (w : World)
    (txid : string) (w' : World) :
  receive_payment E d hex w = (Ok txid, w') ->
  exists tx ch input0 s0 op s2 mpk rs sig,
    Transaction_from_hex hex = Ok tx /\
    lookup_channel d (pc (db w)) = Some ch /\
    nth_error (inputs tx) 0 = Some input0 /\
    script input0 = [Bytes s0; Str op; Bytes s2] /\
    (op = "OP_1" \/ op = "OP_TRUE") /\
    PublicKey_from_hex (Channel.merchant_pubkey ch) = Ok mpk /\
    RedeemScript_from_bytes (Bytes s2) = Ok rs /\
    PublicKey_to_hex (PaymentChannelRedeemScript.merchant_public_key rs)
      = PublicKey_to_hex mpk /\
    Signature_from_der (Bytes (removelast s0)) = Ok sig /\
    PublicKey_verify (PaymentChannelRedeemScript.customer_public_key rs)
      (Hash_dhash (Transaction_bytes (Transaction_copy_for_sig tx 0 SIG_HASH_ALL rs)
                     ++ pack_u32 SIG_HASH_ALL)%list)
      sig false = true.
Proof.
  intros H.
  destruct (receive_payment_cases E d hex w) as [[e He]|[Hpr|Hok]].
  - rewrite He in H. discriminate.
  - destruct Hpr as (e & tx & ch & _ & _ & _ & _ & He). rewrite He in H. discriminate.
  - destruct Hok as (tx & ch & mpk & rs & sig & ptx & amt & w1 & Hp & Hl & Hs & _).
    destruct (check_payment_script_Ok_inv _ _ _ _ _ Hs)
      as (i0 & s0 & op & s2 & H1 & H2 & H3 & H4 & H5 & H6 & H7 & H8).
    exists tx, ch, i0, s0, op, s2, mpk, rs, sig. repeat split; auto.
Qed.

(** X7.  An accepted payment leaves every output at or above the dust
    limit and a fee (the amount of the deposit less the sum of the
    outputs) of at least MIN_TX_FEE; its redeem script serialises as the
    one rebuilt from the stored merchant key and expiry; the transaction
    stored is the wallet's unsigned payment with the customer's signature,
    OP_1 and the redeem script as script of input 0, and it serialises
    exactly as the transaction received.  The id returned is the hash of
    the stored transaction, which is the channel's payment_tx from then
    on, and the payment row created carries it. *)
Theorem accepted_payment_outputs (E : Env) (d hex : string) (w : World)
    (txid : string) (w' : World) :
  receive_payment E d hex w = (Ok txid, w') ->
  exists tx ch ch' mpk rs sig unsigned ptx amt,
    Transaction_from_hex hex = Ok tx /\
    lookup_channel d (pc (db w)) = Some ch /\
    check_payment_script ch tx = Ok (mpk, rs, sig) /\
    (forall o, In o (outputs tx) -> DUST_LIMIT <= value o) /\
    MIN_TX_FEE <= Channel.amount ch - sum_values (outputs tx) /\
    RedeemScript_to_hex rs
      = RedeemScript_to_hex
          (PaymentChannelRedeemScript.mk mpk
             (PaymentChannelRedeemScript.customer_public_key rs) (Channel.expires_at ch)) /\
    create_unsigned_payment_tx (Channel.deposit_tx ch) rs amt
      (Channel.amount ch - sum_values (outputs tx)) = Ok unsigned /\
    set_input0_script unsigned
      [Bytes (Signature_to_der sig ++ pack_compact_int SIG_HASH_ALL)%list; Str "OP_1";
       Bytes (RedeemScript_bytes rs)] = Ok ptx /\
    Transaction_to_hex tx = Transaction_to_hex ptx /\
    txid = Transaction_hash ptx /\
    lookup_channel d (pc (db w')) = Some ch' /\
    Channel.payment_tx ch' = Some ptx /\
    Channel.state ch' = READY /\
    (Channel.deposit_tx ch', Channel.merchant_pubkey ch', Channel.expires_at ch',
     Channel.amount ch')
    = (Channel.deposit_tx ch, Channel.merchant_pubkey ch, Channel.expires_at ch,
       Channel.amount ch) /\
    pmt (db w')
    = (pmt (db w)
         ++ [Payment.mk txid d ptx (amt - Channel.last_payment_amount ch) false])%list.
Proof.
  intros H.
  destruct (receive_payment_cases E d hex w) as [[e He]|[Hpr|Hok]].
  - rewrite He in H. discriminate.
  - destruct Hpr as (e & tx & ch & _ & _ & _ & _ & He). rewrite He in H. discriminate.
  - destruct Hok as (tx & ch & mpk & rs & sig & ptx & amt & w1 & Hp & Hl & Hs & _ & Hw1 & Ho & Hr).
    rewrite Hr in H. inv H.
    destruct (check_payment_outputs_Ok_inv _ _ _ _ _ _ _ Ho)
      as (index & output & unsigned & _ & _ & _ & _ & Hdust & Hfee & Hrs & Hc & Hset & Hhex).
    assert (Hl1 : exists ch1,
               lookup_channel d (pc (db w1)) = Some ch1 /\ Channel.state ch1 = READY /\
               pmt (db w1) = pmt (db w) /\
               (Channel.deposit_tx ch1, Channel.merchant_pubkey ch1, Channel.expires_at ch1,
                Channel.amount ch1)
               = (Channel.deposit_tx ch, Channel.merchant_pubkey ch, Channel.expires_at ch,
                  Channel.amount ch)).
    { destruct Hw1 as [[-> Hst]|[-> _]]; [eauto 10|]. simpl.
      rewrite lookup_update_rows by apply set_state_key. rewrite Hl. simpl.
      rewrite (lookup_channel_key _ _ _ Hl), String.eqb_refl. eauto 10. }
    destruct Hl1 as (ch1 & Hl1 & Hst1 & Hp1 & Hf1).
    exists tx, ch, (Channel.set_payment ptx amt ch1), mpk, rs, sig, unsigned, ptx, amt.
    simpl. rewrite Hp1.
    rewrite lookup_update_rows by apply set_payment_key. rewrite Hl1. simpl.
    rewrite (lookup_channel_key _ _ _ Hl1), String.eqb_refl.
    repeat split; auto.
Qed.

Lemma check_payment_script_same_key (c1 c2 : Channel.t) (tx : Transaction) :
  Channel.merchant_pubkey c1 = Channel.merchant_pubkey c2 ->
  check_payment_script c1 tx = check_payment_script c2 tx.
Proof. intros H. unfold check_payment_script. now rewrite H. Qed.

(** X8.  A payment cannot be accepted twice: sent again right after it
    has been accepted, the same transaction is rejected, with the
    [BadTransactionError] of the comparison with the last payment amount,
    and nothing is written. *)
Theorem replayed_payment_rejected (E E2 : Env) (d hex : string) (w : World)
    (txid : string) (w' : World) :
  receive_payment E d hex w = (Ok txid, w') ->
  receive_payment E2 d hex w'
  = (Raise (BadTransactionError "Payment must be greater than 0."), w').
Proof.
  intros H.
  destruct (receive_payment_cases E d hex w) as [[e He]|[Hpr|Hok]].
  - rewrite He in H. discriminate.
  - destruct Hpr as (e & tx & ch & _ & _ & _ & _ & He). rewrite He in H. discriminate.
  - destruct Hok as (tx & ch & mpk & rs & sig & ptx & amt & w1 & Hp & Hl & Hs & _ & Hw1 & Ho & Hr).
    rewrite Hr in H. inv H.
    destruct (check_payment_outputs_Ok _ _ _ _ _ _ _ Ho)
      as (index & output & Hi & Hn & -> & _ & Hd & _).
    assert (Hl1 : exists ch1,
               lookup_channel d (pc (db w1)) = Some ch1 /\ Channel.state ch1 = READY /\
               Channel.merchant_pubkey ch1 = Channel.merchant_pubkey ch).
    { destruct Hw1 as [[-> Hst]|[-> _]]; [eauto|]. simpl.
      rewrite lookup_update_rows by apply set_state_key. rewrite Hl. simpl.
      rewrite (lookup_channel_key _ _ _ Hl), String.eqb_refl. eauto. }
    destruct Hl1 as (ch1 & Hl1 & Hst1 & Hk1).
    unfold receive_payment. unfold_monad. rewrite Hp. simpl.
    rewrite lookup_update_rows by apply set_payment_key. rewrite Hl1. simpl.
    rewrite (lookup_channel_key _ _ _ Hl1), String.eqb_refl.
    rewrite (check_payment_script_same_key _ ch) by exact Hk1. rewrite Hs.
    unfold check_channel_ready. simpl. rewrite Hst1. unfold_monad.
    unfold check_payment_outputs, result_bind, getitem.
    rewrite Hi, check_dust_limit_first, Hd, Hn. simpl.
    rewrite Z.leb_refl. reflexivity.
Qed.

End AcceptedPayment.

(** *** [close] *)

Section CloseExtras.
Context {L : BitcoinLib} {Wl : Wallet}.

Lemma close_signature_parsed (s : string) (e' : exn) (sig : Signature) :
  try_except_TypeError
    (signature_der <-- codecs_decode_hex s ;; Signature_from_der (Bytes signature_der)) e'
  = Ok sig ->
  exists der, codecs_decode_hex s = Ok der /\ Signature_from_der (Bytes der) = Ok sig.
Proof.
  unfold try_except_TypeError, result_bind.
  destruct (codecs_decode_hex s) as [der|e].
  - destruct (Signature_from_der (Bytes der)) as [sg|e] eqn:Hs.
    + intros H. inv H. eauto.
    + destruct (isinstance_TypeError e); discriminate.
  - destruct (isinstance_TypeError e); discriminate.
Qed.

(** All the ways in which [close] ends. *)
Lemma close_cases (E : Env) (d s : string) (w : World) (r : result string) (w' : World) :
  close E d s w = (r, w') ->
  (exists e, r = Raise e /\ w' = w) \/
  exists ch ptx der sig rs signed,
    lookup_channel d (pc (db w)) = Some ch /\
    Channel.payment_tx ch = Some ptx /\
    codecs_decode_hex s = Ok der /\
    Signature_from_der (Bytes der) = Ok sig /\
    redeem_script_of ptx = Ok rs /\
    PublicKey_verify (PaymentChannelRedeemScript.customer_public_key rs)
                     (str_encode d) sig true = true /\
    sign_half_signed_payment ptx rs = Ok signed /\
    ((exists e, broadcast_tx E (Transaction_to_hex signed) = Raise e /\
                r = Raise e /\
                w' = mkWorld (db w) (trace w ++ [ev_sign_half_signed_payment signed])%list) \/
     (broadcast_tx E (Transaction_to_hex signed) = Ok tt /\
      r = Ok (Transaction_hash signed) /\
      w' = closed d
             (mkWorld (db w)
                ((trace w ++ [ev_sign_half_signed_payment signed])
                   ++ [ev_broadcast_tx (Transaction_to_hex signed)])%list))).
Proof.
  unfold close. unfold_monad.
  destruct (lookup_channel d (pc (db w))) as [ch|] eqn:Hl;
    [|intros H; inv H; left; eauto].
  destruct (try_except_TypeError _ _) as [sig|e0] eqn:Hsig;
    [|intros H; inv H; left; eauto].
  destruct (close_signature_parsed _ _ _ Hsig) as (der & Hd & Hs).
  destruct (Channel.payment_tx ch) as [ptx|] eqn:Hp; [|intros H; inv H; left; eauto].
  destruct (redeem_script_of ptx) as [rs|e0] eqn:Hr; [|intros H; inv H; left; eauto].
  destruct (PublicKey_verify _ _ _ _) eqn:Hv; simpl; [|intros H; inv H; left; eauto].
  destruct (sign_half_signed_payment ptx rs) as [signed|e0] eqn:Hsg;
    [|intros H; inv H; left; eauto].
  destruct (broadcast_tx E (Transaction_to_hex signed)) as [[]|e0] eqn:Hb;
    intros H; inv H; right; exists ch, ptx, der, sig, rs, signed;
    repeat split; auto;
    first [ right; repeat split; auto; fail
          | left; exists e0; repeat split; auto ].
Qed.

(** X9.  A [close] that raises leaves the store as it was: the channel is
    not marked CLOSED.  The only trace it can leave is the signing of the
    payment, when the broadcast itself was refused, after the customer's
    signature had verified. *)
Theorem close_raises_without_closing (E : Env) (d s : string) (w w' : World) (e : exn) :
  close E d s w = (Raise e, w') ->
  db w' = db w /\
  (w' = w \/
   exists ch ptx der sig rs signed,
     lookup_channel d (pc (db w)) = Some ch /\
     Channel.payment_tx ch = Some ptx /\
     codecs_decode_hex s = Ok der /\
     Signature_from_der (Bytes der) = Ok sig /\
     redeem_script_of ptx = Ok rs /\
     PublicKey_verify (PaymentChannelRedeemScript.customer_public_key rs)
                      (str_encode d) sig true = true /\
     sign_half_signed_payment ptx rs = Ok signed /\
     broadcast_tx E (Transaction_to_hex signed) = Raise e /\
     w' = mkWorld (db w) (trace w ++ [ev_sign_half_signed_payment signed])%list).
Proof.
  intros H. destruct (close_cases _ _ _ _ _ _ H) as [(e0 & _ & ->)|Hc]; [auto|].
  destruct Hc as (ch & ptx & der & sig & rs & signed & Hl & Hp & Hd & Hs & Hr & Hv & Hsg & Hb).
  destruct Hb as [(e0 & Hb & He & ->)|(_ & He & _)]; [|discriminate].
  inv He. split; [reflexivity|]. right.
  exists ch, ptx, der, sig, rs, signed. repeat split; auto.
Qed.

(** X10.  [close] returns only for a channel with a payment, after the
    customer key of the stored payment's redeem script has verified the
    signature over the deposit_txid and the broadcast of the signed payment
    has gone through.  It returns the hash of the signed transaction; the
    channel row becomes CLOSED and is otherwise as before (the stored
    payment_tx stays the half-signed one); no other row and no payment
    changes. *)
Theorem close_returns_after_broadcast (E : Env) (d s : string) (w : World) (txid : string)
    (w' : World) :
  close E d s w = (Ok txid, w') ->
  exists ch ptx der sig rs signed,
    lookup_channel d (pc (db w)) = Some ch /\
    Channel.payment_tx ch = Some ptx /\
    codecs_decode_hex s = Ok der /\
    Signature_from_der (Bytes der) = Ok sig /\
    redeem_script_of ptx = Ok rs /\
    PublicKey_verify (PaymentChannelRedeemScript.customer_public_key rs)
                     (str_encode d) sig true = true /\
    sign_half_signed_payment ptx rs = Ok signed /\
    broadcast_tx E (Transaction_to_hex signed) = Ok tt /\
    txid = Transaction_hash signed /\
    trace w' = (trace w ++ [ev_sign_half_signed_payment signed;
                            ev_broadcast_tx (Transaction_to_hex signed);
                            ev_pc_update_state d CLOSED])%list /\
    pmt (db w') = pmt (db w) /\
    lookup_channel d (pc (db w')) = Some (Channel.set_state CLOSED ch) /\
    (forall d', d' <> d -> lookup_channel d' (pc (db w')) = lookup_channel d' (pc (db w))).
Proof.
  intros H. destruct (close_cases _ _ _ _ _ _ H) as [(e0 & He & _)|Hc]; [discriminate|].
  destruct Hc as (ch & ptx & der & sig & rs & signed & Hl & Hp & Hd & Hs & Hr & Hv & Hsg & Hb).
  destruct Hb as [(e0 & _ & He & _)|(Hb & He & ->)]; [discriminate|].
  inv He. exists ch, ptx, der, sig, rs, signed. simpl. repeat split; auto.
  - now rewrite <- !app_assoc.
  - rewrite lookup_update_rows by apply set_state_key. rewrite Hl. simpl.
    now rewrite (lookup_channel_key _ _ _ Hl), String.eqb_refl.
  - intros d' Hd'. rewrite lookup_update_rows by apply set_state_key.
    destruct (lookup_channel d' (pc (db w))) as [c|] eqn:Hl'; simpl; [|reflexivity].
    rewrite (lookup_channel_key _ _ _ Hl').
    apply String.eqb_neq in Hd'. now rewrite Hd'.
Qed.

(** X11.  What [close] rejects for a stored channel, in the order of the
    source: a signature that the DER parser refuses with a [TypeError] is
    reported as "Invalid signature provided.", even for a channel without
    a payment; with a parsed signature, a channel without a payment gives
    "No payments made in channel."; and a signature that the customer key
    does not verify gives "Invalid signature.".  Nothing is written, signed
    or broadcast in any of these cases. *)
Theorem close_rejections (E : Env) (d s : string) (w : World) (ch : Channel.t)
    (der : bytes) :
  lookup_channel d (pc (db w)) = Some ch ->
  codecs_decode_hex s = Ok der ->
  (forall msg,
      Signature_from_der (Bytes der) = Raise (TypeError msg) ->
      close E d s w
      = (Raise (TransactionVerificationError "Invalid signature provided."), w)) /\
  (forall sig,
      Signature_from_der (Bytes der) = Ok sig ->
      Channel.payment_tx ch = None ->
      close E d s w = (Raise (BadTransactionError "No payments made in channel."), w)) /\
  (forall sig ptx rs,
      Signature_from_der (Bytes der) = Ok sig ->
      Channel.payment_tx ch = Some ptx ->
      redeem_script_of ptx = Ok rs ->
      PublicKey_verify (PaymentChannelRedeemScript.customer_public_key rs)
                       (str_encode d) sig true = false ->
      close E d s w = (Raise (TransactionVerificationError "Invalid signature."), w)).
Proof.
  intros Hl Hd. repeat split.
  - intros msg Hs. unfold close. unfold_monad. rewrite Hl.
    unfold try_except_TypeError, result_bind. rewrite Hd, Hs. reflexivity.
  - intros sig Hs Hp. unfold close. unfold_monad. rewrite Hl.
    unfold try_except_TypeError, result_bind. rewrite Hd, Hs, Hp. reflexivity.
  - intros sig ptx rs Hs Hp Hr Hv. unfold close. unfold_monad. rewrite Hl.
    unfold try_except_TypeError, result_bind. rewrite Hd, Hs, Hp, Hr, Hv. reflexivity.
Qed.

End CloseExtras.

(** *** [redeem] *)

Lemma mark_redeemed_kept (t : string) (rows : list Payment.t) :
  Forall2 payment_kept rows (mark_redeemed t rows).
Proof.
  induction rows as [|p rows IH]; simpl; [constructor|].
  destruct (String.eqb (Payment.payment_txid p) t).
  - constructor.
    + unfold payment_kept. simpl. repeat split; auto.
    + clear IH. induction rows; constructor; auto.
      unfold payment_kept. repeat split; auto.
  - constructor; [|exact IH]. unfold payment_kept. repeat split; auto.
Qed.

Lemma payment_kept_refl (rows : list Payment.t) : Forall2 payment_kept rows rows.
Proof.
  induction rows; constructor; auto. unfold payment_kept. repeat split; auto.
Qed.

Section RedeemExtras.
Context {L : BitcoinLib} {Wl : Wallet}.

(** X12.  [redeem] raises only the five errors of its source, and a
    [redeem] that raises has written nothing. *)
Theorem redeem_raises_without_writing (t : string) (w w' : World) (e : exn) :
  redeem t w = (Raise e, w') ->
  w' = w /\
  (e = PaymentChannelNotFoundError "Payment not found." \/
   e = PaymentChannelNotFoundError "Channel not found." \/
   e = ChannelClosedError "Payment channel not ready." \/
   e = ChannelClosedError "Payment channel closed." \/
   e = RedeemPaymentError "Payment already redeemed.").
Proof.
  unfold redeem, pmt_redeem. unfold_monad.
  destruct (lookup_payment t (pmt (db w))) as [p|] eqn:Hp; [|intros H; inv H; auto].
  destruct (lookup_channel _ _) as [ch|]; [|intros H; inv H; auto].
  destruct (Channel.state ch); simpl; try solve [intros H; inv H; auto 10].
  rewrite Hp. destruct (Payment.redeemed p); simpl; intros H; inv H; auto 10.
Qed.

(** X13.  A [redeem] that returns has found the payment unredeemed, in a
    READY channel; it returns the amount of that payment row and marks that
    row redeemed.  Every other payment_txid looks up as before, no payment
    row changes otherwise, and the channels are untouched. *)
Theorem redeem_marks_one_payment (t : string) (w : World) (v : Z) (w' : World) :
  redeem t w = (Ok v, w') ->
  exists p ch,
    lookup_payment t (pmt (db w)) = Some p /\
    Payment.redeemed p = false /\
    lookup_channel (Payment.deposit_txid p) (pc (db w)) = Some ch /\
    Channel.state ch = READY /\
    v = Payment.amount p /\
    pc (db w') = pc (db w) /\
    trace w' = (trace w ++ [ev_pmt_redeem t])%list /\
    lookup_payment t (pmt (db w')) = Some (Payment.set_redeemed p) /\
    (forall t', t' <> t ->
                lookup_payment t' (pmt (db w')) = lookup_payment t' (pmt (db w))) /\
    Forall2 payment_kept (pmt (db w)) (pmt (db w')).
Proof.
  unfold redeem, pmt_redeem. unfold_monad.
  destruct (lookup_payment t (pmt (db w))) as [p|] eqn:Hp; [|discriminate].
  destruct (lookup_channel _ _) as [ch|] eqn:Hl; [|discriminate].
  destruct (Channel.state ch) eqn:Hs; simpl; try discriminate.
  rewrite Hp. destruct (Payment.redeemed p) eqn:Hr; simpl; [discriminate|].
  intros H. inv H. exists p, ch. simpl. repeat split; auto.
  - now rewrite lookup_payment_mark_redeemed, String.eqb_refl, Hp.
  - intros t' Ht. rewrite lookup_payment_mark_redeemed.
    apply not_eq_sym in Ht. apply String.eqb_neq in Ht. now rewrite Ht.
  - apply mark_redeemed_kept.
Qed.

(** X14.  Closing a channel ends the redeeming of its payments: after a
    [close] that returned, [redeem] of any payment of that channel, even
    one not yet redeemed, raises [ChannelClosedError] and writes
    nothing. *)
Theorem redeem_after_close (E : Env) (d s : string) (w : World) (txid : string)
    (w' : World) (t : string) (p : Payment.t) :
  close E d s w = (Ok txid, w') ->
  lookup_payment t (pmt (db w')) = Some p ->
  Payment.deposit_txid p = d ->
  redeem t w' = (Raise (ChannelClosedError "Payment channel closed."), w').
Proof.
  intros H Hp Hd.
  destruct (close_cases _ _ _ _ _ _ H) as [(e0 & He & _)|Hc]; [discriminate|].
  destruct Hc as (ch & ptx & der & sig & rs & signed & Hl & _ & _ & _ & _ & _ & _ & Hb).
  destruct Hb as [(e0 & _ & He & _)|(_ & _ & Hw)]; [discriminate|].
  assert (Hl' : lookup_channel d (pc (db w')) = Some (Channel.set_state CLOSED ch)).
  { subst w'. unfold closed. cbn [db pc].
    rewrite lookup_update_rows by apply set_state_key. rewrite Hl. simpl.
    now rewrite (lookup_channel_key _ _ _ Hl), String.eqb_refl. }
  unfold redeem. unfold_monad. rewrite Hp, Hd, Hl'. reflexivity.
Qed.

End RedeemExtras.

(** *** [sync] *)


Lemma update_rows_In_other (d : string) (g : Channel.t -> Channel.t)
    (rows : list Channel.t) (y : Channel.t) :
  In y rows -> Channel.deposit_txid y <> d -> In y (update_rows d g rows).
Proof.
  intros Hin Hk. unfold update_rows. apply in_map_iff. exists y. split; [|exact Hin].
  apply String.eqb_neq in Hk. now rewrite Hk.
Qed.


Section SyncExtras.
Context {L : BitcoinLib} {Wl : Wallet}.

Lemma for_each_closed (E : Env) (l : list Channel.t) (w : World) :
  (forall c, In c l -> Channel.state c = CLOSED) ->
  for_each l (sync_channel E) w = (Ok tt, w).
Proof.
  induction l as [|x l IH]; intros H; simpl; [reflexivity|].
  unfold bind. unfold sync_channel at 1. rewrite (H x) by now left. simpl.
  apply IH. intros c Hc. apply H. now right.
Qed.

(** X15.  [sync] has nothing to do for closed channels: over a store
    whose channels are all CLOSED, and over an empty store, it returns
    without asking the blockchain, writing, signing or broadcasting, at any
    time, also past the expiry of the channels. *)
Theorem sync_skips_closed (E : Env) (w : World) :
  (forall c, In c (pc (db w)) -> Channel.state c = CLOSED) ->
  sync E w = (Ok tt, w).
Proof.
  intros H. unfold sync. unfold_monad. now apply for_each_closed.
Qed.

(** One turn of the loop for a channel without a payment. *)
Lemma sync_channel_no_payment (E : Env) (snap : Channel.t) (w : World)
    (r : result unit) (w' : World) :
  Channel.payment_tx snap = None ->
  sync_channel E snap w = (r, w') ->
  (r = Ok tt /\ w' = w) \/
  (r = Ok tt /\ w' = promoted (Channel.deposit_txid snap) w /\
   Channel.state snap = CONFIRMING) \/
  (exists e, r = Raise e /\ w' = w /\ Channel.state snap = CONFIRMING /\
             check_confirmed E (Channel.deposit_txid snap) = Raise e).
Proof.
  intros Hp. unfold sync_channel. rewrite Hp.
  destruct (Channel.state snap) eqn:Hs; simpl; unfold_monad.
  - destruct (check_confirmed E (Channel.deposit_txid snap)) as [[|]|e] eqn:Hc; simpl.
    + destruct (float_gt _ _); intros H; inv H; right; left; auto.
    + destruct (float_gt _ _); intros H; inv H; left; auto.
    + intros H; inv H. right. right. eauto.
  - destruct (float_gt _ _); intros H; inv H; left; auto.
  - intros H; inv H; left; auto.
Qed.

Lemma promoted_rows_related (d : string) (rows : list Channel.t) :
  Forall2 (fun c c' => c' = c \/ c' = Channel.set_state READY c) rows
          (update_rows d (Channel.set_state READY) rows).
Proof.
  unfold update_rows. apply Forall2_map_right. intros c _.
  destruct (String.eqb (Channel.deposit_txid c) d); auto.
Qed.

Lemma for_each_no_payment (E : Env) (l : list Channel.t) :
  forall w r w',
    (forall c, In c l -> Channel.payment_tx c = None) ->
    for_each l (sync_channel E) w = (r, w') ->
    pmt (db w') = pmt (db w) /\
    Forall2 (fun c c' => c' = c \/ c' = Channel.set_state READY c)
            (pc (db w)) (pc (db w')) /\
    (exists evs, trace w' = (trace w ++ evs)%list /\ forallb is_promotion evs = true) /\
    (forall e, r = Raise e ->
               exists c, In c l /\ Channel.state c = CONFIRMING /\
                         check_confirmed E (Channel.deposit_txid c) = Raise e).
Proof.
  assert (Hrefl : forall rows : list Channel.t,
             Forall2 (fun c c' => c' = c \/ c' = Channel.set_state READY c) rows rows).
  { intros rows. rewrite <- (map_id rows) at 2. apply Forall2_map_right. auto. }
  induction l as [|x l IH]; intros w r w' Hl; simpl.
  - unfold_monad. intros H. inv H. repeat split; auto.
    + exists []. now rewrite app_nil_r.
    + discriminate.
  - unfold bind. destruct (sync_channel E x w) as [rx w1] eqn:Hx.
    assert (Hpx : Channel.payment_tx x = None) by (apply Hl; now left).
    assert (Hl' : forall c, In c l -> Channel.payment_tx c = None)
      by (intros c Hc; apply Hl; now right).
    destruct (sync_channel_no_payment _ _ _ _ _ Hpx Hx)
      as [[Hrx Hw1]|[(Hrx & Hw1 & Hs)|(e & Hrx & Hw1 & Hs & Hc)]]; subst rx w1.
    + intros H. destruct (IH _ _ _ Hl' H) as (H1 & H2 & H3 & H4).
      repeat split; auto. intros e He. destruct (H4 e He) as (c & Hc & Hr).
      exists c. split; [now right|exact Hr].
    + intros H. destruct (IH _ _ _ Hl' H) as (H1 & H2 & (evs & H3 & H3') & H4).
      simpl in H1, H2, H3. repeat split; auto.
      * eapply Forall2_trans_rel; [| apply promoted_rows_related | exact H2].
        intros a b c [-> | ->] [-> | ->]; auto.
      * exists (ev_pc_update_state (Channel.deposit_txid x) READY :: evs).
        rewrite H3, <- app_assoc. simpl. auto.
      * intros e He. destruct (H4 e He) as (c & Hc & Hr).
        exists c. split; [now right|exact Hr].
    + intros H. inv H. repeat split; auto.
      * exists []. now rewrite app_nil_r.
      * intros e0 He. inv He. exists x. split; [now left|auto].
Qed.

(** X16.  Over channels that have no payment, [sync] never signs,
    broadcasts or closes, whatever the clock says: all it writes are
    promotions to READY, so every row is as before or the same row made
    READY, and no payment row changes.  It raises only what
    [check_confirmed] raised for a CONFIRMING channel. *)
Theorem sync_without_payments (E : Env) (w : World) (r : result unit) (w' : World) :
  (forall c, In c (pc (db w)) -> Channel.payment_tx c = None) ->
  sync E w = (r, w') ->
  pmt (db w') = pmt (db w) /\
  Forall2 (fun c c' => c' = c \/ c' = Channel.set_state READY c)
          (pc (db w)) (pc (db w')) /\
  (exists evs, trace w' = (trace w ++ evs)%list /\ forallb is_promotion evs = true) /\
  (forall e, r = Raise e ->
             exists c, In c (pc (db w)) /\ Channel.state c = CONFIRMING /\
                       check_confirmed E (Channel.deposit_txid c) = Raise e).
Proof.
  intros Hp. unfold sync. unfold_monad. apply for_each_no_payment. exact Hp.
Qed.


(** X18.  A spend of the deposit found by [sync] well before the expiry
    closes the channel without signing or broadcasting anything: the only
    write is the state, the stored payment stays half-signed. *)
Theorem sync_channel_spent_deposit (E : Env) (snap : Channel.t) (w : World)
    (ptx : Transaction) (rs : PaymentChannelRedeemScript.t) (t : string) :
  Channel.state snap = READY ->
  Channel.payment_tx snap = Some ptx ->
  redeem_script_of ptx = Ok rs ->
  lookup_spend_txid E (Channel.deposit_txid snap)
    (output_index_for_address (Channel.deposit_tx snap) (RedeemScript_hash160 rs))
    = Ok (Some t) ->
  t <> "" ->
  (time_time E + inject_Z EXP_TIME_BUFFER <= inject_Z (Channel.expires_at snap))%Q ->
  sync_channel E snap w = (Ok tt, closed (Channel.deposit_txid snap) w).
Proof.
  intros Hs Hp Hr Hl Ht Hq. apply Qle_bool_iff in Hq. apply String.eqb_neq in Ht.
  unfold sync_channel. rewrite Hs, Hp. simpl. unfold_monad. simpl.
  rewrite Hr, Hl. simpl. rewrite Ht. simpl. unfold float_gt. rewrite Hq. reflexivity.
Qed.

(** A row stays in the store through the turns of the loop, if all the
    channels read under its key are CLOSED. *)
Lemma for_each_sync_keeps (E : Env) (l : list Channel.t) :
  forall w r w' y,
    for_each l (sync_channel E) w = (r, w') ->
    In y (pc (db w)) ->
    (forall x, In x l -> Channel.deposit_txid x = Channel.deposit_txid y ->
               Channel.state x = CLOSED) ->
    In y (pc (db w')).
Proof.
  induction l as [|x l IH]; intros w r w' y; simpl; unfold bind.
  - unfold ret. intros H. now inv H.
  - destruct (sync_channel E x w) as [rx w1] eqn:Hx. intros H Hy Hk.
    assert (Hy1 : In y (pc (db w1))).
    { destruct (String.eqb (Channel.deposit_txid x) (Channel.deposit_txid y)) eqn:Hxy.
      - apply String.eqb_eq in Hxy. unfold sync_channel in Hx.
        rewrite (Hk x (or_introl eq_refl) Hxy) in Hx. simpl in Hx. unfold ret in Hx.
        now inv Hx.
      - apply String.eqb_neq in Hxy.
        destruct (sync_channel_effect E x w rx w1 Hx) as (g & _ & _ & ->).
        apply update_rows_In_other; [exact Hy|]. now apply not_eq_sym. }
    destruct rx as [[]|e].
    + eapply IH; [exact H|exact Hy1|]. intros x' Hx'. apply Hk. now right.
    + now inv H.
Qed.


End SyncExtras.

(** *** What holds of every store that the server reaches *)

Lemma set_state_closed_id (ch : Channel.t) :
  Channel.state ch = CLOSED -> Channel.set_state CLOSED ch = ch.
Proof. destruct ch. simpl. now intros ->. Qed.

Lemma payments_total_bound (d : string) (rows : list Payment.t) (p : Payment.t) :
  (forall q, In q rows -> 0 < Payment.amount q) ->
  In p rows -> Payment.deposit_txid p = d ->
  Payment.amount p <= payments_total d rows.
Proof.
  induction rows as [|q rows IH]; simpl; intros Hpos Hin Hd; [contradiction|].
  assert (H0 : 0 <= payments_total d rows).
  { clear - Hpos. induction rows as [|x rows IH]; simpl; [lia|].
    assert (0 < Payment.amount x) by (apply Hpos; right; now left).
    assert (0 <= payments_total d rows).
    { apply IH. intros y [Hy|Hy]; apply Hpos; [now left|right; now right]. }
    destruct (String.eqb (Payment.deposit_txid x) d); lia. }
  destruct Hin as [->|Hin].
  - rewrite Hd, String.eqb_refl. lia.
  - assert (Payment.amount p <= payments_total d rows)
      by (apply IH; auto; intros y Hy; apply Hpos; now right).
    assert (0 < Payment.amount q) by (apply Hpos; now left).
    destruct (String.eqb (Payment.deposit_txid q) d); lia.
Qed.

Lemma Forall2_payment_kept_In (rows rows' : list Payment.t) (p' : Payment.t) :
  Forall2 payment_kept rows rows' -> In p' rows' ->
  exists p, In p rows /\ payment_kept p p'.
Proof.
  intros F. induction F as [|a b l l' Hab F IH]; simpl; [contradiction|].
  intros [<-|Hin]; [eauto|]. destruct (IH Hin) as (p & Hp & Hk). eauto.
Qed.

Lemma lookup_channel_keys (d : string) (rows rows' : list Channel.t) :
  map Channel.deposit_txid rows' = map Channel.deposit_txid rows ->
  lookup_channel d rows <> None -> lookup_channel d rows' <> None.
Proof.
  revert rows'. unfold lookup_channel.
  induction rows as [|c rows IH]; intros [|c' rows']; simpl; try discriminate; auto.
  intros H. inv H. rewrite H1.
  destruct (String.eqb (Channel.deposit_txid c) d); [discriminate|]. now apply IH.
Qed.

Section Invariants.
Context {L : BitcoinLib} {Wl : Wallet} {C : Config}.

Lemma status_reads_only (d : string) (w : World) : snd (status d w) = w.
Proof.
  unfold status. unfold_monad. destruct (lookup_channel d (pc (db w))); reflexivity.
Qed.

(** A closed row stays in the table through any call. *)
Lemma exec_closed_In (E : Env) (c : Call) (w : World) (ch : Channel.t) :
  unique_keys (pc (db w)) ->
  In ch (pc (db w)) -> Channel.state ch = CLOSED ->
  In ch (pc (db (snd (exec E c w)))).
Proof.
  intros Hu Hin Hst.
  pose proof (unique_keys_lookup _ _ Hu Hin) as Hl.
  assert (Hupd : forall d' f rows,
             In ch rows ->
             (Channel.deposit_txid ch = d' -> f ch = ch) ->
             In ch (update_rows d' f rows)).
  { intros d' f rows Hi Hf. unfold update_rows. apply in_map_iff. exists ch.
    split; [|exact Hi].
    destruct (String.eqb (Channel.deposit_txid ch) d') eqn:Hk; [|reflexivity].
    apply String.eqb_eq in Hk. auto. }
  destruct c as [a b|d hex|d|d s|t|]; simpl.
  - destruct (open E a b w) as [r w'] eqn:Ho.
    destruct (open_effect _ _ _ _ _ _ Ho) as [_ [Hpc|(c0 & _ & _ & _ & Hpc)]];
      destruct r; simpl; rewrite Hpc; auto; apply in_or_app; now left.
  - assert (Hnot : forall ch', lookup_channel d (pc (db w)) = Some ch' ->
                               Channel.state ch' <> CLOSED ->
                               Channel.deposit_txid ch <> d).
    { intros ch' Hl' Hs' Hk. rewrite Hk in Hl. congruence. }
    destruct (receive_payment_cases E d hex w) as [[e He]|[Hpr|Hok]].
    + now rewrite He.
    + destruct Hpr as (e & tx & ch' & _ & Hl' & Hs' & _ & He). rewrite He. simpl.
      apply Hupd; [exact Hin|]. intros Hk. exfalso.
      apply (Hnot ch' Hl'); [congruence|exact Hk].
    + destruct Hok as (tx & ch' & mpk & rs & sig & ptx & amt & w1 & _ & Hl' & _ & _
                       & Hw1 & _ & He).
      rewrite He. simpl.
      assert (Hk : Channel.deposit_txid ch <> d).
      { destruct Hw1 as [[_ Hs']|[_ Hs']]; apply (Hnot ch' Hl'); congruence. }
      apply Hupd; [|contradiction].
      destruct Hw1 as [[-> _]|[-> _]]; [exact Hin|]. simpl.
      apply Hupd; [exact Hin|contradiction].
  - destruct (status d w) as [r w'] eqn:Hs.
    pose proof (status_reads_only d w) as Hw. rewrite Hs in Hw. simpl in Hw. subst w'.
    now destruct r as [[[? ?] ?]|].
  - destruct (close E d s w) as [r w'] eqn:Hc.
    destruct (close_effect _ _ _ _ _ _ Hc) as [_ [Hpc|Hpc]];
      destruct r; simpl; rewrite Hpc; auto;
      apply Hupd; auto; intros _; now apply set_state_closed_id.
  - destruct (redeem t w) as [r w'] eqn:Hr.
    destruct (redeem_effect _ _ _ _ Hr) as [Hpc _].
    destruct r; simpl; now rewrite Hpc.
  - destruct (sync E w) as [r w'] eqn:Hs.
    assert (Hin' : In ch (pc (db w'))).
    { revert Hs. unfold sync. unfold_monad. intros Hs.
      eapply for_each_sync_keeps; [exact Hs|exact Hin|].
      intros x Hx Hk. now rewrite (unique_keys_same _ x ch Hu Hx Hin Hk). }
    now destruct r.
Qed.

(** X20.  CLOSED is final for the whole row: once a channel of a
    reachable store is CLOSED, no run of calls changes anything of it, not
    its state, its balance nor its stored payment; a [lookup] of its
    deposit_txid gives the same row ever after. *)
Theorem closed_channel_is_final (calls : list (Env * Call)) (w : World) (d : string)
    (ch : Channel.t) :
  reachable w ->
  lookup_channel d (pc (db w)) = Some ch ->
  Channel.state ch = CLOSED ->
  lookup_channel d (pc (db (snd (run calls w)))) = Some ch.
Proof.
  revert w. induction calls as [|[E c] calls IH]; intros w Hr Hl Hs; simpl; [exact Hl|].
  pose proof (reachable_unique_keys w Hr) as Hu.
  pose proof (exec_closed_In E c w ch Hu (lookup_channel_In _ _ _ Hl) Hs) as Hin.
  pose proof (exec_unique_keys E c w Hu) as Hu'.
  pose proof (reachable_exec w E c Hr) as Hr'.
  destruct (exec E c w) as [r w1]. simpl in *.
  assert (Hl1 : lookup_channel d (pc (db w1)) = Some ch).
  { rewrite <- (lookup_channel_key _ _ _ Hl). now apply unique_keys_lookup. }
  specialize (IH w1 Hr' Hl1 Hs).
  destruct (run calls w1) as [rs w2]. exact IH.
Qed.

(** What a call does to the payment table. *)
Lemma exec_payments (E : Env) (c : Call) (w : World) :
  exists kept extra,
    pmt (db (snd (exec E c w))) = (kept ++ extra)%list /\
    Forall2 payment_kept (pmt (db w)) kept /\
    ((forall t, c <> call_redeem t) -> kept = pmt (db w)) /\
    (extra = [] \/
     exists d hex ch ptx amt,
       c = call_receive_payment d hex /\
       lookup_channel d (pc (db w)) = Some ch /\
       0 < amt /\
       extra = [Payment.mk (Transaction_hash ptx) d ptx amt false]).
Proof.
  assert (Hsame : forall w', pmt (db w') = pmt (db w) ->
            exists kept extra,
              pmt (db w') = (kept ++ extra)%list /\
              Forall2 payment_kept (pmt (db w)) kept /\
              ((forall t, c <> call_redeem t) -> kept = pmt (db w)) /\
              (extra = [] \/
               exists d hex ch ptx amt,
                 c = call_receive_payment d hex /\
                 lookup_channel d (pc (db w)) = Some ch /\
                 0 < amt /\
                 extra = [Payment.mk (Transaction_hash ptx) d ptx amt false])).
  { intros w' Hp. exists (pmt (db w)), []. rewrite app_nil_r.
    repeat split; auto. apply payment_kept_refl. }
  destruct c as [a b|d hex|d|d s|t|]; simpl.
  - destruct (open E a b w) as [r w'] eqn:Ho.
    destruct (open_effect _ _ _ _ _ _ Ho) as [Hp _]. destruct r; simpl; auto.
  - destruct (receive_payment_cases E d hex w) as [[e He]|[Hpr|Hok]].
    + rewrite He. simpl. auto.
    + destruct Hpr as (e & tx & ch' & _ & _ & _ & _ & He). rewrite He. simpl. auto.
    + destruct Hok as (tx & ch & mpk & rs & sig & ptx & amt & w1 & _ & Hl & _ & _
                       & Hw1 & Ho & He).
      rewrite He. simpl.
      destruct (check_payment_outputs_Ok _ _ _ _ _ _ _ Ho)
        as (index & output & _ & _ & _ & Hlt & _).
      exists (pmt (db w)),
             [Payment.mk (Transaction_hash ptx) d ptx
                         (amt - Channel.last_payment_amount ch) false].
      assert (Hp1 : pmt (db w1) = pmt (db w)) by (destruct Hw1 as [[-> _]|[-> _]]; auto).
      rewrite Hp1. repeat split; auto; [apply payment_kept_refl|].
      right. exists d, hex, ch, ptx, (amt - Channel.last_payment_amount ch).
      repeat split; auto. lia.
  - destruct (status d w) as [r w'] eqn:Hs.
    pose proof (status_reads_only d w) as Hw. rewrite Hs in Hw. simpl in Hw. subst w'.
    destruct r as [[[? ?] ?]|]; simpl; auto.
  - destruct (close E d s w) as [r w'] eqn:Hc.
    destruct (close_effect _ _ _ _ _ _ Hc) as [Hp _]. destruct r; simpl; auto.
  - destruct (redeem t w) as [r w'] eqn:Hr.
    destruct (redeem_effect _ _ _ _ Hr) as [_ [(e & -> & ->)|Hm]]; simpl; auto.
    destruct Hm as (p & ch & _ & _ & _ & _ & -> & Hp). simpl.
    exists (mark_redeemed t (pmt (db w))), []. rewrite app_nil_r.
    repeat split; auto; [apply mark_redeemed_kept|].
    intros Hc. exfalso. now apply (Hc t).
  - destruct (sync E w) as [r w'] eqn:Hs.
    assert (Hp : pmt (db w') = pmt (db w)).
    { revert Hs. unfold sync. unfold_monad. apply for_each_sync_pmt. }
    destruct r; simpl; auto.
Qed.

(** X21.  No call deletes, reorders or alters a payment row.  After any
    call the payment table is the old one, row for row, where only
    [redeem] may have changed anything, and only by marking a row redeemed;
    followed by at most one new row, which only [receive_payment] adds:
    unredeemed, of a positive amount, for a channel of the store. *)
Theorem payments_are_kept (E : Env) (c : Call) (w : World) :
  exists kept extra,
    pmt (db (snd (exec E c w))) = (kept ++ extra)%list /\
    Forall2 payment_kept (pmt (db w)) kept /\
    ((forall t, c <> call_redeem t) -> kept = pmt (db w)) /\
    (extra = [] \/
     exists d hex ch ptx amt,
       c = call_receive_payment d hex /\
       lookup_channel d (pc (db w)) = Some ch /\
       0 < amt /\
       extra = [Payment.mk (Transaction_hash ptx) d ptx amt false]).
Proof. apply exec_payments. Qed.

Lemma exec_payments_wf (E : Env) (c : Call) (w : World) :
  unique_keys (pc (db w)) -> payments_wf w -> payments_wf (snd (exec E c w)).
Proof.
  intros Hu Hwf.
  destruct (exec_channels E c w Hu) as (rows1 & extra1 & Hpc & Hf & _).
  assert (Hkeep : forall d, lookup_channel d (pc (db w)) <> None ->
                            lookup_channel d (pc (db (snd (exec E c w)))) <> None).
  { intros d Hd. rewrite Hpc, lookup_channel_app.
    pose proof (lookup_channel_keys d _ _ (Forall2_state_advances_keys _ _ Hf) Hd).
    destruct (lookup_channel d rows1); [discriminate|contradiction]. }
  destruct (exec_payments E c w) as (kept & extra & Hp & Hk & _ & Hx).
  intros p Hin. rewrite Hp in Hin. apply in_app_or in Hin. destruct Hin as [Hin|Hin].
  - destruct (Forall2_payment_kept_In _ _ _ Hk Hin) as (p0 & Hp0 & H1 & H2 & H3 & H4 & _).
    destruct (Hwf p0 Hp0) as (Ha & Hb & Hc).
    rewrite H1, H2, H3, H4. repeat split; auto.
  - destruct Hx as [->|(d & hex & ch & ptx & amt & _ & Hl & Hamt & ->)]; [contradiction|].
    destruct Hin as [<-|[]]. simpl. repeat split; auto.
    apply Hkeep. now rewrite Hl.
Qed.

Lemma reachable_payments_wf (w : World) : reachable w -> payments_wf w.
Proof.
  induction 1 as [|w E c Hr IH].
  - intros p [].
  - apply exec_payments_wf; [now apply reachable_unique_keys | exact IH].
Qed.

(** X22.  Every payment row of a reachable store is keyed by the hash of
    its transaction, has a positive amount and belongs to a channel of the
    store, whose balance is at least that amount. *)
Theorem payments_belong_to_channels (w : World) (p : Payment.t) :
  reachable w ->
  In p (pmt (db w)) ->
  Payment.payment_txid p = Transaction_hash (Payment.payment_tx p) /\
  0 < Payment.amount p /\
  exists ch,
    lookup_channel (Payment.deposit_txid p) (pc (db w)) = Some ch /\
    Payment.amount p <= Channel.last_payment_amount ch.
Proof.
  intros Hr Hin.
  pose proof (reachable_payments_wf w Hr) as Hwf.
  destruct (Hwf p Hin) as (Ha & Hb & Hc).
  repeat split; auto.
  destruct (lookup_channel (Payment.deposit_txid p) (pc (db w))) as [ch|] eqn:Hl;
    [|contradiction].
  exists ch. split; [reflexivity|].
  pose proof (reachable_sum_invariant w Hr (Payment.deposit_txid p)) as Hs.
  unfold balance_of in Hs. rewrite Hl in Hs. rewrite <- Hs.
  apply payments_total_bound; auto. intros q Hq. now apply (Hwf q Hq).
Qed.


End Invariants.

(** *** The turns of [sync], write by write *)

Section SyncSteps.
Context {L : BitcoinLib} {Wl : Wallet}.

Lemma sync_writes_key (snap : Channel.t) (g : Channel.t -> Channel.t) (evs : list Event) :
  sync_writes snap g evs -> forall c, Channel.deposit_txid (g c) = Channel.deposit_txid c.
Proof. induction 1; intros c; simpl; auto. Qed.

Lemma sync_writes_compose (snap : Channel.t) (g1 g2 : Channel.t -> Channel.t)
    (e1 e2 : list Event) :
  sync_writes snap g1 e1 -> sync_writes snap g2 e2 ->
  sync_writes snap (fun c => g2 (g1 c)) (e1 ++ e2).
Proof.
  intros H1 H2. induction H2 as [|g evs Hs H2 IH|g evs ptx Hp H2 IH
                                 |g evs ptx rs signed Hp Hsg H2 IH
                                 |g evs ptx rs signed Hp Hsg H2 IH].
  - rewrite app_nil_r. exact H1.
  - rewrite app_assoc. exact (sw_ready snap (fun c => g (g1 c)) _ Hs IH).
  - rewrite app_assoc. exact (sw_closed snap (fun c => g (g1 c)) _ ptx Hp IH).
  - rewrite app_assoc. exact (sw_signed snap (fun c => g (g1 c)) _ ptx rs signed Hp Hsg IH).
  - rewrite app_assoc. exact (sw_expired snap (fun c => g (g1 c)) _ ptx rs signed Hp Hsg IH).
Qed.

Lemma sync_step_refl (snap : Channel.t) (w : World) : sync_step snap w w.
Proof.
  exists (fun c => c), []. split; [constructor|]. split; [reflexivity|].
  split; [now rewrite update_rows_id | now rewrite app_nil_r].
Qed.

Lemma sync_step_trans (snap : Channel.t) (w1 w2 w3 : World) :
  sync_step snap w1 w2 -> sync_step snap w2 w3 -> sync_step snap w1 w3.
Proof.
  intros (g1 & e1 & H1 & P1 & R1 & T1) (g2 & e2 & H2 & P2 & R2 & T2).
  exists (fun c => g2 (g1 c)), (e1 ++ e2)%list.
  split; [now apply sync_writes_compose|]. split; [congruence|]. split.
  - rewrite R2, R1. apply update_rows_compose. now apply (sync_writes_key snap g1 e1).
  - rewrite T2, T1. now rewrite app_assoc.
Qed.

Lemma sync_stepM_ret {A} (snap : Channel.t) (a : A) : sync_stepM snap (ret a).
Proof. intros w r w' H. inv H. apply sync_step_refl. Qed.

Lemma sync_stepM_bind {A B} (snap : Channel.t) (m : M A) (k : A -> M B) :
  sync_stepM snap m -> (forall a, sync_stepM snap (k a)) -> sync_stepM snap (bind m k).
Proof.
  intros Hm Hk w r w' H. unfold bind in H.
  destruct (m w) as [[a|e] w1] eqn:Hmw.
  - eapply sync_step_trans; [eapply Hm; eauto | eapply Hk; eauto].
  - inv H. eapply Hm; eauto.
Qed.

Lemma sync_stepM_bind_lift {A B} (snap : Channel.t) (x : result A) (k : A -> M B) :
  (forall a, x = Ok a -> sync_stepM snap (k a)) -> sync_stepM snap (bind (lift x) k).
Proof.
  intros Hk w r w' H. unfold bind, lift in H. destruct x as [a|e].
  - eapply Hk; eauto.
  - inv H. apply sync_step_refl.
Qed.

Lemma sync_stepM_when (snap : Channel.t) (b : bool) (m : M unit) :
  sync_stepM snap m -> sync_stepM snap (when b m).
Proof. intros H. destruct b; simpl; [exact H | apply sync_stepM_ret]. Qed.

Lemma sync_stepM_ready (snap : Channel.t) :
  Channel.state snap = CONFIRMING ->
  sync_stepM snap (pc_update_state (Channel.deposit_txid snap) READY).
Proof.
  intros Hs w r w' H. unfold pc_update_state in H. unfold_monad. inv H.
  exists (fun c => Channel.set_state READY c),
         [ev_pc_update_state (Channel.deposit_txid snap) READY].
  split; [exact (sw_ready snap (fun c => c) [] Hs (sw_nothing snap))|].
  repeat split; reflexivity.
Qed.

Lemma sync_stepM_closed (snap : Channel.t) (ptx : Transaction) :
  Channel.payment_tx snap = Some ptx ->
  sync_stepM snap (pc_update_state (Channel.deposit_txid snap) CLOSED).
Proof.
  intros Hp w r w' H. unfold pc_update_state in H. unfold_monad. inv H.
  exists (fun c => Channel.set_state CLOSED c),
         [ev_pc_update_state (Channel.deposit_txid snap) CLOSED].
  split; [exact (sw_closed snap (fun c => c) [] ptx Hp (sw_nothing snap))|].
  repeat split; reflexivity.
Qed.

Lemma sync_stepM_expiry (E : Env) (snap : Channel.t) (ptx signed : Transaction)
    (rs : PaymentChannelRedeemScript.t) :
  Channel.payment_tx snap = Some ptx ->
  sign_half_signed_payment ptx rs = Ok signed ->
  sync_stepM snap
    (emit (ev_sign_half_signed_payment signed) ;;
     lift (broadcast_tx E (Transaction_to_hex signed)) ;;
     emit (ev_broadcast_tx (Transaction_to_hex signed)) ;;
     pc_update_payment (Channel.deposit_txid snap) signed
                       (Channel.last_payment_amount snap) ;;
     pc_update_state (Channel.deposit_txid snap) CLOSED).
Proof.
  intros Hp Hsg w r w'. unfold_monad.
  destruct (broadcast_tx E (Transaction_to_hex signed)) as [[]|e]; intros H; inv H.
  - exists (fun c => Channel.set_state CLOSED
                       (Channel.set_payment signed (Channel.last_payment_amount snap) c)),
           [ev_sign_half_signed_payment signed;
            ev_broadcast_tx (Transaction_to_hex signed);
            ev_pc_update_payment (Channel.deposit_txid snap) signed
                                 (Channel.last_payment_amount snap);
            ev_pc_update_state (Channel.deposit_txid snap) CLOSED].
    split; [exact (sw_expired snap (fun c => c) [] ptx rs signed Hp Hsg (sw_nothing snap))|].
    simpl. repeat split.
    + apply update_rows_compose. intros c. reflexivity.
    + now rewrite <- !app_assoc.
  - exists (fun c => c), [ev_sign_half_signed_payment signed].
    split; [exact (sw_signed snap (fun c => c) [] ptx rs signed Hp Hsg (sw_nothing snap))|].
    simpl. repeat split. now rewrite update_rows_id.
Qed.

(** One turn of the loop of [sync] makes only the writes of
    [sync_writes]. *)
Lemma sync_channel_step (E : Env) (snap : Channel.t) :
  sync_stepM snap (sync_channel E snap).
Proof.
  unfold sync_channel.
  destruct (ChannelState_eqb (Channel.state snap) CLOSED); [apply sync_stepM_ret|].
  apply sync_stepM_bind; [|intros _; apply sync_stepM_bind; [|intros _]].
  - destruct (ChannelState_eqb (Channel.state snap) CONFIRMING) eqn:Hc;
      [|apply sync_stepM_ret].
    apply sync_stepM_bind_lift. intros confirmed _.
    apply sync_stepM_when. apply sync_stepM_ready.
    destruct (Channel.state snap); simpl in *; try discriminate; reflexivity.
  - destruct (_ || _); [|apply sync_stepM_ret].
    destruct (Channel.payment_tx snap) as [ptx|] eqn:Hp; [|apply sync_stepM_ret].
    apply sync_stepM_bind_lift. intros rs _.
    apply sync_stepM_bind_lift. intros spend _.
    apply sync_stepM_when. now apply (sync_stepM_closed snap ptx).
  - destruct (negb _); [|apply sync_stepM_ret].
    destruct (float_gt _ _); [|apply sync_stepM_ret].
    destruct (Channel.payment_tx snap) as [ptx|] eqn:Hp; [|apply sync_stepM_ret].
    apply sync_stepM_bind_lift. intros rs _.
    apply sync_stepM_bind_lift. intros signed Hsg.
    now apply (sync_stepM_expiry E snap ptx signed rs).
Qed.

End SyncSteps.

(** *** Broadcasts and signings *)

Section Broadcasts.
Context {L : BitcoinLib} {Wl : Wallet}.

Lemma broadcasts_signed_app (prev : option Event) (a b : list Event) :
  broadcasts_signed prev a = true ->
  (forall p, broadcasts_signed p b = true) ->
  broadcasts_signed prev (a ++ b) = true.
Proof.
  revert prev. induction a as [|e a IH]; intros prev Ha Hb; simpl; [apply Hb|].
  simpl in Ha. apply andb_true_iff in Ha. destruct Ha as [H1 H2].
  rewrite H1. simpl. now apply IH.
Qed.

Lemma sync_writes_broadcasts (snap : Channel.t) (g : Channel.t -> Channel.t)
    (evs : list Event) :
  sync_writes snap g evs -> forall p, broadcasts_signed p evs = true.
Proof.
  induction 1; intros p; try (apply broadcasts_signed_app; [auto|]; intros q; simpl).
  - reflexivity.
  - reflexivity.
  - reflexivity.
  - reflexivity.
  - now rewrite String.eqb_refl.
Qed.

Lemma for_each_sync_broadcasts (E : Env) (l : list Channel.t) :
  forall w r w',
    for_each l (sync_channel E) w = (r, w') ->
    exists evs, trace w' = (trace w ++ evs)%list /\
                forall p, broadcasts_signed p evs = true.
Proof.
  induction l as [|x l IH]; intros w r w'; simpl; unfold bind.
  - unfold ret. intros H. inv H. exists []. now rewrite app_nil_r.
  - destruct (sync_channel E x w) as [rx w1] eqn:Hx.
    destruct (sync_channel_step E x w rx w1 Hx) as (g & evs & Hw & _ & _ & Ht).
    pose proof (sync_writes_broadcasts _ _ _ Hw) as Hb.
    destruct rx as [[]|e]; intros H.
    + destruct (IH _ _ _ H) as (evs2 & Ht2 & Hb2).
      exists (evs ++ evs2)%list. split; [now rewrite Ht2, Ht, app_assoc|].
      intros p. now apply broadcasts_signed_app.
    + inv H. eauto.
Qed.

End Broadcasts.

Lemma broadcasts_signed_inv {L : BitcoinLib} (evs : list Event) :
  forall prev pre h post,
    broadcasts_signed prev evs = true ->
    evs = (pre ++ ev_broadcast_tx h :: post)%list ->
    exists tx,
      h = Transaction_to_hex tx /\
      ((pre = [] /\ prev = Some (ev_sign_half_signed_payment tx)) \/
       exists pre', pre = (pre' ++ [ev_sign_half_signed_payment tx])%list).
Proof.
  induction evs as [|e evs IH]; intros prev pre h post Hb He.
  - destruct pre; discriminate.
  - simpl in Hb. apply andb_true_iff in Hb. destruct Hb as [H1 H2].
    destruct pre as [|e0 pre]; simpl in He; inv He.
    + destruct prev as [[| | | | |tx|]|]; try discriminate.
      apply String.eqb_eq in H1. exists tx. auto.
    + destruct (IH _ _ _ _ H2 eq_refl) as (tx & Hh & [[-> Hp]|(pre' & ->)]).
      * inv Hp. exists tx. split; [reflexivity|]. right. now exists [].
      * exists tx. split; [exact Hh|]. right. now exists (e0 :: pre').
Qed.

Lemma sum_values_ge (outs : list TransactionOutput) (o : TransactionOutput) :
  (forall x, In x outs -> 0 <= value x) -> In o outs -> value o <= sum_values outs.
Proof.
  unfold sum_values. intros Hpos Hin.
  assert (G : forall l a, (forall x, In x l -> 0 <= value x) ->
                          a <= fold_left Z.add (map value l) a).
  { induction l as [|x l IH]; intros a Hl; simpl; [lia|].
    assert (0 <= value x) by (apply Hl; now left).
    assert (a + value x <= fold_left Z.add (map value l) (a + value x))
      by (apply IH; intros y Hy; apply Hl; now right).
    lia. }
  assert (G2 : forall l a, (forall x, In x l -> 0 <= value x) -> In o l ->
                           a + value o <= fold_left Z.add (map value l) a).
  { induction l as [|x l IH]; intros a Hl Ho; simpl; [contradiction|].
    destruct Ho as [->|Ho].
    - apply G. intros y Hy. apply Hl. now right.
    - assert (0 <= value x) by (apply Hl; now left).
      assert (a + value x + value o <= fold_left Z.add (map value l) (a + value x))
        by (apply IH; auto; intros y Hy; apply Hl; now right).
      lia. }
  specialize (G2 outs 0 Hpos Hin). lia.
Qed.

Lemma Forall_update_rows (P : Channel.t -> Prop) (d : string)
    (f : Channel.t -> Channel.t) (rows : list Channel.t) :
  unique_keys rows ->
  Forall P rows ->
  (forall c, lookup_channel d rows = Some c -> P (f c)) ->
  Forall P (update_rows d f rows).
Proof.
  intros Hu HP Hf. unfold update_rows. apply Forall_forall. intros c' Hin.
  apply in_map_iff in Hin. destruct Hin as (c & <- & Hin).
  destruct (String.eqb (Channel.deposit_txid c) d) eqn:Hk.
  - apply String.eqb_eq in Hk. apply Hf. rewrite <- Hk. now apply unique_keys_lookup.
  - rewrite Forall_forall in HP. now apply HP.
Qed.

Section StoreInvariants.
Context {L : BitcoinLib} {Wl : Wallet} {C : Config}.

Lemma open_raise_unchanged (E : Env) (a b : string) (w w' : World) (e : exn) :
  open E a b w = (Raise e, w') -> w' = w.
Proof.
  unfold open, pc_create. unfold_monad.
  destruct (Transaction_from_hex a) as [dtx|]; [|intros H; now inv H].
  destruct (codecs_decode_hex b) as [rsb|]; [|intros H; now inv H].
  destruct (RedeemScript_from_bytes (Bytes rsb)) as [rs|]; [|intros H; now inv H].
  destruct (output_index_for_address dtx (RedeemScript_hash160 rs)) as [i|] eqn:Hi;
    [|intros H; now inv H].
  destruct (getitem (outputs dtx) i); [|intros H; now inv H].
  destruct (validate_public_key _); simpl; [|intros H; now inv H].
  destruct (lookup_channel (Transaction_hash dtx) (pc (db w))) eqn:Hl; simpl;
    [intros H; now inv H|].
  destruct (_ <? _); simpl; [intros H; now inv H|]. rewrite Hl. simpl.
  destruct zeroconf; simpl; discriminate.
Qed.

Lemma redeem_trace (t : string) (w : World) (r : result Z) (w' : World) :
  redeem t w = (r, w') ->
  trace w' = trace w \/ trace w' = (trace w ++ [ev_pmt_redeem t])%list.
Proof.
  unfold redeem, pmt_redeem. unfold_monad.
  destruct (lookup_payment t (pmt (db w))) as [p|] eqn:Hp; [|intros H; inv H; auto].
  destruct (lookup_channel _ _) as [ch|]; [|intros H; inv H; auto].
  destruct (Channel.state ch); simpl; try solve [intros H; inv H; auto].
  rewrite Hp. destruct (Payment.redeemed p); simpl; intros H; inv H; auto.
Qed.

(** The events of one call. *)
Lemma exec_trace (E : Env) (c : Call) (w : World) :
  exists evs, trace (snd (exec E c w)) = (trace w ++ evs)%list /\
              forall p, broadcasts_signed p evs = true.
Proof.
  assert (Hnil : exists evs, trace w = (trace w ++ evs)%list /\
                             forall p, broadcasts_signed p evs = true).
  { exists []. now rewrite app_nil_r. }
  destruct c as [a b|d hex|d|d s|t|]; simpl.
  - destruct (open E a b w) as [[txid|e] w'] eqn:Ho; simpl.
    + destruct (open_Ok_inv _ _ _ _ _ _ Ho)
        as (dtx & rsb & rs & i & o & _ & _ & _ & _ & _ & _ & _ & _ & _ & _ & _ & Ht).
      eexists. split; [exact Ht|]. intros p. destruct zeroconf; reflexivity.
    + now rewrite (open_raise_unchanged _ _ _ _ _ _ Ho).
  - destruct (receive_payment_cases E d hex w) as [[e He]|[Hpr|Hok]].
    + now rewrite He.
    + destruct Hpr as (e & tx & ch' & _ & _ & _ & _ & He). rewrite He. simpl.
      eexists. split; [reflexivity|]. reflexivity.
    + destruct Hok as (tx & ch & mpk & rs & sig & ptx & amt & w1 & _ & _ & _ & _
                       & Hw1 & _ & He).
      rewrite He. simpl. destruct Hw1 as [[-> _]|[-> _]]; simpl.
      * rewrite <- app_assoc. eexists. split; [reflexivity|]. reflexivity.
      * rewrite <- !app_assoc. eexists. split; [reflexivity|]. reflexivity.
  - destruct (status d w) as [r w'] eqn:Hs.
    pose proof (status_reads_only d w) as Hw. rewrite Hs in Hw. simpl in Hw. subst w'.
    now destruct r as [[[? ?] ?]|].
  - destruct (close E d s w) as [r w'] eqn:Hc.
    destruct (close_cases _ _ _ _ _ _ Hc) as [(e0 & -> & ->)|Hcc]; [exact Hnil|].
    destruct Hcc as (ch & ptx & der & sig & rs & signed & _ & _ & _ & _ & _ & _ & _ & Hb).
    destruct Hb as [(e0 & _ & -> & ->)|(_ & -> & ->)]; simpl.
    + eexists. split; [reflexivity|]. reflexivity.
    + rewrite <- !app_assoc. eexists. split; [reflexivity|].
      intros p. simpl. now rewrite String.eqb_refl.
  - destruct (redeem t w) as [r w'] eqn:Hr.
    destruct (redeem_trace _ _ _ _ Hr) as [Ht|Ht]; destruct r; simpl; rewrite Ht;
      try exact Hnil; (eexists; split; [reflexivity|]; reflexivity).
  - destruct (sync E w) as [r w'] eqn:Hs.
    assert (Ht : exists evs, trace w' = (trace w ++ evs)%list /\
                             forall p, broadcasts_signed p evs = true).
    { revert Hs. unfold sync. unfold_monad. apply for_each_sync_broadcasts. }
    now destruct r.
Qed.

Lemma reachable_broadcasts_signed (w : World) :
  reachable w -> broadcasts_signed None (trace w) = true.
Proof.
  induction 1 as [|w E c Hr IH]; [reflexivity|].
  destruct (exec_trace E c w) as (evs & -> & Hb).
  now apply broadcasts_signed_app.
Qed.

(** X24.  The server broadcasts nothing but what its wallet has just
    signed: in the events of any reachable world, every broadcast that the
    provider has accepted comes right after a signing by
    [sign_half_signed_payment], and what was sent is the hexadecimal of the
    transaction signed there. *)
Theorem broadcasts_follow_signings (w : World) (pre post : list Event) (tx_hex : string) :
  reachable w ->
  trace w = (pre ++ ev_broadcast_tx tx_hex :: post)%list ->
  exists pre' tx,
    pre = (pre' ++ [ev_sign_half_signed_payment tx])%list /\
    tx_hex = Transaction_to_hex tx.
Proof.
  intros Hr Ht. pose proof (reachable_broadcasts_signed w Hr) as Hb.
  destruct (broadcasts_signed_inv _ _ _ _ _ Hb Ht) as (tx & Hh & [[_ Hp]|(pre' & Hp)]);
    [discriminate|].
  exists pre', tx. auto.
Qed.

(** The rows that the writes of the server make are well formed. *)
Lemma channel_wf_ready (c : Channel.t) :
  channel_wf c -> channel_wf (Channel.set_state READY c).
Proof.
  intros (Ha & Hb & Hc & Hd). unfold channel_wf. simpl.
  split; [exact Ha|]. split; [intros Hp; split; [now apply Hb | discriminate]|].
  split; [discriminate | exact Hd].
Qed.

Lemma channel_wf_closed (c : Channel.t) :
  channel_wf c -> Channel.payment_tx c <> None ->
  channel_wf (Channel.set_state CLOSED c).
Proof.
  intros (Ha & Hb & Hc & Hd) Hp. unfold channel_wf. simpl.
  split; [exact Ha|]. split; [intros H; contradiction|].
  split; [discriminate | exact Hd].
Qed.

Lemma channel_wf_payment (c : Channel.t) (ptx : Transaction) (amt : Z) :
  channel_wf c -> Channel.state c <> CONFIRMING ->
  DUST_LIMIT <= amt <= Channel.amount c - MIN_TX_FEE ->
  channel_wf (Channel.set_payment ptx amt c).
Proof.
  intros (Ha & Hb & Hc & Hd) Hs Hamt. unfold channel_wf. simpl.
  split; [exact Ha|]. split; [discriminate|].
  split; [intros H; contradiction | intros _; exact Hamt].
Qed.

Lemma channel_wf_expired (c : Channel.t) (ptx : Transaction) (amt : Z) :
  channel_wf c ->
  DUST_LIMIT <= amt <= Channel.amount c - MIN_TX_FEE ->
  channel_wf (Channel.set_state CLOSED (Channel.set_payment ptx amt c)).
Proof.
  intros (Ha & Hb & Hc & Hd) Hamt. unfold channel_wf. simpl.
  split; [exact Ha|]. split; [discriminate|].
  split; [discriminate | intros _; exact Hamt].
Qed.

Lemma sync_writes_wf (snap : Channel.t) (g : Channel.t -> Channel.t) (evs : list Event) :
  sync_writes snap g evs ->
  channel_wf snap ->
  channel_wf (g snap) /\
  Channel.amount (g snap) = Channel.amount snap /\
  (Channel.payment_tx snap <> None -> Channel.payment_tx (g snap) <> None).
Proof.
  intros Hw Hwf. induction Hw as [|g evs Hs Hw IH|g evs ptx Hp Hw IH
                                 |g evs ptx rs signed Hp Hsg Hw IH
                                 |g evs ptx rs signed Hp Hsg Hw IH].
  - auto.
  - destruct IH as (H1 & H2 & H3). split; [now apply channel_wf_ready|]. simpl. auto.
  - destruct IH as (H1 & H2 & H3). split; [|simpl; auto].
    apply channel_wf_closed; [exact H1|]. apply H3. congruence.
  - exact IH.
  - destruct IH as (H1 & H2 & H3). split; [|simpl; split; [exact H2|discriminate]].
    apply channel_wf_expired; [exact H1|].
    destruct Hwf as (_ & _ & _ & Hd). rewrite H2. apply Hd. congruence.
Qed.

Lemma for_each_sync_wf (E : Env) (l : list Channel.t) :
  forall w r w',
    unique_keys (pc (db w)) ->
    NoDup (map Channel.deposit_txid l) ->
    (forall x, In x l -> In x (pc (db w))) ->
    Forall channel_wf (pc (db w)) ->
    for_each l (sync_channel E) w = (r, w') ->
    Forall channel_wf (pc (db w')).
Proof.
  induction l as [|x l IH]; intros w r w' Hu Hnd Hin Hwf; simpl; unfold bind.
  - unfold ret. intros H. now inv H.
  - destruct (sync_channel E x w) as [rx w1] eqn:Hx.
    destruct (sync_channel_step E x w rx w1 Hx) as (g & evs & Hw & _ & Hpc & _).
    assert (Hx0 : In x (pc (db w))) by (apply Hin; now left).
    assert (Hwf1 : Forall channel_wf (pc (db w1))).
    { rewrite Hpc. apply Forall_update_rows; auto. intros c Hl.
      assert (c = x).
      { apply (unique_keys_same _ _ _ Hu (lookup_channel_In _ _ _ Hl) Hx0).
        apply (lookup_channel_key _ _ _ Hl). }
      subst c. apply (sync_writes_wf x g evs Hw).
      rewrite Forall_forall in Hwf. now apply Hwf. }
    destruct rx as [[]|e]; intros H; [|now inv H].
    inv Hnd. eapply IH; [| exact H3 | | exact Hwf1 | exact H].
    + unfold unique_keys. rewrite Hpc, update_rows_keys; [exact Hu|].
      apply (sync_writes_key x g evs Hw).
    + intros y Hy. rewrite Hpc. apply update_rows_In_other; [apply Hin; now right|].
      intros Hk. apply H2. rewrite <- Hk. now apply in_map.
Qed.

(** Any call keeps the channel rows well formed. *)
Lemma exec_channel_wf (E : Env) (c : Call) (w : World) :
  unique_keys (pc (db w)) ->
  Forall channel_wf (pc (db w)) ->
  Forall channel_wf (pc (db (snd (exec E c w)))).
Proof.
  intros Hu Hwf.
  assert (Hrow : forall d ch, lookup_channel d (pc (db w)) = Some ch -> channel_wf ch).
  { intros d ch Hl. rewrite Forall_forall in Hwf. apply Hwf.
    now apply (lookup_channel_In d). }
  destruct c as [a b|d hex|d|d s|t|]; simpl.
  - destruct (open E a b w) as [[txid|e] w'] eqn:Ho; simpl.
    + destruct (open_Ok_inv _ _ _ _ _ _ Ho)
        as (dtx & rsb & rs & i & o & _ & _ & _ & _ & _ & _ & _ & _ & _ & _ & Hpc & _).
      rewrite Hpc. apply Forall_app. split; [exact Hwf|]. constructor; [|constructor].
      unfold channel_wf. simpl. split; [reflexivity|].
      split; [intros _; split; [reflexivity|destruct zeroconf; discriminate]|].
      split; [reflexivity|intros H; contradiction].
    + now rewrite (open_raise_unchanged _ _ _ _ _ _ Ho).
  - destruct (receive_payment_cases E d hex w) as [[e He]|[Hpr|Hok]].
    + now rewrite He.
    + destruct Hpr as (e & tx & ch' & _ & Hl' & _ & _ & He). rewrite He. simpl.
      apply Forall_update_rows; auto. intros c0 Hl0. apply channel_wf_ready. eauto.
    + destruct Hok as (tx & ch & mpk & rs & sig & ptx & amt & w1 & _ & Hl & _ & _
                       & Hw1 & Ho & He).
      rewrite He. simpl.
      destruct (check_payment_outputs_Ok _ _ _ _ _ _ _ Ho)
        as (index & output & _ & Hn & -> & Hlt & Hdust & Hfee & _).
      pose proof (first_below_dust_none_inv _ _ Hdust) as Hall.
      assert (Hamt : DUST_LIMIT <= value output <= Channel.amount ch - MIN_TX_FEE).
      { pose proof (nth_error_In _ _ Hn) as Hin. split; [now apply Hall|].
        assert (value output <= sum_values (outputs tx)).
        { apply sum_values_ge; [|exact Hin]. intros x Hx.
          pose proof (Hall x Hx). unfold DUST_LIMIT in *. lia. }
        lia. }
      assert (H1 : unique_keys (pc (db w1)) /\ Forall channel_wf (pc (db w1)) /\
                   exists c1, lookup_channel d (pc (db w1)) = Some c1 /\
                              Channel.state c1 = READY /\
                              Channel.amount c1 = Channel.amount ch).
      { destruct Hw1 as [[-> Hs]|[-> Hs]].
        - split; [exact Hu|]. split; [exact Hwf|]. eauto.
        - simpl. split; [|split].
          + unfold unique_keys. rewrite update_rows_keys; [exact Hu|]. reflexivity.
          + apply Forall_update_rows; auto. intros c0 Hl0. apply channel_wf_ready. eauto.
          + rewrite lookup_update_rows by apply set_state_key. rewrite Hl. simpl.
            rewrite (lookup_channel_key _ _ _ Hl), String.eqb_refl. eauto. }
      destruct H1 as (Hu1 & Hwf1 & c1 & Hl1 & Hs1 & Ha1).
      apply Forall_update_rows; auto. intros c0 Hl0.
      rewrite Hl1 in Hl0. inv Hl0.
      apply channel_wf_payment.
      * rewrite Forall_forall in Hwf1. apply Hwf1. now apply (lookup_channel_In d).
      * rewrite Hs1. discriminate.
      * now rewrite Ha1.
  - destruct (status d w) as [r w'] eqn:Hs.
    pose proof (status_reads_only d w) as Hw. rewrite Hs in Hw. simpl in Hw. subst w'.
    now destruct r as [[[? ?] ?]|].
  - destruct (close E d s w) as [r w'] eqn:Hc.
    destruct (close_cases _ _ _ _ _ _ Hc) as [(e0 & -> & ->)|Hcc]; [exact Hwf|].
    destruct Hcc as (ch & ptx & der & sig & rs & signed & Hl & Hp & _ & _ & _ & _ & _ & Hb).
    destruct Hb as [(e0 & _ & -> & ->)|(_ & -> & ->)]; simpl; [exact Hwf|].
    apply Forall_update_rows; auto. intros c0 Hl0. rewrite Hl in Hl0. inv Hl0.
    apply channel_wf_closed; [eauto|]. congruence.
  - destruct (redeem t w) as [r w'] eqn:Hr.
    destruct (redeem_effect _ _ _ _ Hr) as [Hpc _]. destruct r; simpl; now rewrite Hpc.
  - destruct (sync E w) as [r w'] eqn:Hs.
    assert (Hwf' : Forall channel_wf (pc (db w'))).
    { revert Hs. unfold sync. unfold_monad. intros Hs.
      eapply for_each_sync_wf; [exact Hu|exact Hu| |exact Hwf|exact Hs]. auto. }
    now destruct r.
Qed.

Lemma reachable_channel_wf (w : World) : reachable w -> Forall channel_wf (pc (db w)).
Proof.
  induction 1 as [|w E c Hr IH]; [constructor|].
  apply exec_channel_wf; [now apply reachable_unique_keys | exact IH].
Qed.

(** X25.  A channel without a payment is never closed by the server, and
    a channel is not paid before it is READY: in every reachable store, a
    row without a payment_tx has a balance of 0 and is not CLOSED, and a
    CONFIRMING row has no payment_tx. *)
Theorem unpaid_channels_stay_open (w : World) (ch : Channel.t) :
  reachable w ->
  In ch (pc (db w)) ->
  (Channel.payment_tx ch = None ->
   Channel.last_payment_amount ch = 0 /\ Channel.state ch <> CLOSED) /\
  (Channel.state ch = CONFIRMING ->
   Channel.payment_tx ch = None /\ Channel.last_payment_amount ch = 0).
Proof.
  intros Hr Hin. pose proof (reachable_channel_wf w Hr) as Hwf.
  rewrite Forall_forall in Hwf. destruct (Hwf ch Hin) as (Ha & Hb & Hc & Hd).
  split; [exact Hb|]. intros Hs. split; [auto|]. now apply Hb, Hc.
Qed.

(** X26.  In every reachable store a channel row is keyed by the hash of
    its deposit, and once it has a payment its balance lies between the
    dust limit and the amount of the deposit less the minimal fee. *)
Theorem channel_balance_bounds (w : World) (ch : Channel.t) :
  reachable w ->
  In ch (pc (db w)) ->
  Channel.deposit_txid ch = Transaction_hash (Channel.deposit_tx ch) /\
  (Channel.payment_tx ch <> None ->
   DUST_LIMIT <= Channel.last_payment_amount ch <= Channel.amount ch - MIN_TX_FEE).
Proof.
  intros Hr Hin. pose proof (reachable_channel_wf w Hr) as Hwf.
  rewrite Forall_forall in Hwf. destruct (Hwf ch Hin) as (Ha & Hb & Hc & Hd). auto.
Qed.

End StoreInvariants.

(** *** The default provider of [PaymentServer.__init__] *)

Lemma string_app_inv_head (h a b : string) : (h ++ a = h ++ b)%string -> a = b.
Proof.
  induction h as [|c h IH]; simpl; intros H; [exact H|].
  inversion H. now apply IH.
Qed.

(** X27.  A provider passed to the constructor is kept, whatever the
    environment and the wallet.  Without one, the server talks to the host
    of TWO1_PROVIDER_HOST (by default https://blockchain.21.co), at the
    testnet path exactly when the wallet is a testnet wallet; a testnet
    wallet and a mainnet wallet never get the same URL. *)
Theorem default_provider_urls (B : Type) (TWO1_PROVIDER_HOST : option string) :
  (forall testnet (b : B),
      init_blockchain TWO1_PROVIDER_HOST testnet (Some b) = given_blockchain b) /\
  init_blockchain TWO1_PROVIDER_HOST true (@None B)
    = TwentyOneBlockchain (provider_host TWO1_PROVIDER_HOST ++ "/blockchain/testnet3") /\
  init_blockchain TWO1_PROVIDER_HOST false (@None B)
    = TwentyOneBlockchain (provider_host TWO1_PROVIDER_HOST ++ "/blockchain/bitcoin") /\
  init_blockchain TWO1_PROVIDER_HOST true (@None B)
    <> init_blockchain TWO1_PROVIDER_HOST false None /\
  provider_host None = "https://blockchain.21.co".
Proof.
  repeat split. unfold init_blockchain, DEFAULT_TWENTYONE_TESTNET_BLOCKCHAIN_URL,
    DEFAULT_TWENTYONE_BLOCKCHAIN_URL.
  intros H. inversion H as [H1]. apply string_app_inv_head in H1. discriminate.
Qed.

(** *** [ServerRequestError] *)

(** How the construction ends, by the body of the response and the
    message. *)
Lemma server_request_error_cases (resp : ServerRequestError.Response) (msg : string) :
  match ServerRequestError.response_json resp with
  | Raise e =>
      if isinstance_ValueError e
      then exists x, ServerRequestError.init resp msg = ServerRequestError.Built x
      else ServerRequestError.init resp msg = ServerRequestError.Raised e
  | Ok v =>
      if String.eqb msg "" && negb (ServerRequestError.is_dict v)
      then ServerRequestError.init resp msg = ServerRequestError.AttributeError_raised
      else exists x, ServerRequestError.init resp msg = ServerRequestError.Built x
  end.
Proof.
  unfold ServerRequestError.init.
  destruct (ServerRequestError.response_json resp) as [v|e].
  - destruct (String.eqb msg "") eqn:Hm; simpl; rewrite Hm; simpl; [|eauto].
    destruct v; simpl; try reflexivity.
    destruct (ServerRequestError.truth (ServerRequestError.dict_get d "message"));
      simpl; [eauto|].
    destruct (ServerRequestError.truth (ServerRequestError.dict_get d "error"));
      simpl; eauto.
  - destruct (isinstance_ValueError e); [|reflexivity].
    simpl. destruct (String.eqb msg ""); simpl; eauto.
Qed.

(** X28.  The construction of a [ServerRequestError] fails in two ways
    only: with an [AttributeError], exactly when no message is passed and
    the body of the response decodes to something that is not a dict; and
    with what [response.json()] raised, exactly when that is not a
    [ValueError].  A body that does not decode, or a message that is
    passed, never makes it fail. *)
Theorem server_request_error_failures (resp : ServerRequestError.Response)
    (msg : string) :
  (ServerRequestError.init resp msg = ServerRequestError.AttributeError_raised <->
   msg = "" /\
   exists v, ServerRequestError.response_json resp = Ok v /\
             ServerRequestError.is_dict v = false) /\
  (forall e,
      ServerRequestError.init resp msg = ServerRequestError.Raised e <->
      ServerRequestError.response_json resp = Raise e /\ isinstance_ValueError e = false).
Proof.
  pose proof (server_request_error_cases resp msg) as H.
  destruct (ServerRequestError.response_json resp) as [v|e0] eqn:Hj.
  - destruct (String.eqb msg "") eqn:Hm; simpl in H.
    + apply String.eqb_eq in Hm.
      destruct (ServerRequestError.is_dict v) eqn:Hd; simpl in H.
      * destruct H as [x H]. rewrite H. split.
        -- split; [discriminate|]. intros [_ (v' & Hv & Hd')].
           inversion Hv. subst v'. congruence.
        -- intros e. split; [discriminate|intros [? _]; discriminate].
      * rewrite H. split.
        -- split; [|reflexivity]. intros _. split; [exact Hm|]. eauto.
        -- intros e. split; [discriminate|intros [? _]; discriminate].
    + apply String.eqb_neq in Hm. destruct H as [x H]. rewrite H. split.
      * split; [discriminate|]. intros [Hc _]. contradiction.
      * intros e. split; [discriminate|intros [? _]; discriminate].
  - destruct (isinstance_ValueError e0) eqn:Hv.
    + destruct H as [x H]. rewrite H. split.
      * split; [discriminate|]. intros [_ (v & Hv' & _)]. discriminate.
      * intros e. split; [discriminate|]. intros [H1 H2]. inversion H1. subst. congruence.
    + rewrite H. split.
      * split; [discriminate|]. intros [_ (v & Hv' & _)]. discriminate.
      * intros e. split.
        -- intros He. inversion He. subst. auto.
        -- intros [H1 _]. inversion H1. reflexivity.
Qed.

(** X29.  A [ServerRequestError] that is built always carries a message
    that is not empty.  It is the message passed, if any; otherwise the
    body's "message" if that is true, else the body's "error" if that is
    true, else "Unspecified HTTP error (N)." with the status code; a body
    that does not decode counts as an empty dict.  The attribute [json] is
    the empty dict and the status code is the response's. *)
Theorem server_request_error_message (resp : ServerRequestError.Response) (msg : string)
    (x : ServerRequestError.t) :
  ServerRequestError.init resp msg = ServerRequestError.Built x ->
  ServerRequestError.truth (ServerRequestError.message x) = true /\
  ServerRequestError.json_attr x = ServerRequestError.J_dict [] /\
  ServerRequestError.status_code x = ServerRequestError.response_status_code resp /\
  (msg <> "" -> ServerRequestError.message x = ServerRequestError.J_str msg) /\
  (msg = "" ->
   forall d,
     ServerRequestError.data x = ServerRequestError.J_dict d ->
     ServerRequestError.message x
     = if ServerRequestError.truth (ServerRequestError.dict_get d "message")
       then ServerRequestError.dict_get d "message"
       else if ServerRequestError.truth (ServerRequestError.dict_get d "error")
            then ServerRequestError.dict_get d "error"
            else ServerRequestError.J_str
                   ("Unspecified HTTP error ("
                    ++ str_of_int (ServerRequestError.response_status_code resp) ++ ").")) /\
  (forall e, ServerRequestError.response_json resp = Raise e ->
             ServerRequestError.data x = ServerRequestError.J_dict []).
Proof.
  unfold ServerRequestError.init.
  assert (Hne : forall s, s <> "" -> String.eqb s "" = false)
    by (intros s; apply String.eqb_neq).
  assert (Hdict : forall v,
             match
               ServerRequestError.py_or (ServerRequestError.Built (ServerRequestError.J_str msg))
                 (ServerRequestError.py_or (ServerRequestError.get v "message")
                    (ServerRequestError.py_or (ServerRequestError.get v "error")
                       (ServerRequestError.Built
                          (ServerRequestError.J_str
                             ("Unspecified HTTP error ("
                              ++ str_of_int (ServerRequestError.response_status_code resp)
                              ++ ").")))))
             with
             | ServerRequestError.Built m =>
                 ServerRequestError.Built
                   (ServerRequestError.mk resp (ServerRequestError.response_status_code resp)
                      v (ServerRequestError.J_dict []) m)
             | ServerRequestError.AttributeError_raised =>
                 ServerRequestError.AttributeError_raised
             | ServerRequestError.Raised e => ServerRequestError.Raised e
             end = ServerRequestError.Built x ->
             ServerRequestError.truth (ServerRequestError.message x) = true /\
             ServerRequestError.json_attr x = ServerRequestError.J_dict [] /\
             ServerRequestError.status_code x = ServerRequestError.response_status_code resp /\
             ServerRequestError.data x = v /\
             (msg <> "" -> ServerRequestError.message x = ServerRequestError.J_str msg) /\
             (msg = "" ->
              forall d,
                v = ServerRequestError.J_dict d ->
                ServerRequestError.message x
                = if ServerRequestError.truth (ServerRequestError.dict_get d "message")
                  then ServerRequestError.dict_get d "message"
                  else if ServerRequestError.truth (ServerRequestError.dict_get d "error")
                       then ServerRequestError.dict_get d "error"
                       else ServerRequestError.J_str
                              ("Unspecified HTTP error ("
                               ++ str_of_int (ServerRequestError.response_status_code resp)
                               ++ ")."))).
  { intros v. simpl. destruct (String.eqb msg "") eqn:Hm; simpl.
    - apply String.eqb_eq in Hm. subst msg.
      destruct v; simpl; try discriminate.
      destruct (ServerRequestError.truth (ServerRequestError.dict_get d "message")) eqn:H1;
        simpl.
      + intros H. inversion H. simpl. repeat split; auto; [congruence|].
        intros _ d0 Hd. inversion Hd. subst d0. now rewrite H1.
      + destruct (ServerRequestError.truth (ServerRequestError.dict_get d "error")) eqn:H2;
          simpl; intros H; inversion H; simpl; repeat split; auto; try congruence;
          intros _ d0 Hd; inversion Hd; subst d0; now rewrite H1, H2.
    - intros H. inversion H. simpl. rewrite Hm. repeat split; auto.
      intros ->. discriminate. }
  destruct (ServerRequestError.response_json resp) as [v|e0] eqn:Hj.
  - intros H. destruct (Hdict v H) as (H1 & H2 & H3 & H4 & H5 & H6).
    repeat split; auto; [|discriminate].
    intros Hm d Hd. apply H6; congruence.
  - destruct (isinstance_ValueError e0); [|discriminate].
    intros H. destruct (Hdict _ H) as (H1 & H2 & H3 & H4 & H5 & H6).
    repeat split; auto. intros Hm d Hd. apply H6; congruence.
Qed.

(** *** Concrete instances of the properties of [open] and [receive_payment] *)

Lemma open_raises_without_writing_witness :
  Toy.open true (Toy.env false None) "d2" "0102000f504e" initial_world
    = (Raise (TransactionVerificationError
                "Transaction locktime must be further in the future."), initial_world) /\
  (is_BadTransactionError
     (TransactionVerificationError "Transaction locktime must be further in the future.")
   = true \/
   is_TransactionVerificationError
     (TransactionVerificationError "Transaction locktime must be further in the future.")
   = true).
Proof.
  split; [reflexivity|].
  apply (proj2 (@open_raises_without_writing Toy.lib Toy.wallet (Toy.config true)
                  (Toy.env false None) "d2" "0102000f504e" initial_world initial_world _
                  eq_refl)
               (Toy.deposit "f2" 1003598)
               [Byte.x01; Byte.x02; Byte.x00; Byte.x0f; Byte.x50; Byte.x4e]
               (Toy.redeem_script 1003598) eq_refl eq_refl eq_refl).
Defined.

Lemma open_then_status_witness :
  Toy.open true (Toy.env false None) "d0" "0102001e8480" initial_world
    = (Ok "f0-100000", Toy.w_open) /\
  exists rs,
    status "f0-100000" Toy.w_open
    = (Ok (READY, 0, PaymentChannelRedeemScript.expiration_time rs), Toy.w_open).
Proof.
  split; [reflexivity|].
  destruct (@open_then_status Toy.lib Toy.wallet (Toy.config true) (Toy.env false None)
              "d0" "0102001e8480" initial_world "f0-100000" Toy.w_open eq_refl)
    as (dtx & rs & o & ch & _ & _ & _ & _ & _ & _ & _ & _ & _ & _ & H).
  exists rs. exact H.
Defined.

Lemma open_twice_rejected_witness :
  Toy.open true (Toy.env true None) "d0" "0102001e8480" Toy.w_open
    = (Raise (BadTransactionError "That deposit has already been used to create a channel."),
       Toy.w_open).
Proof.
  apply (@open_twice_rejected Toy.lib Toy.wallet (Toy.config true) (Toy.env false None)
           (Toy.env true None) "d0" "0102001e8480" initial_world "f0-100000" Toy.w_open
           eq_refl).
Defined.

Lemma unknown_ids_not_found_witness :
  lookup_channel "f9-100000" (pc (db Toy.w_open)) = None /\
  status "f9-100000" Toy.w_open
    = (Raise (PaymentChannelNotFoundError "Related channel not found."), Toy.w_open) /\
  Toy.close (Toy.env false None) "f9-100000" "zz" Toy.w_open
    = (Raise (PaymentChannelNotFoundError "Related channel not found."), Toy.w_open).
Proof.
  split; [reflexivity|].
  pose proof (@unknown_ids_not_found Toy.lib Toy.wallet (Toy.config true)
                (Toy.env false None) "f9-100000" Toy.w_open eq_refl) as (H1 & H2 & _).
  split; [exact H1 | exact (H2 "zz")].
Defined.

Lemma accepted_payment_script_witness :
  Toy.receive_payment (Toy.env false None) "f0-100000" "a1" Toy.w_open
    = (Ok "f0-100000-5000-94000", Toy.w_paid1) /\
  exists input0 s0 op s2,
    nth_error (inputs (Toy.half_signed_payment "f0" 2000000 5000 1000)) 0 = Some input0 /\
    script input0 = [Bytes s0; Str op; Bytes s2] /\
    (op = "OP_1" \/ op = "OP_TRUE").
Proof.
  split; [reflexivity|].
  destruct (@accepted_payment_script Toy.lib Toy.wallet (Toy.config true)
              (Toy.env false None) "f0-100000" "a1" Toy.w_open "f0-100000-5000-94000"
              Toy.w_paid1 eq_refl)
    as (tx & ch & input0 & s0 & op & s2 & mpk & rs & sig & Hp & _ & Hn & Hs & Ho & _).
  exists input0, s0, op, s2. vm_compute in Hp. inversion Hp; subst tx. auto.
Defined.

Lemma accepted_payment_outputs_witness :
  Toy.receive_payment (Toy.env false None) "f0-100000" "a1" Toy.w_open
    = (Ok "f0-100000-5000-94000", Toy.w_paid1) /\
  exists ch' ptx,
    lookup_channel "f0-100000" (pc (db Toy.w_paid1)) = Some ch' /\
    Channel.payment_tx ch' = Some ptx /\
    "f0-100000-5000-94000" = @Transaction_hash Toy.lib ptx /\
    Channel.state ch' = READY.
Proof.
  split; [reflexivity|].
  destruct (@accepted_payment_outputs Toy.lib Toy.wallet (Toy.config true)
              (Toy.env false None) "f0-100000" "a1" Toy.w_open "f0-100000-5000-94000"
              Toy.w_paid1 eq_refl)
    as (tx & ch & ch' & mpk & rs & sig & unsigned & ptx & amt
        & _ & _ & _ & _ & _ & _ & _ & _ & _ & Ht & Hl & Hp & Hs & _).
  exists ch', ptx. auto.
Defined.

Lemma replayed_payment_rejected_witness :
  Toy.receive_payment (Toy.env true None) "f0-100000" "a1" Toy.w_paid1
    = (Raise (BadTransactionError "Payment must be greater than 0."), Toy.w_paid1).
Proof.
  apply (@replayed_payment_rejected Toy.lib Toy.wallet (Toy.config true) (Toy.env false None)
           (Toy.env true None) "f0-100000" "a1" Toy.w_open "f0-100000-5000-94000"
           Toy.w_paid1 eq_refl).
Defined.

(** *** Concrete instances of the further properties *)

Lemma close_raises_without_closing_witness :
  fst (Toy.close ToyMore.refusing "f0-100000" "0203" Toy.w_paid2)
    = Raise (Exception "broadcast refused") /\
  db (snd (Toy.close ToyMore.refusing "f0-100000" "0203" Toy.w_paid2)) = db Toy.w_paid2.
Proof.
  split; [vm_compute; reflexivity|].
  apply (proj1 (@close_raises_without_closing Toy.lib Toy.wallet ToyMore.refusing
                  "f0-100000" "0203" Toy.w_paid2
                  (snd (Toy.close ToyMore.refusing "f0-100000" "0203" Toy.w_paid2))
                  (Exception "broadcast refused") eq_refl)).
Defined.

Lemma close_returns_after_broadcast_witness :
  Toy.close (Toy.env false None) "f0-100000" "0203" Toy.w_paid2
    = (Ok "f0-100000-7500-91500", Toy.w_closed) /\
  exists ch,
    lookup_channel "f0-100000" (pc (db Toy.w_paid2)) = Some ch /\
    lookup_channel "f0-100000" (pc (db Toy.w_closed)) = Some (Channel.set_state CLOSED ch).
Proof.
  split; [vm_compute; reflexivity|].
  destruct (@close_returns_after_broadcast Toy.lib Toy.wallet (Toy.env false None)
              "f0-100000" "0203" Toy.w_paid2 "f0-100000-7500-91500" Toy.w_closed eq_refl)
    as (ch & ptx & der & sig & rs & signed & Hl & _ & _ & _ & _ & _ & _ & _ & _ & _ & _
        & Hl' & _).
  exists ch. split; [exact Hl|exact Hl'].
Defined.

Lemma close_rejections_witness :
  lookup_channel "f0-100000" (pc (db Toy.w_open)) = Some Toy.row_open /\
  codecs_decode_hex "0203" = Ok [Byte.x02; Byte.x03] /\
  Toy.close (Toy.env false None) "f0-100000" "0203" Toy.w_open
    = (Raise (BadTransactionError "No payments made in channel."), Toy.w_open).
Proof.
  split; [reflexivity|]. split; [reflexivity|].
  apply (proj1 (proj2 (@close_rejections Toy.lib Toy.wallet (Toy.env false None)
                         "f0-100000" "0203" Toy.w_open Toy.row_open
                         [Byte.x02; Byte.x03] eq_refl eq_refl))
               (mkSignature 2 3) eq_refl eq_refl).
Defined.

Lemma redeem_raises_without_writing_witness :
  redeem "f0-100000-5000-94000" Toy.w_closed
    = (Raise (ChannelClosedError "Payment channel closed."), Toy.w_closed) /\
  snd (redeem "f0-100000-5000-94000" Toy.w_closed) = Toy.w_closed.
Proof.
  split; [vm_compute; reflexivity|].
  apply (proj1 (redeem_raises_without_writing "f0-100000-5000-94000" Toy.w_closed
                  (snd (redeem "f0-100000-5000-94000" Toy.w_closed))
                  (ChannelClosedError "Payment channel closed.") eq_refl)).
Defined.

Lemma redeem_marks_one_payment_witness :
  redeem "f0-100000-5000-94000" Toy.w_paid2 = (Ok 5000, Toy.w_redeemed) /\
  lookup_payment "f0-100000-7500-91500" (pmt (db Toy.w_redeemed))
    = lookup_payment "f0-100000-7500-91500" (pmt (db Toy.w_paid2)).
Proof.
  split; [vm_compute; reflexivity|].
  destruct (redeem_marks_one_payment "f0-100000-5000-94000" Toy.w_paid2 5000
              Toy.w_redeemed eq_refl)
    as (p & ch & _ & _ & _ & _ & _ & _ & _ & _ & Hother & _).
  apply Hother. discriminate.
Defined.

Lemma redeem_after_close_witness :
  redeem "f0-100000-5000-94000" Toy.w_closed
    = (Raise (ChannelClosedError "Payment channel closed."), Toy.w_closed).
Proof.
  apply (@redeem_after_close Toy.lib Toy.wallet (Toy.env false None) "f0-100000" "0203"
           Toy.w_paid2 "f0-100000-7500-91500" Toy.w_closed "f0-100000-5000-94000"
           Toy.payment_row1 eq_refl eq_refl eq_refl).
Defined.

Lemma sync_skips_closed_witness :
  Toy.sync (ToyMore.env_at ToyMore.later (Some "ab") (Ok tt)) Toy.w_closed
    = (Ok tt, Toy.w_closed).
Proof.
  apply (@sync_skips_closed Toy.lib Toy.wallet).
  intros c Hc. vm_compute in Hc. destruct Hc as [<-|[]]. reflexivity.
Defined.

Lemma sync_without_payments_witness :
  fst (Toy.sync (Toy.env true None) Toy.w_confirming) = Ok tt /\
  pmt (db (snd (Toy.sync (Toy.env true None) Toy.w_confirming)))
    = pmt (db Toy.w_confirming).
Proof.
  split; [vm_compute; reflexivity|].
  apply (proj1 (@sync_without_payments Toy.lib Toy.wallet (Toy.env true None)
                  Toy.w_confirming (Ok tt)
                  (snd (Toy.sync (Toy.env true None) Toy.w_confirming))
                  (fun c Hc => match Hc with
                               | or_introl e => f_equal Channel.payment_tx (eq_sym e)
                               | or_intror f => match f with end
                               end)
                  eq_refl)).
Defined.


Lemma sync_channel_spent_deposit_witness :
  @sync_channel Toy.lib Toy.wallet (Toy.env false (Some "ab")) Toy.row_paid1 Toy.w_paid1
    = (Ok tt, closed "f0-100000" Toy.w_paid1).
Proof.
  apply (@sync_channel_spent_deposit Toy.lib Toy.wallet (Toy.env false (Some "ab"))
           Toy.row_paid1 Toy.w_paid1 (Toy.half_signed_payment "f0" 2000000 5000 1000)
           (Toy.redeem_script 2000000) "ab" eq_refl eq_refl eq_refl eq_refl).
  - discriminate.
  - vm_compute. discriminate.
Defined.


Lemma toy_reachable_closed : @reachable Toy.lib Toy.wallet (Toy.config true) Toy.w_closed.
Proof.
  exact (@reachable_exec Toy.lib Toy.wallet (Toy.config true) Toy.w_paid2
           (Toy.env false None) (call_close "f0-100000" "0203") toy_reachable_paid2).
Qed.

Lemma toy_reachable_confirming :
  @reachable Toy.lib Toy.wallet (Toy.config false) Toy.w_confirming.
Proof.
  exact (@reachable_exec Toy.lib Toy.wallet (Toy.config false) initial_world
           (Toy.env false None) (call_open "d0" "0102001e8480")
           (@reachable_init Toy.lib Toy.wallet (Toy.config false))).
Qed.

Lemma closed_channel_is_final_witness :
  lookup_channel "f0-100000"
    (pc (db (snd (@run Toy.lib Toy.wallet (Toy.config true)
                    [(ToyMore.env_at ToyMore.later (Some "ab") (Ok tt), call_sync);
                     (Toy.env false None, call_close "f0-100000" "0203");
                     (Toy.env false None, call_receive_payment "f0-100000" "a4");
                     (Toy.env false None, call_redeem "f0-100000-5000-94000")]
                    Toy.w_closed))))
    = Some Toy.row_closed.
Proof.
  apply (@closed_channel_is_final Toy.lib Toy.wallet (Toy.config true));
    [exact toy_reachable_closed | reflexivity | reflexivity].
Defined.

Lemma payments_belong_to_channels_witness :
  In Toy.payment_row1 (pmt (db Toy.w_paid2)) /\
  0 < Payment.amount Toy.payment_row1 /\
  exists ch,
    lookup_channel "f0-100000" (pc (db Toy.w_paid2)) = Some ch /\
    5000 <= Channel.last_payment_amount ch.
Proof.
  assert (Hin : In Toy.payment_row1 (pmt (db Toy.w_paid2))) by (vm_compute; left; reflexivity).
  split; [exact Hin|].
  exact (proj2 (@payments_belong_to_channels Toy.lib Toy.wallet (Toy.config true)
                  Toy.w_paid2 Toy.payment_row1 toy_reachable_paid2 Hin)).
Defined.


Lemma broadcasts_follow_signings_witness :
  exists tx,
    "f0-100000:020901.010701.0102001e8480/7500:01,91500:02" = @Transaction_to_hex Toy.lib tx.
Proof.
  destruct (@broadcasts_follow_signings Toy.lib Toy.wallet (Toy.config true) Toy.w_closed
              (firstn 7 (trace Toy.w_closed))
              [ev_pc_update_state "f0-100000" CLOSED]
              "f0-100000:020901.010701.0102001e8480/7500:01,91500:02"
              toy_reachable_closed eq_refl)
    as (pre' & tx & _ & H).
  exists tx. exact H.
Defined.

Lemma unpaid_channels_stay_open_witness :
  In ToyMore.row_confirming (pc (db Toy.w_confirming)) /\
  Channel.payment_tx ToyMore.row_confirming = None /\
  Channel.last_payment_amount ToyMore.row_confirming = 0.
Proof.
  assert (Hin : In ToyMore.row_confirming (pc (db Toy.w_confirming))) by (vm_compute; left; reflexivity).
  split; [exact Hin|].
  exact (proj2 (@unpaid_channels_stay_open Toy.lib Toy.wallet (Toy.config false)
                  Toy.w_confirming ToyMore.row_confirming toy_reachable_confirming Hin)
               eq_refl).
Defined.

Lemma channel_balance_bounds_witness :
  In Toy.row_paid2 (pc (db Toy.w_paid2)) /\
  DUST_LIMIT <= Channel.last_payment_amount Toy.row_paid2 <= 100000 - 1000.
Proof.
  assert (Hin : In Toy.row_paid2 (pc (db Toy.w_paid2))) by (vm_compute; left; reflexivity).
  split; [exact Hin|].
  apply (proj2 (@channel_balance_bounds Toy.lib Toy.wallet (Toy.config true)
                  Toy.w_paid2 Toy.row_paid2 toy_reachable_paid2 Hin)).
  discriminate.
Defined.

Lemma server_request_error_message_witness :
  ServerRequestError.init ToyMore.bad_login "" = ServerRequestError.Built ToyMore.bad_login_error /\
  ServerRequestError.message ToyMore.bad_login_error
    = ServerRequestError.J_str "Incorrect username or password" /\
  ServerRequestError.truth (ServerRequestError.message ToyMore.bad_login_error) = true.
Proof.
  split; [reflexivity|]. split; [reflexivity|].
  apply (proj1 (server_request_error_message ToyMore.bad_login ""
                  ToyMore.bad_login_error eq_refl)).
Defined.
